(** * Groups and messages: a shallow embedding of the Express routes and
    Mongoose models, and the properties of the membership state machine and
    of the message lifecycle.

    Conventions of the embedding.
    - A JavaScript string is the string of the bytes of its UTF-8 encoding.
    - An ObjectId is a number.  The code compares ids as texts: the
      [toString()] of a stored id, 24 hexadecimal digits in lower case, with
      the text a request carries.  [req.userId] comes out of a token this
      server signed and is the [toString()] of the user's id; a group id in
      the URL and a user id in the body are texts of the client's making
      ([IdText]).
    - A number of a JSON body is a double; such a number is modelled by the
      rational it stands for, and the comparisons of the code are exact on
      these.
    - A date is its number of milliseconds since the epoch ([Z]).
    - A route handler is a function from the store to a response and the
      store it leaves behind.  What a request reads from outside the store is
      gathered in [Env]: the clock, the id Mongoose generates for a new
      document, the outcome of every awaited write, and the bytes returned
      by [crypto.randomBytes].
    - A thrown exception is caught by the handler's [catch] and answered with
      status 500; the writes already awaited stay in the store. *)

From Stdlib Require Import ZArith QArith Lia Lqa List String Ascii Bool.
From stdpp Require Import base option list gmap strings sorting.

Close Scope Q_scope.
Local Open Scope string_scope.
Local Open Scope list_scope.

(* ================================================================== *)
(** * JavaScript strings *)
(* ================================================================== *)

Module Js.

Definition code (a : ascii) : N := N_of_ascii a.

(** White space and line terminators of ECMAScript that take one byte:
    TAB, LF, VT, FF, CR, SP. *)
Definition ws1 (a : N) : bool :=
  ((a =? 9) || (a =? 10) || (a =? 11) || (a =? 12) || (a =? 13) || (a =? 32))%N.

(** U+00A0. *)
Definition ws2 (a b : N) : bool := ((a =? 194) && (b =? 160))%N.

(** U+1680, U+2000..U+200A, U+2028, U+2029, U+202F, U+205F, U+3000,
    U+FEFF. *)
Definition ws3 (a b c : N) : bool :=
  (((a =? 225) && (b =? 154) && (c =? 128))
   || ((a =? 226) && (b =? 128)
       && (((128 <=? c) && (c <=? 138)) || (c =? 168) || (c =? 169) || (c =? 175)))
   || ((a =? 226) && (b =? 129) && (c =? 159))
   || ((a =? 227) && (b =? 128) && (c =? 128))
   || ((a =? 239) && (b =? 187) && (c =? 191)))%N.

(** [strip fwd s] drops the white space at the front of [s]; with
    [fwd = false] the string is read backwards, so the bytes of a
    character arrive last byte first. *)
Fixpoint strip (fwd : bool) (s : string) : string :=
  match s with
  | EmptyString => s
  | String a r =>
      if ws1 (code a) then strip fwd r
      else
        match r with
        | EmptyString => s
        | String b r2 =>
            if (if fwd then ws2 (code a) (code b) else ws2 (code b) (code a))
            then strip fwd r2
            else
              match r2 with
              | EmptyString => s
              | String c r3 =>
                  if (if fwd then ws3 (code a) (code b) (code c)
                      else ws3 (code c) (code b) (code a))
                  then strip fwd r3
                  else s
              end
        end
  end.

Definition reverse (s : string) : string :=
  string_of_list_ascii (rev (list_ascii_of_string s)).

(** [String.prototype.trim]. *)
Definition trim (s : string) : string :=
  reverse (strip false (reverse (strip true s))).

(** [s.length]: the number of UTF-16 code units of the string whose UTF-8
    encoding is [s].  A continuation byte adds nothing, the first byte of a
    four-byte sequence stands for a surrogate pair. *)
Fixpoint length (s : string) : nat :=
  match s with
  | EmptyString => 0
  | String a r =>
      let c := code a in
      ((if ((128 <=? c) && (c <? 192))%N then 0
        else if (240 <=? c)%N then 2 else 1)
       + length r)%nat
  end.

(** [s.includes(sub)]. *)
Fixpoint includes (s sub : string) : bool :=
  String.prefix sub s
  || match s with
     | EmptyString => false
     | String _ r => includes r sub
     end.

(** [!s] for a string: only the empty string is falsy. *)
Definition falsy (s : string) : bool := String.eqb s "".

(** The guard [!content || content.trim().length === 0]. *)
Definition blank (s : string) : bool :=
  falsy s || Nat.eqb (length (trim s)) 0.

End Js.

(* ================================================================== *)
(** * Data model: the Mongoose schemas *)
(* ================================================================== *)

Definition ObjectId := N.
Bind Scope N_scope with ObjectId.

(** An id as a request spells it, in the URL or in a field of the body: a
    text that Mongoose casts to the ObjectId [id] wherever the code queries
    or stores by it.  [written] tells whether the text is the one
    [toString()] gives for this id, its 24 hexadecimal digits in lower
    case; the same digits in upper case are cast to the same id and are
    another text.  A text that is not cast to any id makes the first query
    of a route throw, and the route answers 500 having written nothing (as
    [newOwnerId], it is answered 400 "Invalid new owner"): such requests
    change nothing and have no place here.  An id in the body of a request
    is a JSON string. *)
Module IdText.
Record t := mk { id : ObjectId; written : bool }.

(** [stored.toString() === text]. *)
Definition equals (stored : ObjectId) (text : t) : bool :=
  written text && N.eqb stored (id text).

(** [i.toString()]. *)
Definition canonical (i : ObjectId) : t := mk i true.
End IdText.

(** An id of the program's own, [req.userId] above all, is used as the text
    [toString()] gives. *)
Coercion IdText.canonical : ObjectId >-> IdText.t.

Inductive GroupType := Public | Private.
Inductive RequestStatus := Pending | Approved | Declined.

Definition GroupType_eqb (a b : GroupType) : bool :=
  match a, b with Public, Public | Private, Private => true | _, _ => false end.

Definition RequestStatus_eqb (a b : RequestStatus) : bool :=
  match a, b with
  | Pending, Pending | Approved, Approved | Declined, Declined => true
  | _, _ => false
  end.

Module JoinRequest.
Record t := mk
  { _id : ObjectId; userId : ObjectId; requestedAt : Z; status : RequestStatus }.
Definition set_status (r : t) (s : RequestStatus) : t :=
  mk (_id r) (userId r) (requestedAt r) s.
End JoinRequest.

Module Ban.
Record t := mk { userId : ObjectId; bannedAt : Z; bannedBy : ObjectId }.
End Ban.

Module Group.
Record t := mk
  { name : string;
    type : GroupType;
    owner : ObjectId;
    members : list ObjectId;
    maxMembers : option Q;          (* a JSON number; None is null: unlimited *)
    joinRequests : list JoinRequest.t;
    bannedUsers : list Ban.t;
    createdAt : Z;
    updatedAt : Z }.

Definition set_owner (g : t) (o : ObjectId) : t :=
  mk (name g) (type g) o (members g) (maxMembers g)
     (joinRequests g) (bannedUsers g) (createdAt g) (updatedAt g).
Definition set_members (g : t) (ms : list ObjectId) : t :=
  mk (name g) (type g) (owner g) ms (maxMembers g)
     (joinRequests g) (bannedUsers g) (createdAt g) (updatedAt g).
Definition set_joinRequests (g : t) (rs : list JoinRequest.t) : t :=
  mk (name g) (type g) (owner g) (members g) (maxMembers g)
     rs (bannedUsers g) (createdAt g) (updatedAt g).
Definition set_bannedUsers (g : t) (bs : list Ban.t) : t :=
  mk (name g) (type g) (owner g) (members g) (maxMembers g)
     (joinRequests g) bs (createdAt g) (updatedAt g).
Definition set_updatedAt (g : t) (d : Z) : t :=
  mk (name g) (type g) (owner g) (members g) (maxMembers g)
     (joinRequests g) (bannedUsers g) (createdAt g) d.

(** [groupSchema.methods.isMember]. *)
Definition isMember (g : t) (userId : IdText.t) : bool :=
  existsb (fun memberId => IdText.equals memberId userId) (members g).

(** [groupSchema.methods.isBanned]. *)
Definition isBanned (g : t) (userId : IdText.t) : bool :=
  existsb (fun ban => IdText.equals (Ban.userId ban) userId) (bannedUsers g).

(** [groupSchema.methods.hasPendingRequest]. *)
Definition hasPendingRequest (g : t) (userId : IdText.t) : bool :=
  existsb
    (fun req =>
       IdText.equals (JoinRequest.userId req) userId
       && RequestStatus_eqb (JoinRequest.status req) Pending)
    (joinRequests g).

(** The guard [group.maxMembers && group.members.length >= group.maxMembers]
    of the join and approve routes: [null] and [0] are falsy. *)
Definition full (g : t) : bool :=
  match maxMembers g with
  | None => false
  | Some m =>
      negb (Qeq_bool m 0) && Qle_bool m (inject_Z (Z.of_nat (List.length (members g))))
  end.

(** [group.joinRequests.id(requestId)]: the first subdocument with this
    [_id], with its position in the array.  [id()] casts the text it is
    given before it compares: [requestId] is the id the text is cast to. *)
Fixpoint request (rs : list JoinRequest.t) (requestId : ObjectId)
  : option (nat * JoinRequest.t) :=
  match rs with
  | [] => None
  | r :: rs' =>
      if N.eqb (JoinRequest._id r) requestId then Some (0%nat, r)
      else prod_map S id <$> request rs' requestId
  end.
End Group.

Module LeftGroup.
Record t := mk { groupId : ObjectId; leftAt : Z }.
End LeftGroup.

Module BannedGroup.
Record t := mk { groupId : ObjectId; bannedAt : Z }.
End BannedGroup.

Module User.
(** The credential fields (email, password, username) take no part in the
    routes modelled here. *)
Record t := mk
  { groups : list ObjectId;
    bannedGroups : list BannedGroup.t;
    leftGroups : list LeftGroup.t }.

Definition set_groups (u : t) (gs : list ObjectId) : t :=
  mk gs (bannedGroups u) (leftGroups u).
Definition set_bannedGroups (u : t) (bs : list BannedGroup.t) : t :=
  mk (groups u) bs (leftGroups u).
Definition set_leftGroups (u : t) (ls : list LeftGroup.t) : t :=
  mk (groups u) (bannedGroups u) ls.

(** [(Date.now() - leftRecord.leftAt) / (1000 * 60 * 60)], as an exact
    rational.  The difference of two dates is an integer far below 2^53
    and the quotient is compared with an integer, so the comparison on
    doubles has the same outcome. *)
Definition hoursSince (now leftAt : Z) : Q :=
  (inject_Z (now - leftAt) / inject_Z (1000 * 60 * 60))%Q.

(** [userSchema.methods.canRejoinPrivateGroup], [now] being [Date.now()];
    the route hands it the text of the URL. *)
Definition canRejoinPrivateGroup (now : Z) (u : t) (groupId : IdText.t) : bool :=
  match find (fun lg => IdText.equals (LeftGroup.groupId lg) groupId) (leftGroups u) with
  | None => true
  | Some leftRecord => Qle_bool 48 (hoursSince now (LeftGroup.leftAt leftRecord))
  end.
End User.

Module Message.
Record t := mk
  { _id : ObjectId;
    groupId : ObjectId;
    senderId : ObjectId;
    content : string;
    encrypted : bool;
    iv : option string;             (* not required by the schema *)
    timestamp : Z;
    edited : bool;
    editedAt : option Z;
    deleted : bool;
    deletedAt : option Z }.

Definition set_cipher (m : t) (c : string) (v : option string) : t :=
  mk (_id m) (groupId m) (senderId m) c (encrypted m) v (timestamp m)
     (edited m) (editedAt m) (deleted m) (deletedAt m).
Definition set_edited (m : t) (e : bool) (at_ : option Z) : t :=
  mk (_id m) (groupId m) (senderId m) (content m) (encrypted m) (iv m)
     (timestamp m) e at_ (deleted m) (deletedAt m).
Definition set_deleted (m : t) (d : bool) (at_ : option Z) : t :=
  mk (_id m) (groupId m) (senderId m) (content m) (encrypted m) (iv m)
     (timestamp m) (edited m) (editedAt m) d at_.
End Message.

(* ================================================================== *)
(** * The store, the environment of a request, the responses *)
(* ================================================================== *)

(** The three collections.  A group and a user are stored under their
    [_id].  Messages are kept in insertion order, which is the order a query
    without an index hint walks them in. *)
Record DB := mkDB
  { groups : gmap ObjectId Group.t;
    users : gmap ObjectId User.t;
    messages : list Message.t }.

Definition set_groups (db : DB) (gs : gmap ObjectId Group.t) : DB :=
  mkDB gs (users db) (messages db).
Definition set_users (db : DB) (us : gmap ObjectId User.t) : DB :=
  mkDB (groups db) us (messages db).
Definition set_messages (db : DB) (ms : list Message.t) : DB :=
  mkDB (groups db) (users db) ms.

(** What one request reads from outside the store. *)
Record Env := mkEnv
  { now : Z;                         (* Date.now() and new Date() *)
    newId : ObjectId;                (* the _id of the document it creates *)
    saved : nat -> bool;             (* does its k-th awaited write succeed *)
    randomBytes : nat -> string }.   (* its k-th crypto.randomBytes(16) *)

(** One line of [GET /messages/:groupId]. *)
Record Listed := mkListed
  { l_id : ObjectId; l_groupId : ObjectId; l_sender : ObjectId;
    l_content : string; l_timestamp : Z; l_edited : bool;
    l_editedAt : option Z }.

(** One line of [GET /messages/:groupId/search]. *)
Record Hit := mkHit
  { h_id : ObjectId; h_groupId : ObjectId; h_sender : ObjectId;
    h_content : string; h_timestamp : Z; h_edited : bool }.

(** [res.status(status).json(...)].  [Err] carries the [error] and the
    [message] of the body (the empty string where the body has none). *)
Inductive Response :=
| Done (status : Z) (message : string)
| Err (status : Z) (error message : string)
| Sent (id groupId sender : ObjectId) (content : string) (timestamp : Z)
| Edited (id : ObjectId) (content : string) (edited : bool) (editedAt : Z)
| Listing (listed : list Listed) (hasMore : bool)
| Found (results : list Hit) (query : string) (count : nat).

(** The answer of a [catch] block.  The body also carries the text of the
    exception, which the model does not track. *)
Definition caught (error : string) : Response := Err 500 error "".

(** ** Writes *)

(** [groupSchema.pre("save")] stamps [updatedAt]; then the document
    replaces the stored one. *)
Definition saveGroup (env : Env) (id : ObjectId) (g : Group.t) (db : DB) : DB :=
  set_groups db (<[id := Group.set_updatedAt g (now env)]> (groups db)).

Definition saveUser (id : ObjectId) (u : User.t) (db : DB) : DB :=
  set_users db (<[id := u]> (users db)).

(** [User.findByIdAndUpdate(id, { $push: { groups: groupId } })]; no
    document with this id: nothing is written. *)
Definition pushUserGroup (id groupId : ObjectId) (db : DB) : DB :=
  match users db !! id with
  | None => db
  | Some u => saveUser id (User.set_groups u (User.groups u ++ [groupId])) db
  end.

(** [a.filter((x) => x.toString() !== id)]. *)
Definition without (id : IdText.t) (l : list ObjectId) : list ObjectId :=
  List.filter (fun x => negb (IdText.equals x id)) l.

(* ================================================================== *)
(** * routes/groups.js: the membership engine *)
(* ================================================================== *)

Module Groups.

(** [["public", "private"].includes(type)]. *)
Definition groupType (type : string) : option GroupType :=
  if String.eqb type "public" then Some Public
  else if String.eqb type "private" then Some Private
  else None.

(** [maxMembers && maxMembers < 2]. *)
Definition belowTwo (maxMembers : option Q) : bool :=
  match maxMembers with
  | None => false
  | Some m => negb (Qeq_bool m 0) && negb (Qle_bool 2 m)
  end.

(** [maxMembers || null]. *)
Definition orNull (maxMembers : option Q) : option Q :=
  match maxMembers with
  | Some m => if Qeq_bool m 0 then None else Some m
  | None => None
  end.

(** The validators of [name]: [required] and [maxlength: 100], applied
    to the trimmed value. *)
Definition validName (name : string) : bool :=
  negb (Js.falsy name) && (Js.length name <=? 100)%nat.

(** [router.post("/")].  [maxMembers] is the number of the body, whole or
    not, [None] when the body has none (or null); a body whose [maxMembers]
    is not a number is not modelled. *)
Definition createGroup (env : Env) (userId : ObjectId) (name type : string)
    (maxMembers : option Q) (db : DB) : Response * DB :=
  if Js.falsy name || Js.falsy type then
    (Err 400 "Missing required fields" "Name and type are required", db)
  else
    match groupType type with
    | None =>
        (Err 400 "Invalid group type" "Type must be either public or private", db)
    | Some ty =>
        if belowTwo maxMembers then
          (Err 400 "Invalid max members" "Maximum members must be at least 2", db)
        else
          let group :=
            Group.mk (Js.trim name) ty userId [userId]
                     (orNull maxMembers) [] [] (now env) (now env) in
          (* group.save(): validation of the name (the [min: 2] of
             maxMembers holds once the check above is passed), a unique
             _id, the write itself *)
          if negb (validName (Group.name group))
             || bool_decide (is_Some (groups db !! newId env))
             || negb (saved env 0)
          then (caught "Failed to create group", db)
          else
            let db1 := saveGroup env (newId env) group db in
            if negb (saved env 1) then (caught "Failed to create group", db1)
            else (Done 201 "Group created successfully",
                  pushUserGroup userId (newId env) db1)
    end.

(** [router.post("/:groupId/join")]. *)
Definition joinGroup (env : Env) (groupId : IdText.t) (userId : ObjectId) (db : DB)
  : Response * DB :=
  match groups db !! IdText.id groupId with
  | None => (Err 404 "Group not found" "", db)
  | Some group =>
      if Group.isMember group userId then
        (Err 400 "Already a member" "You are already a member of this group", db)
      else if Group.isBanned group userId then
        (Err 403 "Access denied"
           "You have been banned from this group. Contact the owner to request reinstatement.",
         db)
      else if Group.full group then
        (Err 400 "Group full" "This group has reached its maximum member limit", db)
      else
        match Group.type group with
        | Public =>
            let group1 := Group.set_members group (Group.members group ++ [userId]) in
            if negb (saved env 0) then (caught "Failed to join group", db)
            else
              let db1 := saveGroup env (IdText.id groupId) group1 db in
              match users db !! userId with
              | None => (caught "Failed to join group", db1)
              | Some user =>
                  let user1 :=
                    User.set_groups user (User.groups user ++ [IdText.id groupId]) in
                  if negb (saved env 1) then (caught "Failed to join group", db1)
                  else (Done 200 "Successfully joined the group", saveUser userId user1 db1)
              end
        | Private =>
            match users db !! userId with
            | None => (caught "Failed to join group", db)
            | Some user =>
                if negb (User.canRejoinPrivateGroup (now env) user groupId) then
                  (Err 429 "Cooldown period"
                     "You must wait 48 hours after leaving before you can request to rejoin this private group",
                   db)
                else if Group.hasPendingRequest group userId then
                  (Err 400 "Request pending"
                     "You already have a pending join request for this group", db)
                else
                  let request := JoinRequest.mk (newId env) userId (now env) Pending in
                  let group1 :=
                    Group.set_joinRequests group (Group.joinRequests group ++ [request]) in
                  if negb (saved env 0) then (caught "Failed to join group", db)
                  else (Done 200 "Join request sent successfully",
                        saveGroup env (IdText.id groupId) group1 db)
            end
        end
  end.

(** The cooldown bookkeeping of the leave route: [findIndex] on
    [leftGroups] with [lg.groupId.toString() === groupId], then overwrite
    [leftAt] in place or push a record, whose [groupId] is cast. *)
Fixpoint recordLeft (ls : list LeftGroup.t) (groupId : IdText.t) (at_ : Z)
  : list LeftGroup.t :=
  match ls with
  | [] => [LeftGroup.mk (IdText.id groupId) at_]
  | lg :: ls' =>
      if IdText.equals (LeftGroup.groupId lg) groupId
      then LeftGroup.mk (LeftGroup.groupId lg) at_ :: ls'
      else lg :: recordLeft ls' groupId at_
  end.

(** [router.post("/:groupId/leave")]. *)
Definition leaveGroup (env : Env) (groupId : IdText.t) (userId : ObjectId) (db : DB)
  : Response * DB :=
  match groups db !! IdText.id groupId with
  | None => (Err 404 "Group not found" "", db)
  | Some group =>
      if negb (Group.isMember group userId) then
        (Err 400 "Not a member" "You are not a member of this group", db)
      else if N.eqb (Group.owner group) userId then
        (Err 400 "Owner cannot leave"
           "You must transfer ownership before leaving the group", db)
      else
        let group1 := Group.set_members group (without userId (Group.members group)) in
        if negb (saved env 0) then (caught "Failed to leave group", db)
        else
          let db1 := saveGroup env (IdText.id groupId) group1 db in
          match users db !! userId with
          | None => (caught "Failed to leave group", db1)
          | Some user =>
              let user1 := User.set_groups user (without groupId (User.groups user)) in
              let user2 :=
                match Group.type group with
                | Private =>
                    User.set_leftGroups user1
                      (recordLeft (User.leftGroups user1) groupId (now env))
                | Public => user1
                end in
              if negb (saved env 1) then (caught "Failed to leave group", db1)
              else (Done 200 "Successfully left the group", saveUser userId user2 db1)
          end
  end.

(** [router.delete("/:groupId")].  Its three writes are queries, which
    cast the text of the URL. *)
Definition deleteGroup (env : Env) (groupId : IdText.t) (userId : ObjectId) (db : DB)
  : Response * DB :=
  match groups db !! IdText.id groupId with
  | None => (Err 404 "Group not found" "", db)
  | Some group =>
      if negb (N.eqb (Group.owner group) userId) then
        (Err 403 "Access denied" "Only the group owner can delete the group", db)
      else if (1 <? List.length (Group.members group))%nat then
        (Err 400 "Group has members"
           "You must be the only member to delete the group", db)
      else if negb (saved env 0) then (caught "Failed to delete group", db)
      else
        let db1 :=
          set_messages db
            (List.filter (fun m => negb (N.eqb (Message.groupId m) (IdText.id groupId)))
                         (messages db)) in
        if negb (saved env 1) then (caught "Failed to delete group", db1)
        else
          let db2 :=
            set_users db1
              ((fun u =>
                  User.set_groups u
                    (without (IdText.canonical (IdText.id groupId)) (User.groups u)))
                 <$> users db1) in
          if negb (saved env 2) then (caught "Failed to delete group", db2)
          else (Done 200 "Group deleted successfully",
                set_groups db2 (delete (IdText.id groupId) (groups db2)))
  end.

(** [router.post("/:groupId/transfer")]. *)
Definition transferOwnership (env : Env) (groupId : IdText.t) (userId : ObjectId)
    (newOwnerId : option IdText.t) (db : DB) : Response * DB :=
  match newOwnerId with
  | None => (Err 400 "Missing new owner ID" "", db)
  | Some newOwnerId =>
      match groups db !! IdText.id groupId with
      | None => (Err 404 "Group not found" "", db)
      | Some group =>
          if negb (N.eqb (Group.owner group) userId) then
            (Err 403 "Access denied" "Only the group owner can transfer ownership", db)
          else if negb (Group.isMember group newOwnerId) then
            (Err 400 "Invalid new owner" "New owner must be a member of the group", db)
          else if negb (saved env 0) then (caught "Failed to transfer ownership", db)
          else (Done 200 "Ownership transferred successfully",
                saveGroup env (IdText.id groupId)
                  (Group.set_owner group (IdText.id newOwnerId)) db)
      end
  end.

(** [router.post("/:groupId/banish")]. *)
Definition banishUser (env : Env) (groupId : IdText.t) (userId : ObjectId)
    (targetUserId : option IdText.t) (db : DB) : Response * DB :=
  match targetUserId with
  | None => (Err 400 "Missing target user ID" "", db)
  | Some targetUserId =>
      match groups db !! IdText.id groupId with
      | None => (Err 404 "Group not found" "", db)
      | Some group =>
          match users db !! IdText.id targetUserId with
          | None => (Err 404 "User not found" "", db)
          | Some targetUser =>
              if negb (N.eqb (Group.owner group) userId) then
                (Err 403 "Access denied" "Only the group owner can banish members", db)
              else if IdText.equals userId targetUserId then
                (Err 400 "Invalid action" "You cannot banish yourself", db)
              else if negb (Group.isMember group targetUserId) then
                (Err 400 "Not a member" "User is not a member of this group", db)
              else
                let group1 :=
                  Group.set_bannedUsers
                    (Group.set_members group (without targetUserId (Group.members group)))
                    (Group.bannedUsers group
                       ++ [Ban.mk (IdText.id targetUserId) (now env) userId]) in
                if negb (saved env 0) then (caught "Failed to banish user", db)
                else
                  let db1 := saveGroup env (IdText.id groupId) group1 db in
                  let user1 :=
                    User.set_bannedGroups
                      (User.set_groups targetUser (without groupId (User.groups targetUser)))
                      (User.bannedGroups targetUser
                         ++ [BannedGroup.mk (IdText.id groupId) (now env)]) in
                  if negb (saved env 1) then (caught "Failed to banish user", db1)
                  else (Done 200 "User banished successfully",
                        saveUser (IdText.id targetUserId) user1 db1)
          end
      end
  end.

(** [router.post("/:groupId/approve")]. *)
Definition approveRequest (env : Env) (groupId : IdText.t) (userId : ObjectId)
    (requestId : option ObjectId) (db : DB) : Response * DB :=
  match requestId with
  | None => (Err 400 "Missing request ID" "", db)
  | Some requestId =>
      match groups db !! IdText.id groupId with
      | None => (Err 404 "Group not found" "", db)
      | Some group =>
          if negb (N.eqb (Group.owner group) userId) then
            (Err 403 "Access denied" "Only the group owner can approve requests", db)
          else
            match Group.request (Group.joinRequests group) requestId with
            | None => (Err 404 "Request not found" "", db)
            | Some (i, request) =>
                if negb (RequestStatus_eqb (JoinRequest.status request) Pending) then
                  (Err 400 "Request already processed" "", db)
                else if Group.full group then
                  (Err 400 "Group full"
                     "Cannot approve: group has reached maximum members", db)
                else
                  let group1 :=
                    Group.set_members
                      (Group.set_joinRequests group
                         (<[i := JoinRequest.set_status request Approved]>
                            (Group.joinRequests group)))
                      (Group.members group ++ [JoinRequest.userId request]) in
                  if negb (saved env 0) then (caught "Failed to approve request", db)
                  else
                    let db1 := saveGroup env (IdText.id groupId) group1 db in
                    if negb (saved env 1) then (caught "Failed to approve request", db1)
                    else (Done 200 "Request approved successfully",
                          pushUserGroup (JoinRequest.userId request) (IdText.id groupId) db1)
            end
      end
  end.

(** [router.post("/:groupId/decline")]. *)
Definition declineRequest (env : Env) (groupId : IdText.t) (userId : ObjectId)
    (requestId : option ObjectId) (db : DB) : Response * DB :=
  match requestId with
  | None => (Err 400 "Missing request ID" "", db)
  | Some requestId =>
      match groups db !! IdText.id groupId with
      | None => (Err 404 "Group not found" "", db)
      | Some group =>
          if negb (N.eqb (Group.owner group) userId) then
            (Err 403 "Access denied" "Only the group owner can decline requests", db)
          else
            match Group.request (Group.joinRequests group) requestId with
            | None => (Err 404 "Request not found" "", db)
            | Some (i, request) =>
                if negb (RequestStatus_eqb (JoinRequest.status request) Pending) then
                  (Err 400 "Request already processed" "", db)
                else
                  let group1 :=
                    Group.set_joinRequests group
                      (<[i := JoinRequest.set_status request Declined]>
                         (Group.joinRequests group)) in
                  if negb (saved env 0) then (caught "Failed to decline request", db)
                  else (Done 200 "Request declined successfully",
                        saveGroup env (IdText.id groupId) group1 db)
            end
      end
  end.

(** A request to the membership engine, and a run of requests, each with
    its own environment. *)
Inductive Request :=
| CreateGroup (userId : ObjectId) (name type : string) (maxMembers : option Q)
| JoinGroup (groupId : IdText.t) (userId : ObjectId)
| LeaveGroup (groupId : IdText.t) (userId : ObjectId)
| DeleteGroup (groupId : IdText.t) (userId : ObjectId)
| TransferOwnership (groupId : IdText.t) (userId : ObjectId)
    (newOwnerId : option IdText.t)
| BanishUser (groupId : IdText.t) (userId : ObjectId) (targetUserId : option IdText.t)
| ApproveJoinRequest (groupId : IdText.t) (userId : ObjectId)
    (requestId : option ObjectId)
| DeclineJoinRequest (groupId : IdText.t) (userId : ObjectId)
    (requestId : option ObjectId).

Definition handle (env : Env) (r : Request) (db : DB) : Response * DB :=
  match r with
  | CreateGroup u n t m => createGroup env u n t m db
  | JoinGroup g u => joinGroup env g u db
  | LeaveGroup g u => leaveGroup env g u db
  | DeleteGroup g u => deleteGroup env g u db
  | TransferOwnership g u o => transferOwnership env g u o db
  | BanishUser g u t => banishUser env g u t db
  | ApproveJoinRequest g u r => approveRequest env g u r db
  | DeclineJoinRequest g u r => declineRequest env g u r db
  end.

Fixpoint run (rs : list (Env * Request)) (db : DB) : DB :=
  match rs with
  | [] => db
  | (env, r) :: rs' => run rs' (snd (handle env r db))
  end.

End Groups.

(* ================================================================== *)
(** * What Node provides *)
(* ================================================================== *)

(** [buf.toString("hex")] and [Buffer.from(s, "hex")]. *)
Module Hex.

Definition digit (n : N) : ascii :=
  ascii_of_N (if (n <? 10)%N then 48 + n else 87 + n).

Definition value (a : ascii) : option N :=
  let c := Js.code a in
  if ((48 <=? c) && (c <=? 57))%N then Some (c - 48)%N
  else if ((97 <=? c) && (c <=? 102))%N then Some (c - 87)%N
  else if ((65 <=? c) && (c <=? 70))%N then Some (c - 55)%N
  else None.

Fixpoint encode (s : string) : string :=
  match s with
  | EmptyString => EmptyString
  | String a r =>
      String (digit (Js.code a / 16)) (String (digit (Js.code a mod 16)) (encode r))
  end.

(** Decoding stops at the first pair that is not two hexadecimal digits. *)
Fixpoint decode (s : string) : string :=
  match s with
  | String h (String l r) =>
      match value h, value l with
      | Some x, Some y => String (ascii_of_N (16 * x + y)) (decode r)
      | _, _ => EmptyString
      end
  | _ => EmptyString
  end.

End Hex.

(** The two things the routes take from Node that this repository does not
    define: the cipher behind [crypto.createCipheriv("aes-128-cbc", key, iv)]
    and [crypto.createDecipheriv], each with its [update] and [final] run to
    the end, and [String.prototype.toLowerCase] with its Unicode case tables.
    [None] stands for an exception: a key or an iv that is not 16 bytes long,
    a padding that does not check on decryption.  The cipher's contract is
    the round trip under a well-formed key and iv, and that the padding
    makes the ciphertext longer than the text. *)
Class Node := mkNode
  { cipher : string -> string -> string -> option string;
    decipher : string -> string -> string -> option string;
    toLowerCase : string -> string;
    decipher_cipher :
      forall key iv text : string,
        String.length key = 16%nat -> String.length iv = 16%nat ->
        exists c,
          cipher key iv text = Some c
          /\ decipher key iv c = Some text
          /\ (String.length text < String.length c)%nat }.

(* ================================================================== *)
(** * models/Message.js and routes/messages.js: the message store *)
(* ================================================================== *)

Module Messages.
Section Routes.

Context `{Node}.

(** [process.env.ENCRYPTION_KEY]. *)
Variable ENCRYPTION_KEY : option string.

(** [Buffer.from(process.env.ENCRYPTION_KEY || "defaultkey123456", "utf8")]. *)
Definition key : string :=
  match ENCRYPTION_KEY with
  | Some k => if Js.falsy k then "defaultkey123456" else k
  | None => "defaultkey123456"
  end.

(** [messageSchema.statics.encryptContent]; [iv] is what
    [crypto.randomBytes(16)] returned. *)
Definition encryptContent (iv content : string) : option (string * string) :=
  match cipher key iv content with
  | Some encrypted => Some (Hex.encode encrypted, Hex.encode iv)
  | None => None
  end.

(** [messageSchema.statics.decryptContent]. *)
Definition decryptContent (encryptedContent iv : string) : option string :=
  decipher key (Hex.decode iv) (Hex.decode encryptedContent).

(** [messageSchema.pre("save")].  [isModifiedContent] is
    [this.isModified("content")]; [None] is [next(error)]. *)
Definition preSave (isModifiedContent : bool) (random : string) (m : Message.t)
  : option Message.t :=
  if negb isModifiedContent || negb (Message.encrypted m) then Some m
  else
    match encryptContent random (Message.content m) with
    | Some (encrypted, iv) => Some (Message.set_cipher m encrypted (Some iv))
    | None => None
    end.

(** [messageSchema.methods.getDecryptedContent].  A missing [iv] makes
    [Buffer.from] throw inside the [try]. *)
Definition getDecryptedContent (m : Message.t) : string :=
  if negb (Message.encrypted m) then Message.content m
  else
    match Message.iv m with
    | None => "[Decryption failed]"
    | Some iv =>
        match decryptContent (Message.content m) iv with
        | Some decrypted => decrypted
        | None => "[Decryption failed]"
        end
    end.

(** [Message.findById]. *)
Definition findById (id : ObjectId) (ms : list Message.t) : option Message.t :=
  find (fun m => N.eqb (Message._id m) id) ms.

(** The write of [message.save()] for a stored document. *)
Fixpoint replace (m1 : Message.t) (ms : list Message.t) : list Message.t :=
  match ms with
  | [] => []
  | m :: r =>
      if N.eqb (Message._id m) (Message._id m1) then m1 :: r
      else m :: replace m1 r
  end.

(** A path assigned a value equal to the stored one is not marked
    modified. *)
Definition isModified (stored current : string) : bool :=
  negb (String.eqb stored current).

(** [.sort("-timestamp")]. *)
Definition newerFirst (a b : Message.t) : Prop :=
  (Message.timestamp b <= Message.timestamp a)%Z.

Global Instance newerFirst_dec a b : Decision (newerFirst a b) :=
  Z_le_dec (Message.timestamp b) (Message.timestamp a).

Definition sortNewestFirst (ms : list Message.t) : list Message.t :=
  merge_sort newerFirst ms.

(** [.limit(n)] as MongoDB reads it: [0] sets no limit, a negative [n]
    counts as [-n]. *)
Definition limitTo {A} (n : Z) (l : list A) : list A :=
  if (n =? 0)%Z then l else take (Z.abs_nat n) l.

(** [router.post("/:groupId")]. *)
Definition sendMessage (env : Env) (groupId userId : ObjectId) (content : string)
    (db : DB) : Response * DB :=
  if Js.blank content then
    (Err 400 "Missing content" "Message content is required", db)
  else
    match groups db !! groupId with
    | None => (Err 404 "Group not found" "", db)
    | Some group =>
        if negb (Group.isMember group userId) then
          (Err 403 "Access denied" "You must be a member to send messages", db)
        else
          let message :=
            Message.mk (newId env) groupId userId (Js.trim content) true None
                       (now env) false None false None in
          match preSave true (randomBytes env 0) message with
          | None => (caught "Failed to send message", db)
          | Some message1 =>
              if bool_decide (is_Some (findById (Message._id message1) (messages db)))
                 || negb (saved env 0)
              then (caught "Failed to send message", db)
              else
                (Sent (Message._id message1) (Message.groupId message1)
                      (Message.senderId message1) (getDecryptedContent message1)
                      (Message.timestamp message1),
                 set_messages db (messages db ++ [message1]))
          end
    end.

(** The query of the listing route: the group's messages that are not
    deleted, older than [before] when it is given, else newer than [after]
    when that is given. *)
Definition listed (groupId : ObjectId) (before after : option Z) (m : Message.t)
  : bool :=
  N.eqb (Message.groupId m) groupId
  && negb (Message.deleted m)
  && match before, after with
     | Some b, _ => (Message.timestamp m <? b)%Z
     | None, Some a => (a <? Message.timestamp m)%Z
     | None, None => true
     end.

Definition view (msg : Message.t) : Listed :=
  mkListed (Message._id msg) (Message.groupId msg) (Message.senderId msg)
           (getDecryptedContent msg) (Message.timestamp msg) (Message.edited msg)
           (Message.editedAt msg).

(** [router.get("/:groupId")]; [limit] is [parseInt(limit)]. *)
Definition getMessages (groupId userId : ObjectId) (limit : Z)
    (before after : option Z) (db : DB) : Response :=
  match groups db !! groupId with
  | None => Err 404 "Group not found" ""
  | Some group =>
      if negb (Group.isMember group userId) then
        Err 403 "Access denied" "You must be a member to view messages"
      else
        let found :=
          limitTo limit
            (sortNewestFirst (List.filter (listed groupId before after) (messages db))) in
        Listing (rev (map view found)) (Z.of_nat (List.length found) =? limit)%Z
  end.

(** [(Date.now() - message.timestamp) / (1000 * 60)], as an exact
    rational; see [User.hoursSince]. *)
Definition minutesSince (now timestamp : Z) : Q :=
  (inject_Z (now - timestamp) / inject_Z (1000 * 60))%Q.

(** [router.put("/:messageId")]. *)
Definition editMessage (env : Env) (messageId userId : ObjectId) (content : string)
    (db : DB) : Response * DB :=
  if Js.blank content then
    (Err 400 "Missing content" "Message content is required", db)
  else
    match findById messageId (messages db) with
    | None => (Err 404 "Message not found" "", db)
    | Some message =>
        if Message.deleted message then
          (Err 400 "Message deleted" "Cannot edit a deleted message", db)
        else if negb (N.eqb (Message.senderId message) userId) then
          (Err 403 "Access denied" "You can only edit your own messages", db)
        else if negb (Qle_bool (minutesSince (now env) (Message.timestamp message)) 15) then
          (Err 400 "Time limit exceeded"
             "Messages can only be edited within 15 minutes of sending", db)
        else
          match encryptContent (randomBytes env 0) (Js.trim content) with
          | None => (caught "Failed to edit message", db)
          | Some (encrypted, iv) =>
              let message1 :=
                Message.set_edited (Message.set_cipher message encrypted (Some iv))
                                   true (Some (now env)) in
              match
                preSave (isModified (Message.content message) (Message.content message1))
                        (randomBytes env 1) message1
              with
              | None => (caught "Failed to edit message", db)
              | Some message2 =>
                  if negb (saved env 0) then (caught "Failed to edit message", db)
                  else
                    (Edited (Message._id message2) (getDecryptedContent message2)
                            true (now env),
                     set_messages db (replace message2 (messages db)))
              end
          end
    end.

(** [router.delete("/:messageId")]. *)
Definition deleteMessage (env : Env) (messageId userId : ObjectId) (db : DB)
  : Response * DB :=
  match findById messageId (messages db) with
  | None => (Err 404 "Message not found" "", db)
  | Some message =>
      if Message.deleted message then
        (Err 400 "Already deleted" "This message has already been deleted", db)
      else
        let isOwner :=
          match groups db !! Message.groupId message with
          | Some group => N.eqb (Group.owner group) userId
          | None => false
          end in
        let isSender := N.eqb (Message.senderId message) userId in
        if negb isSender && negb isOwner then
          (Err 403 "Access denied" "You can only delete your own messages", db)
        else
          let message1 := Message.set_deleted message true (Some (now env)) in
          match
            preSave (isModified (Message.content message) (Message.content message1))
                    (randomBytes env 0) message1
          with
          | None => (caught "Failed to delete message", db)
          | Some message2 =>
              if negb (saved env 0) then (caught "Failed to delete message", db)
              else (Done 200 "Message deleted successfully",
                    set_messages db (replace message2 (messages db)))
          end
  end.

Definition hit (msg : Message.t) (decryptedContent : string) : Hit :=
  mkHit (Message._id msg) (Message.groupId msg) (Message.senderId msg)
        decryptedContent (Message.timestamp msg) (Message.edited msg).

(** The loop of the search route: a match is pushed, then the loop breaks
    when [searchResults.length >= parseInt(limit)]. *)
Fixpoint scan (limit : Z) (searchTerm : string) (msgs : list Message.t)
    (searchResults : list Hit) : list Hit :=
  match msgs with
  | [] => searchResults
  | msg :: rest =>
      let decryptedContent := getDecryptedContent msg in
      let searchResults :=
        if Js.includes (toLowerCase decryptedContent) searchTerm
        then (searchResults ++ [hit msg decryptedContent])%list
        else searchResults in
      if (limit <=? Z.of_nat (List.length searchResults))%Z then searchResults
      else scan limit searchTerm rest searchResults
  end.

(** The query of the search route. *)
Definition searchable (groupId : ObjectId) (m : Message.t) : bool :=
  N.eqb (Message.groupId m) groupId && negb (Message.deleted m).

(** [router.get("/:groupId/search")]; [limit] is [parseInt(limit)]. *)
Definition searchMessages (groupId userId : ObjectId) (q : string) (limit : Z)
    (db : DB) : Response :=
  if Js.blank q then Err 400 "Missing search query" ""
  else
    match groups db !! groupId with
    | None => Err 404 "Group not found" ""
    | Some group =>
        if negb (Group.isMember group userId) then
          Err 403 "Access denied" "You must be a member to search messages"
        else
          let recent :=
            limitTo 500 (sortNewestFirst (List.filter (searchable groupId) (messages db))) in
          let searchResults := scan limit (toLowerCase q) recent [] in
          Found searchResults q (List.length searchResults)
    end.

End Routes.
End Messages.

(* ================================================================== *)
(** * An instance of [Node] to run the routes with *)
(* ================================================================== *)

(** CBC chaining and PKCS#7 padding over 16-byte blocks as in AES-128-CBC,
    with the block permutation replaced by an exclusive or with the key; and
    a [toLowerCase] for the letters A to Z.  It meets the contract of [Node],
    so the routes can be run on concrete stores. *)
Module Sample.

Definition xor (a b : ascii) : ascii :=
  match a, b with
  | Ascii a0 a1 a2 a3 a4 a5 a6 a7, Ascii b0 b1 b2 b3 b4 b5 b6 b7 =>
      Ascii (xorb a0 b0) (xorb a1 b1) (xorb a2 b2) (xorb a3 b3)
            (xorb a4 b4) (xorb a5 b5) (xorb a6 b6) (xorb a7 b7)
  end.

(** PKCS#7: between 1 and 16 bytes, each holding their number. *)
Definition pad (p : list ascii) : list ascii :=
  let n := (16 - List.length p mod 16)%nat in
  (p ++ replicate n (ascii_of_nat n))%list.

Definition unpad (c : list ascii) : option (list ascii) :=
  match last c with
  | None => None
  | Some x =>
      let n := nat_of_ascii x in
      if (1 <=? n)%nat && (n <=? 16)%nat && (n <=? List.length c)%nat
         && bool_decide (drop (List.length c - n) c = replicate n x)
      then Some (take (List.length c - n) c)
      else None
  end.

(** [k] is the key, rotated by one byte at each step; [win] the last 16
    bytes of ciphertext, at first the iv. *)
Fixpoint cbcEncrypt (k win p : list ascii) : list ascii :=
  match p with
  | [] => []
  | a :: r =>
      match k, win with
      | kb :: k', w :: win' =>
          let c := xor (xor a w) kb in
          c :: cbcEncrypt (k' ++ [kb])%list (win' ++ [c])%list r
      | _, _ => []
      end
  end.

Fixpoint cbcDecrypt (k win c : list ascii) : list ascii :=
  match c with
  | [] => []
  | x :: r =>
      match k, win with
      | kb :: k', w :: win' =>
          xor (xor x kb) w :: cbcDecrypt (k' ++ [kb])%list (win' ++ [x])%list r
      | _, _ => []
      end
  end.

Definition wellFormed (key iv : string) : bool :=
  (String.length key =? 16)%nat && (String.length iv =? 16)%nat.

Definition cipher (key iv text : string) : option string :=
  if wellFormed key iv then
    Some (string_of_list_ascii
            (cbcEncrypt (list_ascii_of_string key) (list_ascii_of_string iv)
                        (pad (list_ascii_of_string text))))
  else None.

Definition decipher (key iv c : string) : option string :=
  if wellFormed key iv then
    string_of_list_ascii
      <$> unpad (cbcDecrypt (list_ascii_of_string key) (list_ascii_of_string iv)
                            (list_ascii_of_string c))
  else None.

Definition lowerLetter (a : ascii) : ascii :=
  let c := Js.code a in
  if ((65 <=? c) && (c <=? 90))%N then ascii_of_N (c + 32) else a.

Fixpoint toLowerCase (s : string) : string :=
  match s with
  | EmptyString => EmptyString
  | String a r => String (lowerLetter a) (toLowerCase r)
  end.

Lemma xor_cancel a b : xor (xor a b) b = a.
Proof.
  destruct a, b; simpl.
  by rewrite !xorb_assoc, !xorb_nilpotent, !xorb_false_r.
Qed.

Lemma cbc_round_trip k win p :
  k ≠ [] -> win ≠ [] -> cbcDecrypt k win (cbcEncrypt k win p) = p.
Proof.
  revert k win. induction p as [|a p IH]; intros k win Hk Hw; simpl; [done|].
  destruct k as [|kb k']; [done|]. destruct win as [|w win']; [done|].
  simpl. rewrite !xor_cancel. f_equal.
  apply IH; by destruct k', win'.
Qed.

Lemma length_cbcEncrypt k win p :
  k ≠ [] -> win ≠ [] -> List.length (cbcEncrypt k win p) = List.length p.
Proof.
  revert k win. induction p as [|a p IH]; intros k win Hk Hw; simpl; [done|].
  destruct k as [|kb k']; [done|]. destruct win as [|w win']; [done|].
  simpl. f_equal. apply IH; by destruct k', win'.
Qed.

Lemma unpad_pad p : unpad (pad p) = Some p.
Proof.
  unfold pad, unpad.
  set (n := (16 - List.length p mod 16)%nat).
  assert (Hn : (1 <= n <= 16)%nat).
  { pose proof (Nat.mod_upper_bound (List.length p) 16). lia. }
  assert (Hlast : last (p ++ replicate n (ascii_of_nat n)) = Some (ascii_of_nat n)).
  { destruct n as [|n]; [lia|].
    rewrite replicate_S_end, app_assoc. apply last_snoc. }
  rewrite Hlast. rewrite nat_ascii_embedding by lia.
  rewrite length_app, length_replicate.
  replace (List.length p + n - n)%nat with (List.length p) by lia.
  rewrite drop_app_length, take_app_length.
  rewrite bool_decide_true by done.
  destruct Hn as [H1 H16].
  apply Nat.leb_le in H1, H16. rewrite H1, H16. simpl.
  rewrite (proj2 (Nat.leb_le _ _)) by lia. done.
Qed.

Lemma length_string_of_list l : String.length (string_of_list_ascii l) = List.length l.
Proof. induction l; simpl; congruence. Qed.

Lemma length_list_of_string s : List.length (list_ascii_of_string s) = String.length s.
Proof. induction s; simpl; congruence. Qed.

Lemma decipher_cipher (key iv text : string) :
  String.length key = 16%nat -> String.length iv = 16%nat ->
  exists c,
    cipher key iv text = Some c
    /\ decipher key iv c = Some text
    /\ (String.length text < String.length c)%nat.
Proof.
  intros Hk Hiv. unfold cipher, decipher, wellFormed.
  rewrite Hk, Hiv. simpl. eexists. split; [reflexivity|].
  assert (Hk' : list_ascii_of_string key ≠ []).
  { intros E. apply (f_equal List.length) in E.
    rewrite length_list_of_string, Hk in E. done. }
  assert (Hiv' : list_ascii_of_string iv ≠ []).
  { intros E. apply (f_equal List.length) in E.
    rewrite length_list_of_string, Hiv in E. done. }
  split.
  - rewrite list_ascii_of_string_of_list_ascii, cbc_round_trip by done.
    rewrite unpad_pad. simpl. by rewrite string_of_list_ascii_of_string.
  - rewrite length_string_of_list, length_cbcEncrypt by done.
    unfold pad. rewrite length_app, length_replicate, length_list_of_string.
    pose proof (Nat.mod_upper_bound (String.length text) 16). lia.
Qed.

Definition node : Node := mkNode cipher decipher toLowerCase decipher_cipher.

End Sample.

(* ================================================================== *)
(** * Stores and requests to run the routes on *)
(* ================================================================== *)

Module Examples.

(** An environment in which every write succeeds. *)
Definition random (k : nat) : string :=
  match k with
  | O => "0123456789abcdef"
  | S _ => "fedcba9876543210"
  end.

Definition env (now : Z) (newId : ObjectId) : Env :=
  mkEnv now newId (fun _ => true) random.

(** The first write succeeds, the later ones throw. *)
Definition envSecondWriteFails (now : Z) (newId : ObjectId) : Env :=
  mkEnv now newId (fun k => Nat.eqb k 0) random.

Definition newUser : User.t := User.mk [] [] [].

(** Three registered users, no group, no message. *)
Definition threeUsers : DB :=
  mkDB ∅ (<[1%N := newUser]> (<[2%N := newUser]> (<[3%N := newUser]> ∅))) [].

(** User 1 creates the private group Alpha for two members, user 2 asks to
    join, user 1 approves, user 3 asks to join. *)
Definition alphaRun : list (Env * Groups.Request) :=
  [ (env 1000 100, Groups.CreateGroup 1 "Alpha" "private" (Some 2%Q));
    (env 2000 101, Groups.JoinGroup (IdText.canonical 100) 2);
    (env 3000 102, Groups.ApproveJoinRequest (IdText.canonical 100) 1 (Some 101%N));
    (env 4000 103, Groups.JoinGroup (IdText.canonical 100) 3) ].

Definition alpha : Group.t :=
  Group.mk "Alpha" Private 1 [1%N; 2%N] (Some 2%Q)
           [JoinRequest.mk 101 2 2000 Approved] [] 1000 3000.

(** A public group owned by user 1, and user 2 not yet in it. *)
Definition lobby : Group.t :=
  Group.mk "Lobby" Public 1 [1%N] None [] [] 0 0.

Definition lobbyStore : DB :=
  mkDB (<[200%N := lobby]> ∅)
       (<[1%N := User.mk [200%N] [] []]> (<[2%N := newUser]> ∅)) [].

(** Alpha is full; user 3 left it a second ago and also has a request
    pending. *)
Definition alphaFull : Group.t :=
  Group.mk "Alpha" Private 1 [1%N; 2%N] (Some 2%Q)
           [JoinRequest.mk 101 2 2000 Approved; JoinRequest.mk 104 3 2500 Pending]
           [] 1000 3000.

Definition alphaFullStore : DB :=
  mkDB (<[100%N := alphaFull]> ∅)
       (<[3%N := User.mk [] [] [LeftGroup.mk 100 3000]]> ∅) [].

(** The store after the first two requests of [alphaRun]: the request of
    user 2 is pending. *)
Definition alphaPending : Group.t :=
  Group.mk "Alpha" Private 1 [1%N] (Some 2%Q)
           [JoinRequest.mk 101 2 2000 Pending] [] 1000 2000.

Definition alphaPendingStore : DB :=
  mkDB (<[100%N := alphaPending]> ∅)
       (<[1%N := User.mk [100%N] [] []]> (<[2%N := newUser]> (<[3%N := newUser]> ∅))) [].

(** User 2 joins the private group Alpha, leaves it, joins it again once
    48 hours have passed, and leaves it a second time. *)
Definition leaveTwiceRun : list (Env * Groups.Request) :=
  [ (env 1000 100, Groups.CreateGroup 1 "Alpha" "private" (Some 3%Q));
    (env 2000 101, Groups.JoinGroup (IdText.canonical 100) 2);
    (env 3000 102, Groups.ApproveJoinRequest (IdText.canonical 100) 1 (Some 101%N));
    (env 4000 103, Groups.LeaveGroup (IdText.canonical 100) 2);
    (env 172804000 104, Groups.JoinGroup (IdText.canonical 100) 2);
    (env 172805000 105, Groups.ApproveJoinRequest (IdText.canonical 100) 1 (Some 104%N));
    (env 172806000 106, Groups.LeaveGroup (IdText.canonical 100) 2) ].

Definition leftTwice : User.t := User.mk [] [] [LeftGroup.mk 100 172806000].

(** User 1 creates the public group Beta with [maxMembers: 2.5], and users
    2 and 3 join it. *)
Definition betaRun : list (Env * Groups.Request) :=
  [ (env 1000 100, Groups.CreateGroup 1 "Beta" "public" (Some 2.5%Q));
    (env 2000 101, Groups.JoinGroup (IdText.canonical 100) 2);
    (env 3000 102, Groups.JoinGroup (IdText.canonical 100) 3) ].

Definition beta : Group.t :=
  Group.mk "Beta" Public 1 [1%N; 2%N; 3%N] (Some 2.5%Q) [] [] 1000 3000.

(** The id of the group 100 in another spelling, its hexadecimal digits in
    upper case. *)
Definition upper100 : IdText.t := IdText.mk 100 false.

(** The store once user 2 has joined the private group Alpha and left it
    at time 4000. *)
Definition leftOnceStore : DB := Groups.run (take 4 leaveTwiceRun) threeUsers.

(** User 2 joins the private group Alpha, leaves it, asks to join again a
    second later, is approved and leaves again; the two leaves and the
    second join spell the id of the group in upper case. *)
Definition respelledRun : list (Env * Groups.Request) :=
  [ (env 1000 100, Groups.CreateGroup 1 "Alpha" "private" (Some 3%Q));
    (env 2000 101, Groups.JoinGroup (IdText.canonical 100) 2);
    (env 3000 102, Groups.ApproveJoinRequest (IdText.canonical 100) 1 (Some 101%N));
    (env 4000 103, Groups.LeaveGroup upper100 2);
    (env 5000 104, Groups.JoinGroup upper100 2);
    (env 6000 105, Groups.ApproveJoinRequest (IdText.canonical 100) 1 (Some 104%N));
    (env 7000 106, Groups.LeaveGroup upper100 2) ].

(** User 1 sends "hello" to the group 200 at time 1000. *)
Definition helloStore : DB :=
  snd (@Messages.sendMessage Sample.node None (env 1000 300) 200 1 "  hello " lobbyStore).

Definition hello : Message.t :=
  Message.mk 300 200 1 "3c31383e2e524957564b5b5b5b5b5b5b" true
             (Some "30313233343536373839616263646566") 1000 false None false None.

(** Two more messages follow, "Hello World" at 2000 and "bye" at 3000, and
    user 1 deletes the last one. *)
Definition chatStore : DB :=
  let db1 :=
    snd (@Messages.sendMessage Sample.node None (env 2000 301) 200 1 "Hello World"
                               helloStore) in
  let db2 := snd (@Messages.sendMessage Sample.node None (env 3000 302) 200 1 "bye" db1) in
  snd (@Messages.deleteMessage Sample.node None (env 4000 0) 302 1 db2).

End Examples.

(* ================================================================== *)
(** * Properties of the membership engine *)
(* ================================================================== *)

Section ModelLemmas.

(** A stored id equals a text when the text is the written form of that
    very id. *)
Lemma equals_spec (x : ObjectId) (t : IdText.t) :
  IdText.equals x t = true <-> IdText.written t = true ∧ x = IdText.id t.
Proof.
  unfold IdText.equals. rewrite andb_true_iff, N.eqb_eq. reflexivity.
Qed.

Lemma equals_canonical (x y : ObjectId) :
  IdText.equals x (IdText.canonical y) = N.eqb x y.
Proof. reflexivity. Qed.

(** No stored id equals a text in another spelling. *)
Lemma equals_respelled (x : ObjectId) (t : IdText.t) :
  IdText.written t = false -> IdText.equals x t = false.
Proof. unfold IdText.equals. by intros ->. Qed.

Lemma equals_false (x : ObjectId) (t : IdText.t) :
  IdText.equals x t = false <-> ¬ (IdText.written t = true ∧ x = IdText.id t).
Proof.
  rewrite <- equals_spec. by destruct (IdText.equals x t).
Qed.

Lemma isMember_text (g : Group.t) (t : IdText.t) :
  Group.isMember g t = true
  <-> IdText.written t = true ∧ IdText.id t ∈ Group.members g.
Proof.
  unfold Group.isMember. rewrite existsb_exists. split.
  - intros (x & Hin & Heq). apply equals_spec in Heq as [Hw ->].
    split; [done | by apply list_elem_of_In].
  - intros [Hw Hin]. exists (IdText.id t).
    split; [by apply list_elem_of_In | by apply equals_spec].
Qed.

Lemma isMember_spec (g : Group.t) (u : ObjectId) :
  Group.isMember g u = true <-> u ∈ Group.members g.
Proof. rewrite isMember_text. simpl. tauto. Qed.

Lemma elem_of_without_text (t : IdText.t) (x : ObjectId) (l : list ObjectId) :
  x ∈ without t l <-> x ∈ l ∧ ¬ (IdText.written t = true ∧ x = IdText.id t).
Proof.
  unfold without. rewrite !list_elem_of_In, filter_In, negb_true_iff, equals_false.
  reflexivity.
Qed.

Lemma elem_of_without (id x : ObjectId) (l : list ObjectId) :
  x ∈ without id l <-> x ∈ l ∧ x ≠ id.
Proof. rewrite elem_of_without_text. simpl. tauto. Qed.

(** Filtering by a text in another spelling removes nothing. *)
Lemma without_respelled (t : IdText.t) (l : list ObjectId) :
  IdText.written t = false -> without t l = l.
Proof.
  intros Hw. unfold without. induction l as [|x l IH]; simpl; [done|].
  by rewrite (equals_respelled x t Hw), IH.
Qed.


Lemma length_without (id : IdText.t) (l : list ObjectId) :
  (List.length (without id l) <= List.length l)%nat.
Proof.
  unfold without. induction l as [|x l IH]; simpl; [lia|].
  destruct (negb (IdText.equals x id)); simpl; lia.
Qed.

Lemma groups_saveGroup env id g db :
  groups (saveGroup env id g db)
  = <[id := Group.set_updatedAt g (now env)]> (groups db).
Proof. reflexivity. Qed.

Lemma groups_saveUser id u db : groups (saveUser id u db) = groups db.
Proof. reflexivity. Qed.

Lemma groups_pushUserGroup id gid db : groups (pushUserGroup id gid db) = groups db.
Proof. unfold pushUserGroup. by destruct (users db !! id). Qed.


Lemma messages_pushUserGroup id gid db :
  messages (pushUserGroup id gid db) = messages db.
Proof. unfold pushUserGroup. by destruct (users db !! id). Qed.

Lemma request_spec rs rid i r :
  Group.request rs rid = Some (i, r) ->
  rs !! i = Some r ∧ JoinRequest._id r = rid.
Proof.
  revert i. induction rs as [|x rs IH]; intros i; simpl; [done|].
  destruct (JoinRequest._id x =? rid)%N eqn:E.
  - intros [= <- <-]. split; [done | by apply N.eqb_eq].
  - destruct (Group.request rs rid) as [[j r']|]; simpl; [|done].
    intros [= <- <-]. by apply IH.
Qed.

Lemma status_eqb_spec a b : RequestStatus_eqb a b = true <-> a = b.
Proof. destruct a, b; simpl; split; congruence. Qed.

(** A number of members as a number of the code. *)
Definition count (l : list ObjectId) : Q := inject_Z (Z.of_nat (List.length l)).

Lemma count_push (l : list ObjectId) (u : ObjectId) :
  (count (l ++ [u]) == count l + 1)%Q.
Proof.
  unfold count. rewrite length_app, Nat2Z.inj_add, inject_Z_plus. reflexivity.
Qed.

Lemma count_le (l l' : list ObjectId) :
  (List.length l <= List.length l')%nat -> (count l <= count l')%Q.
Proof. intros Hle. unfold count. rewrite <- Zle_Qle. lia. Qed.

(** A count below [k + 1], [k] a whole number, is at most [k]. *)
Lemma count_whole (l : list ObjectId) (m : Q) (k : Z) :
  (m == inject_Z k)%Q -> (count l < m + 1)%Q -> (Z.of_nat (List.length l) <= k)%Z.
Proof.
  intros E H. rewrite E in H. unfold count in H.
  change 1%Q with (inject_Z 1) in H.
  rewrite <- inject_Z_plus, <- Zlt_Qlt in H. lia.
Qed.

(** The capacity test of the join and approve routes, when it lets
    through. *)
Lemma full_false (g : Group.t) (m : Q) :
  Group.maxMembers g = Some m -> (2 <= m)%Q -> Group.full g = false ->
  (count (Group.members g) < m)%Q.
Proof.
  intros Hm H2. unfold Group.full. rewrite Hm. intros H.
  apply andb_false_iff in H as [H|H].
  - apply negb_false_iff, Qeq_bool_iff in H. lra.
  - apply Qnot_le_lt. intros Hle. apply Qle_bool_iff in Hle.
    unfold count in Hle. congruence.
Qed.

Lemma full_true (g : Group.t) :
  Group.full g = true ->
  ∃ m, Group.maxMembers g = Some m ∧ (m <= count (Group.members g))%Q.
Proof.
  unfold Group.full. destruct (Group.maxMembers g) as [m|]; [|done].
  intros H. apply andb_true_iff in H as [_ H]. exists m. split; [done|].
  by apply Qle_bool_iff.
Qed.

End ModelLemmas.

Module Membership.
Import Groups.

(** What every stored group satisfies: the owner is a member, and a
    [maxMembers] that is set is at least 2 (the route's check and the
    schema's [min: 2]) and the members are fewer than [maxMembers + 1]: a
    member is let in while the count is below [maxMembers], which need not
    be a whole number. *)
Definition groupOk (g : Group.t) : Prop :=
  Group.owner g ∈ Group.members g
  ∧ ∀ m, Group.maxMembers g = Some m ->
         (2 <= m)%Q ∧ (count (Group.members g) < m + 1)%Q.

Definition storeOk (db : DB) : Prop :=
  ∀ gid g, groups db !! gid = Some g -> groupOk g.

Lemma storeOk_saveGroup env id g db :
  storeOk db -> groupOk g -> storeOk (saveGroup env id g db).
Proof.
  intros Hdb Hg gid g'. rewrite groups_saveGroup, lookup_insert.
  case_decide; [|by apply Hdb].
  intros [= <-]. exact Hg.
Qed.

Lemma storeOk_saveUser id u db : storeOk db -> storeOk (saveUser id u db).
Proof. intros Hdb gid g. rewrite groups_saveUser. apply Hdb. Qed.

Lemma storeOk_pushUserGroup id gid db :
  storeOk db -> storeOk (pushUserGroup id gid db).
Proof. intros Hdb k g. rewrite groups_pushUserGroup. apply Hdb. Qed.

(** A group with room for one more member. *)
Lemma groupOk_push g u :
  groupOk g -> Group.full g = false ->
  groupOk (Group.set_members g (Group.members g ++ [u])).
Proof.
  intros [Hown Hmax] Hfull. split; simpl.
  - apply elem_of_app. by left.
  - intros m Hm. destruct (Hmax m Hm) as [H2 Hlen]. split; [done|].
    pose proof (full_false g m Hm H2 Hfull) as Hroom.
    rewrite count_push. lra.
Qed.

(** Removing somebody who is not the owner. *)
Lemma groupOk_remove g (t : IdText.t) :
  groupOk g -> Group.owner g ≠ IdText.id t ->
  groupOk (Group.set_members g (without t (Group.members g))).
Proof.
  intros [Hown Hmax] Hne. split; simpl.
  - apply elem_of_without_text. split; [done | tauto].
  - intros m Hm. destruct (Hmax m Hm) as [H2 Hlen]. split; [done|].
    pose proof (count_le _ _ (length_without t (Group.members g))). lra.
Qed.

Lemma createGroup_ok env u n t m db :
  storeOk db -> storeOk (snd (createGroup env u n t m db)).
Proof.
  intros Hdb. unfold createGroup.
  destruct (Js.falsy n || Js.falsy t); [done|].
  destruct (groupType t) as [ty|]; [|done].
  destruct (belowTwo m) eqn:Hm; [done|].
  destruct (_ || _ || _); [done|].
  assert (Hg : groupOk (Group.mk (Js.trim n) ty u [u] (orNull m) [] []
                                 (now env) (now env))).
  { split; simpl; [by apply list_elem_of_singleton|].
    intros k Hk. destruct m as [m|]; simpl in *; [|done].
    destruct (Qeq_bool m 0) eqn:E0; [done|]. injection Hk as <-.
    simpl in Hm. apply negb_false_iff, Qle_bool_iff in Hm.
    split; [done|]. change (1 < m + 1)%Q. lra. }
  destruct (negb (saved env 1)); simpl;
    [| apply storeOk_pushUserGroup]; by apply storeOk_saveGroup.
Qed.

Lemma joinGroup_ok env gid u db :
  storeOk db -> storeOk (snd (joinGroup env gid u db)).
Proof.
  intros Hdb. unfold joinGroup.
  destruct (groups db !! IdText.id gid) as [g|] eqn:Hg; [|done].
  destruct (Group.isMember g u); [done|].
  destruct (Group.isBanned g u); [done|].
  destruct (Group.full g) eqn:Hfull; [done|].
  pose proof (Hdb _ _ Hg) as Hok.
  destruct (Group.type g).
  - destruct (negb (saved env 0)); [done|].
    assert (storeOk (saveGroup env (IdText.id gid)
              (Group.set_members g (Group.members g ++ [u])) db)).
    { apply storeOk_saveGroup; [done | by apply groupOk_push]. }
    destruct (users db !! u); [|done].
    destruct (negb (saved env 1)); simpl; [done | by apply storeOk_saveUser].
  - destruct (users db !! u) as [usr|]; [|done].
    destruct (negb (User.canRejoinPrivateGroup (now env) usr gid)); [done|].
    destruct (Group.hasPendingRequest g u); [done|].
    destruct (negb (saved env 0)); simpl; [done|].
    apply storeOk_saveGroup; [done|]. exact Hok.
Qed.

Lemma leaveGroup_ok env gid u db :
  storeOk db -> storeOk (snd (leaveGroup env gid u db)).
Proof.
  intros Hdb. unfold leaveGroup.
  destruct (groups db !! IdText.id gid) as [g|] eqn:Hg; [|done].
  destruct (negb (Group.isMember g u)); [done|].
  destruct (Group.owner g =? u)%N eqn:Hown; [done|].
  apply N.eqb_neq in Hown.
  destruct (negb (saved env 0)); [done|].
  assert (storeOk (saveGroup env (IdText.id gid)
            (Group.set_members g (without u (Group.members g))) db)).
  { apply storeOk_saveGroup; [done|]. apply groupOk_remove; eauto. }
  destruct (users db !! u); [|done].
  destruct (negb (saved env 1)); simpl; [done | by apply storeOk_saveUser].
Qed.

Lemma deleteGroup_ok env gid u db :
  storeOk db -> storeOk (snd (deleteGroup env gid u db)).
Proof.
  intros Hdb. unfold deleteGroup.
  destruct (groups db !! IdText.id gid) as [g|] eqn:Hg; [|done].
  destruct (negb (Group.owner g =? u)%N); [done|].
  destruct (1 <? List.length (Group.members g))%nat; [done|].
  destruct (negb (saved env 0)); [done|].
  destruct (negb (saved env 1)); [done|].
  destruct (negb (saved env 2)); [done|].
  intros k g'. simpl. rewrite lookup_delete. case_decide; [done|]. apply Hdb.
Qed.

Lemma transferOwnership_ok env gid u o db :
  storeOk db -> storeOk (snd (transferOwnership env gid u o db)).
Proof.
  intros Hdb. unfold transferOwnership.
  destruct o as [o|]; [|done].
  destruct (groups db !! IdText.id gid) as [g|] eqn:Hg; [|done].
  destruct (negb (Group.owner g =? u)%N); [done|].
  destruct (negb (Group.isMember g o)) eqn:Hmem; [done|].
  destruct (negb (saved env 0)); simpl; [done|].
  apply storeOk_saveGroup; [done|].
  apply negb_false_iff, isMember_text in Hmem as [_ Hmem].
  destruct (Hdb _ _ Hg) as [_ Hmax]. split; simpl; done.
Qed.

Lemma banishUser_ok env gid u t db :
  storeOk db -> storeOk (snd (banishUser env gid u t db)).
Proof.
  intros Hdb. unfold banishUser.
  destruct t as [t|]; [|done].
  destruct (groups db !! IdText.id gid) as [g|] eqn:Hg; [|done].
  destruct (users db !! IdText.id t) as [tu|]; [|done].
  destruct (negb (Group.owner g =? u)%N) eqn:Hown; [done|].
  destruct (IdText.equals u t) eqn:Hself; [done|].
  destruct (negb (Group.isMember g t)) eqn:Hmem; [done|].
  apply negb_false_iff, N.eqb_eq in Hown.
  apply negb_false_iff, isMember_text in Hmem as [Hw _].
  apply equals_false in Hself.
  destruct (negb (saved env 0)); [done|].
  assert (storeOk (saveGroup env (IdText.id gid)
            (Group.set_bannedUsers
               (Group.set_members g (without t (Group.members g)))
               (Group.bannedUsers g ++ [Ban.mk (IdText.id t) (now env) u])) db)).
  { apply storeOk_saveGroup; [done|].
    apply (groupOk_remove g t); [by apply (Hdb _ _ Hg) |].
    intros E. apply Hself. split; [done | congruence]. }
  destruct (negb (saved env 1)); simpl; [done | by apply storeOk_saveUser].
Qed.

Lemma approveRequest_ok env gid u r db :
  storeOk db -> storeOk (snd (approveRequest env gid u r db)).
Proof.
  intros Hdb. unfold approveRequest.
  destruct r as [r|]; [|done].
  destruct (groups db !! IdText.id gid) as [g|] eqn:Hg; [|done].
  destruct (negb (Group.owner g =? u)%N); [done|].
  destruct (Group.request (Group.joinRequests g) r) as [[i jr]|]; [|done].
  destruct (negb (RequestStatus_eqb (JoinRequest.status jr) Pending)); [done|].
  destruct (Group.full g) eqn:Hfull; [done|].
  destruct (negb (saved env 0)); [done|].
  pose proof (groupOk_push g (JoinRequest.userId jr) (Hdb _ _ Hg) Hfull) as Hok.
  destruct (negb (saved env 1)); simpl;
    [| apply storeOk_pushUserGroup]; by apply storeOk_saveGroup.
Qed.

Lemma declineRequest_ok env gid u r db :
  storeOk db -> storeOk (snd (declineRequest env gid u r db)).
Proof.
  intros Hdb. unfold declineRequest.
  destruct r as [r|]; [|done].
  destruct (groups db !! IdText.id gid) as [g|] eqn:Hg; [|done].
  destruct (negb (Group.owner g =? u)%N); [done|].
  destruct (Group.request (Group.joinRequests g) r) as [[i jr]|]; [|done].
  destruct (negb (RequestStatus_eqb (JoinRequest.status jr) Pending)); [done|].
  destruct (negb (saved env 0)); simpl; [done|].
  apply storeOk_saveGroup; [done|]. exact (Hdb _ _ Hg).
Qed.

Lemma handle_ok env r db : storeOk db -> storeOk (snd (handle env r db)).
Proof.
  destruct r; simpl;
    eauto using createGroup_ok, joinGroup_ok, leaveGroup_ok, deleteGroup_ok,
      transferOwnership_ok, banishUser_ok, approveRequest_ok, declineRequest_ok.
Qed.

Lemma run_ok rs db : storeOk db -> storeOk (run rs db).
Proof.
  revert db. induction rs as [|[env r] rs IH]; intros db Hdb; simpl; [done|].
  apply IH. by apply handle_ok.
Qed.

(** ** A processed join request stays as it is *)

(** The group [gid] is in the store and its [i]-th join request is [jr]. *)
Definition Kept (gid : ObjectId) (i : nat) (jr : JoinRequest.t) (db : DB) : Prop :=
  ∃ g, groups db !! gid = Some g ∧ Group.joinRequests g !! i = Some jr.

Lemma Kept_saveGroup env k g1 gid i jr db :
  Kept gid i jr db ->
  (k = gid -> Group.joinRequests g1 !! i = Some jr) ->
  Kept gid i jr (saveGroup env k g1 db).
Proof.
  intros (g & Hg & Hi) H1. unfold Kept. rewrite groups_saveGroup, lookup_insert.
  case_decide; [|eauto]. eexists. split; [done|]. simpl. auto.
Qed.

Lemma Kept_saveUser k u gid i jr db :
  Kept gid i jr db -> Kept gid i jr (saveUser k u db).
Proof. done. Qed.

Lemma Kept_pushUserGroup k x gid i jr db :
  Kept gid i jr db -> Kept gid i jr (pushUserGroup k x db).
Proof. unfold Kept. by rewrite groups_pushUserGroup. Qed.

(** Changing the status of a pending request leaves the processed ones. *)
Lemma processed_not_touched (rs : list JoinRequest.t) rid i' jr' i jr s :
  Group.request rs rid = Some (i', jr') ->
  JoinRequest.status jr' = Pending ->
  rs !! i = Some jr ->
  JoinRequest.status jr ≠ Pending ->
  <[i' := JoinRequest.set_status jr' s]> rs !! i = Some jr.
Proof.
  intros Hreq Hpend Hi Hjr. apply request_spec in Hreq as [Hi' _].
  rewrite list_lookup_insert_ne; [done|]. intros ->. congruence.
Qed.

Lemma handle_keeps_processed env r db gid i jr :
  Kept gid i jr db ->
  JoinRequest.status jr ≠ Pending ->
  (∀ t u, r = DeleteGroup t u -> IdText.id t ≠ gid) ->
  Kept gid i jr (snd (handle env r db)).
Proof.
  intros HK Hjr Hdel. pose proof HK as (g & Hg & Hi).
  destruct r as [u n t m | k u | k u | k u | k u o | k u t | k u rid | k u rid]; simpl.
  - unfold createGroup.
    destruct (Js.falsy n || Js.falsy t); [done|].
    destruct (groupType t); [|done].
    destruct (belowTwo m); [done|].
    destruct (bool_decide (is_Some (groups db !! newId env))) eqn:Hnew;
      [by rewrite orb_true_r|].
    apply bool_decide_eq_false in Hnew.
    destruct (_ || _ || _); [done|].
    assert (Kept gid i jr (saveGroup env (newId env)
              (Group.mk (Js.trim n) g0 u [u] (orNull m) [] [] (now env) (now env)) db)).
    { apply Kept_saveGroup; [done|]. intros E. destruct Hnew. by rewrite E, Hg. }
    destruct (negb (saved env 1)); simpl; [done | by apply Kept_pushUserGroup].
  - unfold joinGroup.
    destruct (groups db !! IdText.id k) as [g0|] eqn:Hg0; [|done].
    destruct (Group.isMember g0 u); [done|].
    destruct (Group.isBanned g0 u); [done|].
    destruct (Group.full g0); [done|].
    destruct (Group.type g0).
    + destruct (negb (saved env 0)); [done|].
      assert (Kept gid i jr (saveGroup env (IdText.id k)
                (Group.set_members g0 (Group.members g0 ++ [u])) db)).
      { apply Kept_saveGroup; [done|]. intros <-. simpl. congruence. }
      destruct (users db !! u); [|done].
      destruct (negb (saved env 1)); simpl; done.
    + destruct (users db !! u) as [usr|]; [|done].
      destruct (negb (User.canRejoinPrivateGroup (now env) usr k)); [done|].
      destruct (Group.hasPendingRequest g0 u); [done|].
      destruct (negb (saved env 0)); simpl; [done|].
      apply Kept_saveGroup; [done|]. intros <-. simpl.
      assert (g0 = g) as -> by congruence.
      by apply lookup_app_l_Some.
  - unfold leaveGroup.
    destruct (groups db !! IdText.id k) as [g0|] eqn:Hg0; [|done].
    destruct (negb (Group.isMember g0 u)); [done|].
    destruct (Group.owner g0 =? u)%N; [done|].
    destruct (negb (saved env 0)); [done|].
    assert (Kept gid i jr (saveGroup env (IdText.id k)
              (Group.set_members g0 (without u (Group.members g0))) db)).
    { apply Kept_saveGroup; [done|]. intros <-. simpl. congruence. }
    destruct (users db !! u); [|done].
    destruct (negb (saved env 1)); simpl; done.
  - unfold deleteGroup.
    destruct (groups db !! IdText.id k) as [g0|] eqn:Hg0; [|done].
    destruct (negb (Group.owner g0 =? u)%N); [done|].
    destruct (1 <? List.length (Group.members g0))%nat; [done|].
    destruct (negb (saved env 0)); [done|].
    destruct (negb (saved env 1)); [done|].
    destruct (negb (saved env 2)); [done|].
    exists g. simpl. split; [|done].
    rewrite lookup_delete_ne; [done|]. exact (Hdel k u eq_refl).
  - unfold transferOwnership.
    destruct o as [o|]; [|done].
    destruct (groups db !! IdText.id k) as [g0|] eqn:Hg0; [|done].
    destruct (negb (Group.owner g0 =? u)%N); [done|].
    destruct (negb (Group.isMember g0 o)); [done|].
    destruct (negb (saved env 0)); simpl; [done|].
    apply Kept_saveGroup; [done|]. intros <-. simpl. congruence.
  - unfold banishUser.
    destruct t as [t|]; [|done].
    destruct (groups db !! IdText.id k) as [g0|] eqn:Hg0; [|done].
    destruct (users db !! IdText.id t); [|done].
    destruct (negb (Group.owner g0 =? u)%N); [done|].
    destruct (IdText.equals u t); [done|].
    destruct (negb (Group.isMember g0 t)); [done|].
    destruct (negb (saved env 0)); [done|].
    assert (Kept gid i jr (saveGroup env (IdText.id k)
              (Group.set_bannedUsers
                 (Group.set_members g0 (without t (Group.members g0)))
                 (Group.bannedUsers g0 ++ [Ban.mk (IdText.id t) (now env) u])) db)).
    { apply Kept_saveGroup; [done|]. intros <-. simpl. congruence. }
    destruct (negb (saved env 1)); simpl; done.
  - unfold approveRequest.
    destruct rid as [rid|]; [|done].
    destruct (groups db !! IdText.id k) as [g0|] eqn:Hg0; [|done].
    destruct (negb (Group.owner g0 =? u)%N); [done|].
    destruct (Group.request (Group.joinRequests g0) rid) as [[i' jr']|] eqn:Hreq; [|done].
    destruct (negb (RequestStatus_eqb (JoinRequest.status jr') Pending)) eqn:Hst; [done|].
    apply negb_false_iff, status_eqb_spec in Hst.
    destruct (Group.full g0); [done|].
    destruct (negb (saved env 0)); [done|].
    assert (Kept gid i jr (saveGroup env (IdText.id k)
              (Group.set_members
                 (Group.set_joinRequests g0
                    (<[i' := JoinRequest.set_status jr' Approved]> (Group.joinRequests g0)))
                 (Group.members g0 ++ [JoinRequest.userId jr'])) db)).
    { apply Kept_saveGroup; [done|]. intros <-. simpl.
      assert (g0 = g) as -> by congruence.
      eapply processed_not_touched; eauto. }
    destruct (negb (saved env 1)); simpl; [done | by apply Kept_pushUserGroup].
  - unfold declineRequest.
    destruct rid as [rid|]; [|done].
    destruct (groups db !! IdText.id k) as [g0|] eqn:Hg0; [|done].
    destruct (negb (Group.owner g0 =? u)%N); [done|].
    destruct (Group.request (Group.joinRequests g0) rid) as [[i' jr']|] eqn:Hreq; [|done].
    destruct (negb (RequestStatus_eqb (JoinRequest.status jr') Pending)) eqn:Hst; [done|].
    apply negb_false_iff, status_eqb_spec in Hst.
    destruct (negb (saved env 0)); simpl; [done|].
    apply Kept_saveGroup; [done|]. intros <-. simpl.
    assert (g0 = g) as -> by congruence.
    eapply processed_not_touched; eauto.
Qed.

(** No request of the run deletes the group [gid], however the request
    spells the id. *)
Definition neverDeletes (gid : ObjectId) (rs : list (Env * Request)) : Prop :=
  Forall (fun er => ∀ t u, snd er = DeleteGroup t u -> IdText.id t ≠ gid) rs.

Lemma run_keeps_processed rs db gid i jr :
  Kept gid i jr db ->
  JoinRequest.status jr ≠ Pending ->
  neverDeletes gid rs ->
  Kept gid i jr (run rs db).
Proof.
  intros HK Hjr Hrs. revert db HK.
  induction Hrs as [|[env r] rs Hr _ IH]; intros db HK; simpl; [done|].
  apply IH. by apply handle_keeps_processed.
Qed.

(** ** The cooldown ledger *)

Definition leftIds (u : User.t) : list ObjectId :=
  LeftGroup.groupId <$> User.leftGroups u.

(** No user holds two [leftGroups] records of one group. *)
Definition ledgerOk (db : DB) : Prop :=
  ∀ uid u, users db !! uid = Some u -> NoDup (leftIds u).

(** The record [findIndex] and [find] come upon for the text [gid]. *)
Definition leftRecord (gid : IdText.t) (ls : list LeftGroup.t) : option LeftGroup.t :=
  find (fun lg => IdText.equals (LeftGroup.groupId lg) gid) ls.

(** The leave and banish routes compare the text of the URL with the stored
    group ids.  A leave or banish request is [spelled] when it writes the id
    of its group the way [toString()] does. *)
Definition spelled (r : Request) : Prop :=
  match r with
  | LeaveGroup t _ | BanishUser t _ _ => IdText.written t = true
  | _ => True
  end.

Definition allSpelled (rs : list (Env * Request)) : Prop :=
  Forall (fun er => spelled (snd er)) rs.

(** In another spelling no record is found, and one more is pushed. *)
Lemma recordLeft_respelled ls (tx : IdText.t) at_ :
  IdText.written tx = false ->
  recordLeft ls tx at_ = ls ++ [LeftGroup.mk (IdText.id tx) at_].
Proof.
  intros Hw. induction ls as [|lg ls IH]; [done|].
  cbn [recordLeft]. rewrite (equals_respelled _ tx Hw), IH. done.
Qed.

Lemma leftRecord_respelled ls (tx : IdText.t) :
  IdText.written tx = false -> leftRecord tx ls = None.
Proof.
  intros Hw. unfold leftRecord. induction ls as [|lg ls IH]; [done|].
  simpl. by rewrite (equals_respelled _ tx Hw).
Qed.

Lemma recordLeft_ids ls (tx : IdText.t) at_ :
  IdText.written tx = true ->
  LeftGroup.groupId <$> recordLeft ls tx at_
  = if bool_decide (IdText.id tx ∈ LeftGroup.groupId <$> ls)
    then LeftGroup.groupId <$> ls
    else (LeftGroup.groupId <$> ls) ++ [IdText.id tx].
Proof.
  intros Hw. induction ls as [|lg ls IH]; [done|].
  cbn [recordLeft]. destruct (IdText.equals (LeftGroup.groupId lg) tx) eqn:E.
  - apply equals_spec in E as [_ E]. rewrite !fmap_cons. cbn [LeftGroup.groupId].
    rewrite bool_decide_true; [done|]. rewrite E. left.
  - apply equals_false in E. rewrite !fmap_cons, IH.
    destruct (bool_decide (IdText.id tx ∈ LeftGroup.groupId <$> ls)) eqn:Hin.
    + apply bool_decide_eq_true in Hin. rewrite bool_decide_true; [done|]. by right.
    + apply bool_decide_eq_false in Hin. rewrite bool_decide_false; [done|].
      intros Hc. apply elem_of_cons in Hc as [Hc|Hc]; [|done].
      apply E. by split.
Qed.

Lemma recordLeft_NoDup ls (tx : IdText.t) at_ :
  IdText.written tx = true ->
  NoDup (LeftGroup.groupId <$> ls) -> NoDup (LeftGroup.groupId <$> recordLeft ls tx at_).
Proof.
  intros Hw Hnd. rewrite recordLeft_ids by done. case_bool_decide as Hin; [done|].
  apply NoDup_app. split; [done|]. split; [|apply NoDup_singleton].
  intros x Hx Hx'. apply list_elem_of_singleton in Hx'. by subst.
Qed.

Lemma recordLeft_find ls (tx : IdText.t) at_ :
  IdText.written tx = true ->
  leftRecord tx (recordLeft ls tx at_) = Some (LeftGroup.mk (IdText.id tx) at_).
Proof.
  intros Hw. unfold leftRecord. induction ls as [|lg ls IH]; simpl.
  - unfold IdText.equals. by rewrite Hw, N.eqb_refl.
  - destruct (IdText.equals (LeftGroup.groupId lg) tx) eqn:E; simpl; [|by rewrite E].
    apply equals_spec in E as [_ E]. rewrite E.
    unfold IdText.equals. by rewrite Hw, N.eqb_refl.
Qed.

Lemma recordLeft_length ls (tx : IdText.t) at_ :
  IdText.written tx = true ->
  IdText.id tx ∈ LeftGroup.groupId <$> ls ->
  List.length (recordLeft ls tx at_) = List.length ls.
Proof.
  intros Hw Hin. rewrite <- (length_fmap LeftGroup.groupId (recordLeft ls tx at_)).
  rewrite recordLeft_ids, bool_decide_true by done. by rewrite length_fmap.
Qed.

Lemma ledgerOk_saveGroup env k g db : ledgerOk db -> ledgerOk (saveGroup env k g db).
Proof. done. Qed.

Lemma ledgerOk_saveUser k u db :
  ledgerOk db -> NoDup (leftIds u) -> ledgerOk (saveUser k u db).
Proof.
  intros Hdb Hu uid u'. simpl. rewrite lookup_insert. case_decide; [|apply Hdb].
  by intros [= <-].
Qed.

Lemma ledgerOk_pushUserGroup k gid db : ledgerOk db -> ledgerOk (pushUserGroup k gid db).
Proof.
  intros Hdb. unfold pushUserGroup. destruct (users db !! k) as [u|] eqn:Hu; [|done].
  apply ledgerOk_saveUser; [done|]. exact (Hdb _ _ Hu).
Qed.

Lemma handle_ledgerOk env r db :
  spelled r -> ledgerOk db -> ledgerOk (snd (handle env r db)).
Proof.
  intros Hsp Hdb.
  destruct r as [u n t m | k u | k u | k u | k u o | k u t | k u rid | k u rid]; simpl.
  - unfold createGroup.
    destruct (Js.falsy n || Js.falsy t); [done|].
    destruct (groupType t); [|done].
    destruct (belowTwo m); [done|].
    destruct (_ || _ || _); [done|].
    destruct (negb (saved env 1)); simpl; [done|].
    by apply ledgerOk_pushUserGroup.
  - unfold joinGroup.
    destruct (groups db !! IdText.id k) as [g0|]; [|done].
    destruct (Group.isMember g0 u); [done|].
    destruct (Group.isBanned g0 u); [done|].
    destruct (Group.full g0); [done|].
    destruct (Group.type g0).
    + destruct (negb (saved env 0)); [done|].
      destruct (users db !! u) as [usr|] eqn:Hu; [|done].
      destruct (negb (saved env 1)); simpl; [done|].
      apply ledgerOk_saveUser; [done|]. exact (Hdb _ _ Hu).
    + destruct (users db !! u) as [usr|]; [|done].
      destruct (negb (User.canRejoinPrivateGroup (now env) usr k)); [done|].
      destruct (Group.hasPendingRequest g0 u); [done|].
      destruct (negb (saved env 0)); simpl; done.
  - unfold leaveGroup.
    destruct (groups db !! IdText.id k) as [g0|]; [|done].
    destruct (negb (Group.isMember g0 u)); [done|].
    destruct (Group.owner g0 =? u)%N; [done|].
    destruct (negb (saved env 0)); [done|].
    destruct (users db !! u) as [usr|] eqn:Hu; [|done].
    destruct (negb (saved env 1)); simpl; [done|].
    apply ledgerOk_saveUser; [done|].
    pose proof (Hdb _ _ Hu) as Hnd.
    destruct (Group.type g0); [done|]. by apply recordLeft_NoDup.
  - unfold deleteGroup.
    destruct (groups db !! IdText.id k) as [g0|]; [|done].
    destruct (negb (Group.owner g0 =? u)%N); [done|].
    destruct (1 <? List.length (Group.members g0))%nat; [done|].
    destruct (negb (saved env 0)); [done|].
    destruct (negb (saved env 1)); [done|].
    assert (ledgerOk (set_users
              (set_messages db
                 (List.filter (fun m => negb (Message.groupId m =? IdText.id k)%N)
                              (messages db)))
              ((fun u0 =>
                  User.set_groups u0
                    (without (IdText.canonical (IdText.id k)) (User.groups u0)))
                 <$> users db))).
    { intros uid u'. simpl. rewrite lookup_fmap.
      destruct (users db !! uid) as [u0|] eqn:Hu; simpl; [|done].
      intros [= <-]. exact (Hdb _ _ Hu). }
    destruct (negb (saved env 2)); done.
  - unfold transferOwnership.
    destruct o as [o|]; [|done].
    destruct (groups db !! IdText.id k) as [g0|]; [|done].
    destruct (negb (Group.owner g0 =? u)%N); [done|].
    destruct (negb (Group.isMember g0 o)); [done|].
    destruct (negb (saved env 0)); simpl; done.
  - unfold banishUser.
    destruct t as [t|]; [|done].
    destruct (groups db !! IdText.id k) as [g0|]; [|done].
    destruct (users db !! IdText.id t) as [tu|] eqn:Hu; [|done].
    destruct (negb (Group.owner g0 =? u)%N); [done|].
    destruct (IdText.equals u t); [done|].
    destruct (negb (Group.isMember g0 t)); [done|].
    destruct (negb (saved env 0)); [done|].
    destruct (negb (saved env 1)); simpl; [done|].
    apply ledgerOk_saveUser; [done|]. exact (Hdb _ _ Hu).
  - unfold approveRequest.
    destruct rid as [rid|]; [|done].
    destruct (groups db !! IdText.id k) as [g0|]; [|done].
    destruct (negb (Group.owner g0 =? u)%N); [done|].
    destruct (Group.request (Group.joinRequests g0) rid) as [[i' jr']|]; [|done].
    destruct (negb (RequestStatus_eqb (JoinRequest.status jr') Pending)); [done|].
    destruct (Group.full g0); [done|].
    destruct (negb (saved env 0)); [done|].
    destruct (negb (saved env 1)); simpl; [done|].
    by apply ledgerOk_pushUserGroup.
  - unfold declineRequest.
    destruct rid as [rid|]; [|done].
    destruct (groups db !! IdText.id k) as [g0|]; [|done].
    destruct (negb (Group.owner g0 =? u)%N); [done|].
    destruct (Group.request (Group.joinRequests g0) rid) as [[i' jr']|]; [|done].
    destruct (negb (RequestStatus_eqb (JoinRequest.status jr') Pending)); [done|].
    destruct (negb (saved env 0)); simpl; done.
Qed.

Lemma run_ledgerOk rs db : allSpelled rs -> ledgerOk db -> ledgerOk (run rs db).
Proof.
  intros Hrs. revert db.
  induction Hrs as [|[env r] rs Hr _ IH]; intros db Hdb; simpl; [done|].
  apply IH. by apply handle_ledgerOk.
Qed.

(** 48 hours are 172800000 milliseconds. *)
Lemma hoursSince_48 now leftAt :
  Qle_bool 48 (User.hoursSince now leftAt) = true <-> (172800000 <= now - leftAt)%Z.
Proof.
  rewrite Qle_bool_iff.
  unfold User.hoursSince, Qle, Qdiv, Qmult, Qinv, inject_Z. simpl. lia.
Qed.

Lemma leftRecord_None (gid : ObjectId) ls :
  leftRecord gid ls = None <-> ¬ ∃ lg, lg ∈ ls ∧ LeftGroup.groupId lg = gid.
Proof.
  unfold leftRecord. split.
  - intros Hnone (lg & Hin & Hid).
    apply list_elem_of_In in Hin.
    pose proof (find_none _ _ Hnone lg Hin) as Hf. simpl in Hf.
    apply N.eqb_neq in Hf. done.
  - intros Hno. destruct (find _ ls) as [lg|] eqn:Hf; [|done].
    apply find_some in Hf as [Hin Hid]. apply N.eqb_eq in Hid.
    destruct Hno. exists lg. split; [by apply list_elem_of_In | done].
Qed.

(** Under [NoDup], the record [find] returns is the only one of the group. *)
Lemma leftRecord_Some (gid : ObjectId) ls lg :
  NoDup (LeftGroup.groupId <$> ls) ->
  leftRecord gid ls = Some lg <-> lg ∈ ls ∧ LeftGroup.groupId lg = gid.
Proof.
  intros Hnd. unfold leftRecord. split.
  - intros Hf. apply find_some in Hf as [Hin Hid]. apply N.eqb_eq in Hid.
    split; [by apply list_elem_of_In | done].
  - intros [Hin Hid].
    destruct (find _ ls) as [lg'|] eqn:Hf.
    + apply find_some in Hf as [Hin' Hid']. apply N.eqb_eq in Hid'.
      apply list_elem_of_In in Hin'.
      apply list_elem_of_lookup in Hin as [i Hi], Hin' as [j Hj].
      assert (i = j) as ->; [|congruence].
      eapply (NoDup_lookup _ _ _ gid Hnd); rewrite list_lookup_fmap.
      * by rewrite Hi; simpl; rewrite Hid.
      * by rewrite Hj; simpl; rewrite Hid'.
    + apply leftRecord_None in Hf. destruct Hf. eauto.
Qed.

End Membership.

Module MembershipClaims.
Import Groups Membership.

(** C2, against the claim as stated.  User 1 creates the public group Beta
    with [maxMembers: 2.5], which the route's check ([maxMembers < 2]) and
    the schema ([Number], [min: 2]) both accept, and users 2 and 3 join.
    The capacity test of the join route, [members.length >= maxMembers],
    is false at two members, so the third is let in: the group holds three
    members and its maxMembers is 2.5. *)
Lemma a_fractional_capacity_is_exceeded :
  groups Examples.threeUsers = ∅
  ∧ groups (run Examples.betaRun Examples.threeUsers) !! 100%N = Some Examples.beta
  ∧ Group.maxMembers Examples.beta = Some 2.5%Q
  ∧ List.length (Group.members Examples.beta) = 3%nat
  ∧ ¬ (inject_Z (Z.of_nat (List.length (Group.members Examples.beta))) <= 2.5)%Q.
Proof.
  split; [reflexivity|]. split; [vm_compute; reflexivity|].
  split; [reflexivity|]. split; [reflexivity|].
  intros Hle. apply Qle_bool_iff in Hle. vm_compute in Hle. discriminate.
Qed.

(** C2, as the code has it.  Start from a store with no group and run any
    sequence of requests to the membership engine (CreateGroup, JoinGroup,
    LeaveGroup, DeleteGroup, TransferOwnership, BanishUser,
    ApproveJoinRequest, DeclineJoinRequest), whatever the clock, the
    generated ids, the spelling of the ids and the outcome of each write.
    Every group of the resulting store has its owner among its members, and
    when its maxMembers is set to a whole number the number of members does
    not exceed it. *)
Theorem owner_in_members_and_within_whole_capacity
    (rs : list (Env * Request)) (db : DB) (gid : ObjectId) (g : Group.t) :
  groups db = ∅ ->
  groups (run rs db) !! gid = Some g ->
  Group.owner g ∈ Group.members g
  ∧ ∀ (m : Q) (k : Z),
      Group.maxMembers g = Some m -> (m == inject_Z k)%Q ->
      (Z.of_nat (List.length (Group.members g)) <= k)%Z.
Proof.
  intros Hempty Hg.
  assert (Hok : storeOk db).
  { intros k g'. rewrite Hempty, lookup_empty. done. }
  destruct (run_ok rs db Hok gid g Hg) as [Hown Hmax].
  split; [done|]. intros m k Hm Hk. destruct (Hmax m Hm) as [_ Hlt].
  by apply (count_whole _ m).
Qed.

Lemma owner_in_members_and_within_whole_capacity_witness :
  groups Examples.threeUsers = ∅
  ∧ groups (run Examples.alphaRun Examples.threeUsers) !! 100%N = Some Examples.alpha
  ∧ Group.owner Examples.alpha ∈ Group.members Examples.alpha
  ∧ ∀ (m : Q) (k : Z),
      Group.maxMembers Examples.alpha = Some m -> (m == inject_Z k)%Q ->
      (Z.of_nat (List.length (Group.members Examples.alpha)) <= k)%Z.
Proof.
  assert (H1 : groups Examples.threeUsers = ∅) by reflexivity.
  assert (H2 : groups (run Examples.alphaRun Examples.threeUsers) !! 100%N
               = Some Examples.alpha) by (vm_compute; reflexivity).
  split; [exact H1|]. split; [exact H2|].
  exact (owner_in_members_and_within_whole_capacity _ _ _ _ H1 H2).
Defined.

(** C10.  A private group whose maxMembers is set and already reached
    answers a join request of a user who is neither a member nor banned
    with "Group full", whatever the user's cooldown and pending requests
    are and however the URL spells the id of the group: the capacity check
    comes first.  The store is left as it was, so no join request is
    appended. *)
Theorem full_private_group_refuses_join
    (env : Env) (t : IdText.t) (uid : ObjectId) (db : DB) (g : Group.t) (m : Q) :
  groups db !! IdText.id t = Some g ->
  Group.type g = Private ->
  Group.maxMembers g = Some m ->
  ¬ (m == 0)%Q ->
  (m <= inject_Z (Z.of_nat (List.length (Group.members g))))%Q ->
  Group.isMember g uid = false ->
  Group.isBanned g uid = false ->
  joinGroup env t uid db
  = (Err 400 "Group full" "This group has reached its maximum member limit", db).
Proof.
  intros Hg _ Hm Hm0 Hlen Hmem Hban.
  unfold joinGroup. rewrite Hg, Hmem, Hban.
  unfold Group.full. rewrite Hm.
  apply Qle_bool_iff in Hlen. rewrite Hlen.
  destruct (Qeq_bool m 0) eqn:E0; [|done].
  apply Qeq_bool_iff in E0. done.
Qed.

Lemma full_private_group_refuses_join_witness :
  (∃ u, users Examples.alphaFullStore !! 3%N = Some u
        ∧ User.canRejoinPrivateGroup 3001 u (IdText.canonical 100) = false)
  ∧ Group.hasPendingRequest Examples.alphaFull (IdText.canonical 3) = true
  ∧ joinGroup (Examples.env 3001 105) (IdText.canonical 100) 3 Examples.alphaFullStore
    = (Err 400 "Group full" "This group has reached its maximum member limit",
       Examples.alphaFullStore).
Proof.
  split; [eexists; split; [reflexivity | vm_compute; reflexivity]|].
  split; [reflexivity|].
  apply (full_private_group_refuses_join _ _ _ _ Examples.alphaFull 2);
    first [reflexivity | discriminate | (vm_compute; discriminate)].
Defined.

(** C3, against the claim as stated.  User 2 joins the public group 200;
    the write of the group succeeds and the write of the user throws.  The
    request is answered with a 500, user 2 has been added to the members of
    the group, and the groups of user 2 are as before: one update is applied
    without the other, and the failure of the user-side write did not leave
    the members unchanged. *)
Lemma public_join_is_not_atomic :
  let env := Examples.envSecondWriteFails 5000 0 in
  let db := Examples.lobbyStore in
  let db1 := snd (joinGroup env (IdText.canonical 200) 2 db) in
  saved env 0 = true
  ∧ saved env 1 = false
  ∧ fst (joinGroup env (IdText.canonical 200) 2 db) = caught "Failed to join group"
  ∧ Group.members <$> groups db !! 200%N = Some [1%N]
  ∧ Group.members <$> groups db1 !! 200%N = Some [1%N; 2%N]
  ∧ User.groups <$> users db !! 2%N = Some []
  ∧ User.groups <$> users db1 !! 2%N = Some [].
Proof. vm_compute. repeat split. Qed.

(** C3, as the code has it.  The join of a public group by a user who is
    neither a member nor banned, with room left, is two separate writes, the
    group first and the user second, and nothing undoes the first.  If the
    first write fails, the store is unchanged.  If it succeeds, the user id
    is added to the group's members; then, if the second write succeeds too,
    the group id is added to the user's groups, and if the second write
    fails the answer is a 500 and the users are as they were before.  This
    holds however the URL spells the id of the group, [gid] being the id
    the text stands for. *)
Theorem public_join_writes_group_then_user
    (env : Env) (t : IdText.t) (uid : ObjectId) (db : DB) (g : Group.t) (u : User.t) :
  let gid := IdText.id t in
  groups db !! gid = Some g ->
  users db !! uid = Some u ->
  Group.type g = Public ->
  Group.isMember g uid = false ->
  Group.isBanned g uid = false ->
  Group.full g = false ->
  let r := fst (joinGroup env t uid db) in
  let db1 := snd (joinGroup env t uid db) in
  (saved env 0 = false -> r = caught "Failed to join group" ∧ db1 = db)
  ∧ (saved env 0 = true ->
     Group.members <$> groups db1 !! gid = Some (Group.members g ++ [uid]))
  ∧ (saved env 0 = true -> saved env 1 = true ->
     r = Done 200 "Successfully joined the group"
     ∧ User.groups <$> users db1 !! uid = Some (User.groups u ++ [gid]))
  ∧ (saved env 0 = true -> saved env 1 = false ->
     r = caught "Failed to join group" ∧ users db1 = users db).
Proof.
  intros gid Hg Hu Hty Hmem Hban Hfull. subst gid. simpl.
  unfold joinGroup. rewrite Hg, Hmem, Hban, Hfull, Hty, Hu.
  split; [|split; [|split]].
  - by intros ->.
  - intros ->. simpl. destruct (saved env 1); simpl;
      by rewrite lookup_insert_eq.
  - intros -> ->. simpl. by rewrite lookup_insert_eq.
  - by intros -> ->.
Qed.

Lemma public_join_writes_group_then_user_witness :
  let env := Examples.env 5000 0 in
  let db1 := snd (joinGroup env (IdText.canonical 200) 2 Examples.lobbyStore) in
  (saved env 0 = false ->
   fst (joinGroup env (IdText.canonical 200) 2 Examples.lobbyStore) = caught "Failed to join group"
   ∧ db1 = Examples.lobbyStore)
  ∧ (saved env 0 = true ->
     Group.members <$> groups db1 !! 200%N = Some (Group.members Examples.lobby ++ [2%N]))
  ∧ (saved env 0 = true -> saved env 1 = true ->
     fst (joinGroup env (IdText.canonical 200) 2 Examples.lobbyStore) = Done 200 "Successfully joined the group"
     ∧ User.groups <$> users db1 !! 2%N = Some (User.groups Examples.newUser ++ [200%N]))
  ∧ (saved env 0 = true -> saved env 1 = false ->
     fst (joinGroup env (IdText.canonical 200) 2 Examples.lobbyStore) = caught "Failed to join group"
     ∧ users db1 = users Examples.lobbyStore).
Proof.
  apply (public_join_writes_group_then_user
           (Examples.env 5000 0) (IdText.canonical 200) 2
           Examples.lobbyStore Examples.lobby Examples.newUser);
    reflexivity.
Defined.

(** C4, against the claim as stated.  The owner declines the pending
    request 101 of the group 100 at time 3000.  The status of the request
    becomes declined, and the members are as before, but the status is not
    the only thing written: [groupSchema.pre("save")] stamps [updatedAt],
    which goes from 2000 to 3000. *)
Lemma decline_also_stamps_updatedAt :
  let db := Examples.alphaPendingStore in
  let db1 := snd (declineRequest (Examples.env 3000 102) (IdText.canonical 100) 1 (Some 101%N) db) in
  fst (declineRequest (Examples.env 3000 102) (IdText.canonical 100) 1 (Some 101%N) db)
  = Done 200 "Request declined successfully"
  ∧ Group.joinRequests <$> groups db1 !! 100%N
    = Some [JoinRequest.mk 101 2 2000 Declined]
  ∧ Group.members <$> groups db1 !! 100%N = Group.members <$> groups db !! 100%N
  ∧ Group.updatedAt <$> groups db !! 100%N = Some 2000%Z
  ∧ Group.updatedAt <$> groups db1 !! 100%N = Some 3000%Z.
Proof. vm_compute. repeat split. Qed.

(** C4, as the code has it.  Take the owner of a group and a join request
    of that group, found by its id; the URL may spell the id of the group
    in any way, [gid] being the id the text stands for.
    - If the request is no longer pending, approving and declining both fail
      with "Request already processed" and leave the store as it is, and the
      request stays as it is through any run of requests that does not
      delete the group: its status never changes again.
    - If it is pending and maxMembers is set and reached, approving fails
      with "Group full" and leaves the store as it is.
    - If it is pending and there is room, approving (both writes succeeding)
      adds the requestor to the members and sets the status to approved.
    - If it is pending, declining (its write succeeding) saves the group
      with the status of this request set to declined, and nothing else is
      written: every other field of the group and every other request are
      the stored ones, apart from [updatedAt], which the save hook stamps on
      every save of a group; users and messages are untouched. *)
Theorem join_request_is_processed_once
    (env : Env) (t : IdText.t) (uid rid : ObjectId) (db : DB) (g : Group.t)
    (i : nat) (jr : JoinRequest.t) :
  let gid := IdText.id t in
  groups db !! gid = Some g ->
  Group.owner g = uid ->
  Group.request (Group.joinRequests g) rid = Some (i, jr) ->
  let approve := approveRequest env t uid (Some rid) db in
  let decline := declineRequest env t uid (Some rid) db in
  (JoinRequest.status jr ≠ Pending ->
   approve = (Err 400 "Request already processed" "", db)
   ∧ decline = (Err 400 "Request already processed" "", db)
   ∧ ∀ rs, neverDeletes gid rs ->
       ∃ g1, groups (run rs db) !! gid = Some g1
             ∧ Group.joinRequests g1 !! i = Some jr)
  ∧ (JoinRequest.status jr = Pending ->
     (∀ m, Group.maxMembers g = Some m -> ¬ (m == 0)%Q ->
           (m <= inject_Z (Z.of_nat (List.length (Group.members g))))%Q ->
           approve
           = (Err 400 "Group full" "Cannot approve: group has reached maximum members", db))
     ∧ (Group.full g = false -> saved env 0 = true -> saved env 1 = true ->
        fst approve = Done 200 "Request approved successfully"
        ∧ ∃ g1, groups (snd approve) !! gid = Some g1
                ∧ Group.members g1 = Group.members g ++ [JoinRequest.userId jr]
                ∧ Group.joinRequests g1
                  = <[i := JoinRequest.set_status jr Approved]> (Group.joinRequests g))
     ∧ (saved env 0 = true ->
        fst decline = Done 200 "Request declined successfully"
        ∧ groups (snd decline)
          = <[gid := Group.set_updatedAt
                       (Group.set_joinRequests g
                          (<[i := JoinRequest.set_status jr Declined]>
                             (Group.joinRequests g)))
                       (now env)]> (groups db)
        ∧ users (snd decline) = users db
        ∧ messages (snd decline) = messages db)).
Proof.
  intros gid Hg Hown Hreq. subst gid. simpl.
  unfold approveRequest, declineRequest.
  rewrite Hg, Hown, N.eqb_refl, Hreq. simpl.
  split.
  - intros Hst.
    assert (RequestStatus_eqb (JoinRequest.status jr) Pending = false) as ->.
    { apply not_true_iff_false. by rewrite status_eqb_spec. }
    simpl. repeat split.
    intros rs Hrs. apply run_keeps_processed; [|done..].
    exists g. split; [done|]. by apply request_spec in Hreq as [? _].
  - intros Hst. rewrite Hst. simpl. split; [|split].
    + intros m Hm Hm0 Hlen. unfold Group.full. rewrite Hm.
      apply Qle_bool_iff in Hlen. rewrite Hlen.
      destruct (Qeq_bool m 0) eqn:E0; [|done].
      apply Qeq_bool_iff in E0. done.
    + intros -> -> ->. simpl. split; [done|].
      rewrite groups_pushUserGroup, groups_saveGroup, lookup_insert_eq.
      eexists. split; [done|]. done.
    + intros ->. simpl. done.
Qed.

Lemma join_request_is_processed_once_witness :
  groups Examples.alphaPendingStore !! 100%N = Some Examples.alphaPending
  ∧ Group.request (Group.joinRequests Examples.alphaPending) 101
    = Some (0%nat, JoinRequest.mk 101 2 2000 Pending)
  ∧ fst (approveRequest (Examples.env 3000 102) (IdText.canonical 100) 1 (Some 101%N) Examples.alphaPendingStore)
    = Done 200 "Request approved successfully"
  ∧ groups (snd (approveRequest (Examples.env 3000 102) (IdText.canonical 100) 1 (Some 101%N)
                                Examples.alphaPendingStore)) !! 100%N
    = Some Examples.alpha
  ∧ fst (declineRequest (Examples.env 3000 102) (IdText.canonical 100) 1 (Some 101%N) Examples.alphaPendingStore)
    = Done 200 "Request declined successfully".
Proof.
  pose proof (join_request_is_processed_once (Examples.env 3000 102)
                (IdText.canonical 100) 1 101
                Examples.alphaPendingStore Examples.alphaPending 0
                (JoinRequest.mk 101 2 2000 Pending)
                eq_refl eq_refl eq_refl) as [_ Hpending].
  destruct (Hpending eq_refl) as (_ & Happrove & Hdecline).
  destruct (Happrove eq_refl eq_refl eq_refl) as [Hr _].
  destruct (Hdecline eq_refl) as [Hd _].
  repeat split; first [exact Hr | exact Hd | (vm_compute; reflexivity)].
Defined.

(** C6, where the code departs from it.  The leave route and
    canRejoinPrivateGroup look for the leftGroups record of a group by
    comparing [toString()] of the stored id with the text of the URL, while
    [Group.findById] casts that text.  Take a private group and a text [t]
    that stands for its id in another spelling than [toString()] writes.
    Whatever records the user holds, of this group too:
    - canRejoinPrivateGroup finds none and is true at every time;
    - a join that passes the membership, ban and capacity checks is not
      answered with "Cooldown period", and with no request pending and the
      write succeeding it is accepted;
    - a successful leave pushes one more record of the group onto
      leftGroups and overwrites none. *)
Theorem a_respelled_group_id_slips_past_the_cooldown
    (env : Env) (t : IdText.t) (uid : ObjectId) (db : DB) (g : Group.t) (u : User.t) :
  IdText.written t = false ->
  groups db !! IdText.id t = Some g ->
  Group.type g = Private ->
  users db !! uid = Some u ->
  (∀ now, User.canRejoinPrivateGroup now u t = true)
  ∧ (Group.isMember g uid = false -> Group.isBanned g uid = false ->
     Group.full g = false ->
     fst (joinGroup env t uid db)
     ≠ Err 429 "Cooldown period"
           "You must wait 48 hours after leaving before you can request to rejoin this private group"
     ∧ (Group.hasPendingRequest g uid = false -> saved env 0 = true ->
        fst (joinGroup env t uid db) = Done 200 "Join request sent successfully"))
  ∧ (fst (leaveGroup env t uid db) = Done 200 "Successfully left the group" ->
     ∃ u1,
       users (snd (leaveGroup env t uid db)) !! uid = Some u1
       ∧ User.leftGroups u1
         = User.leftGroups u ++ [LeftGroup.mk (IdText.id t) (now env)]).
Proof.
  intros Hw Hg Hty Hu.
  assert (Hcan : ∀ now, User.canRejoinPrivateGroup now u t = true).
  { intros now. unfold User.canRejoinPrivateGroup.
    fold (leftRecord t (User.leftGroups u)). by rewrite leftRecord_respelled. }
  split; [exact Hcan|]. split.
  - intros Hmem Hban Hfull. unfold joinGroup.
    rewrite Hg, Hmem, Hban, Hfull, Hty, Hu, Hcan. simpl. split.
    + destruct (Group.hasPendingRequest g uid); [done|].
      by destruct (negb (saved env 0)).
    + by intros -> ->.
  - unfold leaveGroup. rewrite Hg, Hty.
    destruct (negb (Group.isMember g uid)); [done|].
    destruct (Group.owner g =? uid)%N; [done|].
    destruct (negb (saved env 0)); [done|].
    rewrite Hu.
    destruct (negb (saved env 1)); [done|].
    intros _. simpl. rewrite lookup_insert_eq. eexists. split; [done|]. simpl.
    by apply recordLeft_respelled.
Qed.

(** User 2 left the private group 100 at time 4000.  A second later the
    same user asks to join again and spells the id of the group in upper
    case: the request is accepted, where the spelling of [toString()] is
    answered with "Cooldown period".  And in [Examples.respelledRun], where
    user 2 leaves the group twice under the upper-case spelling, the user
    ends with two leftGroups records of the group. *)
Lemma a_respelled_group_id_slips_past_the_cooldown_witness :
  let db := Examples.leftOnceStore in
  User.leftGroups <$> users db !! 2%N = Some [LeftGroup.mk 100 4000]
  ∧ fst (joinGroup (Examples.env 5000 104) (IdText.canonical 100) 2 db)
    = Err 429 "Cooldown period"
          "You must wait 48 hours after leaving before you can request to rejoin this private group"
  ∧ User.leftGroups <$> users (run Examples.respelledRun Examples.threeUsers) !! 2%N
    = Some [LeftGroup.mk 100 4000; LeftGroup.mk 100 7000]
  ∧ fst (joinGroup (Examples.env 5000 104) Examples.upper100 2 db)
    = Done 200 "Join request sent successfully".
Proof.
  split; [vm_compute; reflexivity|]. split; [vm_compute; reflexivity|].
  split; [vm_compute; reflexivity|].
  assert (Hg : ∃ g, groups Examples.leftOnceStore !! 100%N = Some g
                    ∧ Group.type g = Private
                    ∧ Group.isMember g (IdText.canonical 2) = false
                    ∧ Group.isBanned g (IdText.canonical 2) = false
                    ∧ Group.full g = false
                    ∧ Group.hasPendingRequest g (IdText.canonical 2) = false).
  { eexists. split; [vm_compute; reflexivity|]. by vm_compute. }
  destruct Hg as (g & Hg & Hty & Hmem & Hban & Hfull & Hpend).
  assert (Hu : ∃ u, users Examples.leftOnceStore !! 2%N = Some u).
  { eexists. vm_compute. reflexivity. }
  destruct Hu as [u Hu].
  destruct (a_respelled_group_id_slips_past_the_cooldown
              (Examples.env 5000 104) Examples.upper100 2 _ g u eq_refl Hg Hty Hu)
    as (_ & Hjoin & _).
  destruct (Hjoin Hmem Hban Hfull) as [_ Hsent].
  exact (Hsent Hpend eq_refl).
Defined.

End MembershipClaims.

(* ================================================================== *)
(** * Properties of the message store *)
(* ================================================================== *)

Section CodecLemmas.

Lemma hex_decode_pair (a : ascii) (r : string) :
  Hex.decode (String (Hex.digit (Js.code a / 16))
                     (String (Hex.digit (Js.code a mod 16)) r))
  = String a (Hex.decode r).
Proof. destruct a as [[] [] [] [] [] [] [] []]; reflexivity. Qed.

Lemma hex_decode_encode (s : string) : Hex.decode (Hex.encode s) = s.
Proof.
  induction s as [|a s IH]; [done|].
  cbn [Hex.encode]. by rewrite hex_decode_pair, IH.
Qed.

Lemma hex_encode_length (s : string) :
  String.length (Hex.encode s) = (2 * String.length s)%nat.
Proof. induction s as [|a s IH]; simpl; [done|]. rewrite IH. lia. Qed.

Lemma StronglySorted_rev {A} (R : relation A) (l : list A) :
  StronglySorted R l -> StronglySorted (flip R) (rev l).
Proof.
  induction 1 as [|x l Hl IH Hx]; simpl; [constructor|].
  apply StronglySorted_app_2; [|done|repeat constructor].
  intros y z Hy Hz. apply list_elem_of_singleton in Hz as ->.
  rewrite Forall_forall in Hx. apply Hx.
  apply list_elem_of_In, in_rev. by apply list_elem_of_In.
Qed.

End CodecLemmas.

#[global] Instance newerFirst_total : Total Messages.newerFirst.
Proof. intros a b. unfold Messages.newerFirst. lia. Qed.

#[global] Instance newerFirst_trans : Transitive Messages.newerFirst.
Proof. intros a b c. unfold Messages.newerFirst. lia. Qed.

Module MessageStore.
Section WithNode.

Context `{Node}.
Variable ENCRYPTION_KEY : option string.

Local Abbreviation key := (Messages.key ENCRYPTION_KEY).
Local Abbreviation encryptContent := (Messages.encryptContent ENCRYPTION_KEY).
Local Abbreviation decryptContent := (Messages.decryptContent ENCRYPTION_KEY).
Local Abbreviation getDecryptedContent := (Messages.getDecryptedContent ENCRYPTION_KEY).
Local Abbreviation preSave := (Messages.preSave ENCRYPTION_KEY).

Lemma findById_id id ms m : Messages.findById id ms = Some m -> Message._id m = id.
Proof.
  unfold Messages.findById. intros Hf. apply find_some in Hf as [_ Hid].
  by apply N.eqb_eq in Hid.
Qed.

Lemma findById_replace_eq id ms m m1 :
  Messages.findById id ms = Some m -> Message._id m1 = id ->
  Messages.findById id (Messages.replace m1 ms) = Some m1.
Proof.
  unfold Messages.findById. intros Hf Hid. subst id.
  induction ms as [|x ms IH]; simpl in *; [done|].
  destruct (Message._id x =? Message._id m1)%N eqn:E; simpl.
  - by rewrite N.eqb_refl.
  - rewrite E. by apply IH.
Qed.

Lemma findById_replace_ne id ms m1 :
  id ≠ Message._id m1 ->
  Messages.findById id (Messages.replace m1 ms) = Messages.findById id ms.
Proof.
  unfold Messages.findById. intros Hne.
  induction ms as [|x ms IH]; simpl; [done|].
  destruct (Message._id x =? Message._id m1)%N eqn:E; simpl.
  - apply N.eqb_eq in E.
    assert ((Message._id m1 =? id)%N = false) as -> by (apply N.eqb_neq; congruence).
    assert ((Message._id x =? id)%N = false) as -> by (apply N.eqb_neq; congruence).
    done.
  - by rewrite IH.
Qed.

(** What [encryptContent] makes, [decryptContent] reads back. *)
Lemma decrypt_encrypt (iv text : string) :
  String.length key = 16%nat -> String.length iv = 16%nat ->
  ∃ c, cipher key iv text = Some c
       ∧ encryptContent iv text = Some (Hex.encode c, Hex.encode iv)
       ∧ decryptContent (Hex.encode c) (Hex.encode iv) = Some text
       ∧ (String.length text < String.length c)%nat.
Proof.
  intros Hk Hiv. destruct (decipher_cipher key iv text Hk Hiv) as (c & Hc & Hd & Hlen).
  exists c. unfold Messages.encryptContent, Messages.decryptContent.
  by rewrite Hc, !hex_decode_encode.
Qed.

(** C9.  Deleting a message that is not yet deleted is refused to anyone
    but its sender and the owner of its group.  When it is allowed and the
    write succeeds, the stored message has [deleted] set and [deletedAt]
    stamped, and every other field is as it was: the ciphertext in
    [content], the iv, the sender, the group, the time of sending, the
    edited flag and time.  No other message, no group and no user is
    touched. *)
Theorem delete_sets_only_the_deleted_flags
    (env : Env) (mid uid : ObjectId) (db : DB) (m : Message.t) :
  Messages.findById mid (messages db) = Some m ->
  Message.deleted m = false ->
  let allowed :=
    Message.senderId m = uid
    ∨ ∃ g, groups db !! Message.groupId m = Some g ∧ Group.owner g = uid in
  let r := fst (Messages.deleteMessage ENCRYPTION_KEY env mid uid db) in
  let db1 := snd (Messages.deleteMessage ENCRYPTION_KEY env mid uid db) in
  (¬ allowed ->
   r = Err 403 "Access denied" "You can only delete your own messages" ∧ db1 = db)
  ∧ (allowed -> saved env 0 = true ->
     r = Done 200 "Message deleted successfully"
     ∧ groups db1 = groups db
     ∧ users db1 = users db
     ∧ (∀ id, id ≠ mid ->
          Messages.findById id (messages db1) = Messages.findById id (messages db))
     ∧ ∃ m1, Messages.findById mid (messages db1) = Some m1
             ∧ Message.deleted m1 = true
             ∧ Message.deletedAt m1 = Some (now env)
             ∧ Message._id m1 = Message._id m
             ∧ Message.groupId m1 = Message.groupId m
             ∧ Message.senderId m1 = Message.senderId m
             ∧ Message.content m1 = Message.content m
             ∧ Message.encrypted m1 = Message.encrypted m
             ∧ Message.iv m1 = Message.iv m
             ∧ Message.timestamp m1 = Message.timestamp m
             ∧ Message.edited m1 = Message.edited m
             ∧ Message.editedAt m1 = Message.editedAt m).
Proof.
  intros Hm Hdel. simpl.
  unfold Messages.deleteMessage. rewrite Hm, Hdel.
  unfold Messages.preSave, Messages.isModified. simpl.
  rewrite String.eqb_refl. simpl.
  pose proof (findById_id _ _ _ Hm) as Hid.
  destruct (Message.senderId m =? uid)%N eqn:Hs; simpl.
  - apply N.eqb_eq in Hs. split; [intros Hno; destruct Hno; by left|].
    intros _ ->. simpl. repeat split.
    + intros id Hne. apply findById_replace_ne. simpl. congruence.
    + eexists. split; [by eapply findById_replace_eq|]. done.
  - apply N.eqb_neq in Hs.
    destruct (groups db !! Message.groupId m) as [g|] eqn:Hg.
    + destruct (Group.owner g =? uid)%N eqn:Ho; simpl.
      * apply N.eqb_eq in Ho. split; [intros Hno; destruct Hno; right; eauto|].
        intros _ ->. simpl. repeat split.
        -- intros id Hne. apply findById_replace_ne. simpl. congruence.
        -- eexists. split; [by eapply findById_replace_eq|]. done.
      * apply N.eqb_neq in Ho. split; [done|].
        intros [Hc | (g' & Hg' & Ho')]; [done | congruence].
    + simpl. split; [done|].
      intros [Hc | (g' & Hg' & Ho')]; [done | congruence].
Qed.

(** 15 minutes are 900000 milliseconds. *)
Lemma minutesSince_15 now timestamp :
  Qle_bool (Messages.minutesSince now timestamp) 15 = true
  <-> (now - timestamp <= 900000)%Z.
Proof.
  rewrite Qle_bool_iff.
  unfold Messages.minutesSince, Qle, Qdiv, Qmult, Qinv, inject_Z. simpl. lia.
Qed.

(** The save hook touches the ciphertext and the iv only. *)
Lemma preSave_frame b random x y :
  preSave b random x = Some y ->
  Message._id y = Message._id x
  ∧ Message.groupId y = Message.groupId x
  ∧ Message.senderId y = Message.senderId x
  ∧ Message.timestamp y = Message.timestamp x
  ∧ Message.edited y = Message.edited x
  ∧ Message.editedAt y = Message.editedAt x
  ∧ Message.deleted y = Message.deleted x
  ∧ Message.deletedAt y = Message.deletedAt x.
Proof.
  unfold Messages.preSave.
  destruct (negb b || negb (Message.encrypted x)); [by intros [= <-]|].
  destruct (encryptContent random (Message.content x)) as [[e v]|]; [|done].
  by intros [= <-].
Qed.

(** Whatever an edit answers, the message is still stored under its id,
    with its sender, its deleted flag and its time of sending. *)
Lemma editMessage_frame env mid uid content db m :
  Messages.findById mid (messages db) = Some m ->
  ∃ m1, Messages.findById mid
          (messages (snd (Messages.editMessage ENCRYPTION_KEY env mid uid content db)))
        = Some m1
        ∧ Message.senderId m1 = Message.senderId m
        ∧ Message.deleted m1 = Message.deleted m
        ∧ Message.timestamp m1 = Message.timestamp m.
Proof.
  intros Hm. unfold Messages.editMessage.
  destruct (Js.blank content); [eauto|]. rewrite Hm.
  destruct (Message.deleted m) eqn:Hdel; [eauto|].
  destruct (negb (Message.senderId m =? uid)%N); [eauto|].
  destruct (negb (Qle_bool _ 15)); [eauto|].
  destruct (encryptContent _ _) as [[e v]|]; [|eauto].
  destruct (preSave _ _ _) as [m2|] eqn:Hsave; [|eauto].
  destruct (negb (saved env 0)); [eauto|].
  apply preSave_frame in Hsave as (Hid & _ & Hs & Ht & _ & _ & Hd & _). simpl in *.
  exists m2. split; [|by rewrite Hs, Hd, Ht].
  eapply findById_replace_eq; [done|]. rewrite Hid. by eapply findById_id.
Qed.

Definition expired : Response :=
  Err 400 "Time limit exceeded"
      "Messages can only be edited within 15 minutes of sending".

Lemma editMessage_expired env mid uid content db m :
  Messages.findById mid (messages db) = Some m ->
  Message.deleted m = false ->
  Message.senderId m = uid ->
  Js.blank content = false ->
  fst (Messages.editMessage ENCRYPTION_KEY env mid uid content db) = expired
  <-> (900000 < now env - Message.timestamp m)%Z.
Proof.
  intros Hm Hdel Hs Hc. unfold Messages.editMessage.
  rewrite Hc, Hm, Hdel, Hs, N.eqb_refl. simpl.
  destruct (Qle_bool _ 15) eqn:Hq; simpl.
  - apply minutesSince_15 in Hq. split; [|lia].
    destruct (encryptContent _ _) as [[e v]|]; [|done].
    destruct (preSave _ _ _) as [m2|]; [|done].
    by destruct (negb (saved env 0)).
  - split; [|done]. intros _.
    destruct (Z_le_gt_dec (now env - Message.timestamp m) 900000) as [Hle|Hgt]; [|lia].
    apply minutesSince_15 in Hle. congruence.
Qed.

(** An edit inside the window goes through when the key and the random
    bytes are 16 bytes long and the write succeeds. *)
Lemma editMessage_in_window env mid uid content db m :
  Messages.findById mid (messages db) = Some m ->
  Message.deleted m = false ->
  Message.senderId m = uid ->
  Js.blank content = false ->
  (now env - Message.timestamp m <= 900000)%Z ->
  String.length key = 16%nat ->
  String.length (randomBytes env 0) = 16%nat ->
  String.length (randomBytes env 1) = 16%nat ->
  saved env 0 = true ->
  ∃ c, fst (Messages.editMessage ENCRYPTION_KEY env mid uid content db)
       = Edited mid c true (now env).
Proof.
  intros Hm Hdel Hs Hc Hw Hk Hr0 Hr1 Hsv. unfold Messages.editMessage.
  rewrite Hc, Hm, Hdel, Hs, N.eqb_refl. simpl.
  apply minutesSince_15 in Hw. rewrite Hw. simpl.
  destruct (decrypt_encrypt (randomBytes env 0) (Js.trim content) Hk Hr0)
    as (c1 & _ & -> & _).
  unfold Messages.preSave. simpl.
  destruct (negb _ || negb _); simpl.
  - rewrite Hsv. simpl. rewrite (findById_id _ _ _ Hm). eauto.
  - destruct (decrypt_encrypt (randomBytes env 1) (Hex.encode c1) Hk Hr1)
      as (c2 & _ & -> & _).
    rewrite Hsv. simpl. rewrite (findById_id _ _ _ Hm). eauto.
Qed.

(** C5.  For a message that is not deleted, an edit by its sender with a
    content that is not blank is answered with "Time limit exceeded" exactly
    when more than 15 minutes have passed since the message's timestamp.
    An edit never changes the timestamp, so the window of every later edit
    is still counted from the time of sending.  At 14:59 after sending the
    edit goes through (given a 16-byte key and a successful write), at
    15:01 it is refused. *)
Theorem edit_window_counts_from_send_time
    (env : Env) (mid uid : ObjectId) (content : string) (db : DB) (m : Message.t) :
  Messages.findById mid (messages db) = Some m ->
  Message.deleted m = false ->
  Message.senderId m = uid ->
  Js.blank content = false ->
  let edit := Messages.editMessage ENCRYPTION_KEY in
  (fst (edit env mid uid content db) = expired
   <-> (15 * 60 * 1000 < now env - Message.timestamp m)%Z)
  ∧ (∀ env2 content2,
        Js.blank content2 = false ->
        fst (edit env2 mid uid content2 (snd (edit env mid uid content db))) = expired
        <-> (15 * 60 * 1000 < now env2 - Message.timestamp m)%Z)
  ∧ ((now env - Message.timestamp m = 14 * 60 * 1000 + 59 * 1000)%Z ->
     String.length key = 16%nat ->
     String.length (randomBytes env 0) = 16%nat ->
     String.length (randomBytes env 1) = 16%nat ->
     saved env 0 = true ->
     ∃ c, fst (edit env mid uid content db) = Edited mid c true (now env))
  ∧ ((now env - Message.timestamp m = 15 * 60 * 1000 + 1 * 1000)%Z ->
     fst (edit env mid uid content db) = expired).
Proof.
  intros Hm Hdel Hs Hc. simpl.
  pose proof (editMessage_expired env mid uid content db m Hm Hdel Hs Hc) as Hiff.
  split; [|split; [|split]].
  - rewrite Hiff. lia.
  - intros env2 content2 Hc2.
    destruct (editMessage_frame env mid uid content db m Hm) as (m1 & Hm1 & Hs1 & Hd1 & Ht1).
    rewrite (editMessage_expired env2 mid uid content2 _ m1 Hm1); [|congruence..|done].
    rewrite Ht1. lia.
  - intros Ht Hk Hr0 Hr1 Hsv. apply (editMessage_in_window env mid uid content db m); [done..|lia|done|done|done|done].
  - intros Ht. apply Hiff. lia.
Qed.

(** The route that sends a message stores a ciphertext that decrypts to
    the trimmed content: the save hook is the only place that encrypts. *)
Lemma sendMessage_round_trip env gid (uid : ObjectId) content db g :
  groups db !! gid = Some g ->
  Group.isMember g uid = true ->
  Js.blank content = false ->
  Messages.findById (newId env) (messages db) = None ->
  String.length key = 16%nat ->
  String.length (randomBytes env 0) = 16%nat ->
  saved env 0 = true ->
  ∃ m1, fst (Messages.sendMessage ENCRYPTION_KEY env gid uid content db)
        = Sent (newId env) gid uid (Js.trim content) (now env)
        ∧ messages (snd (Messages.sendMessage ENCRYPTION_KEY env gid uid content db))
          = messages db ++ [m1]
        ∧ getDecryptedContent m1 = Js.trim content.
Proof.
  intros Hg Hmem Hc Hnew Hk Hr Hsv. unfold Messages.sendMessage.
  rewrite Hc, Hg, Hmem. simpl. unfold Messages.preSave. simpl.
  destruct (decrypt_encrypt (randomBytes env 0) (Js.trim content) Hk Hr)
    as (c & _ & -> & Hd & _).
  simpl. rewrite Hnew, Hsv. simpl.
  unfold Messages.getDecryptedContent at 1. simpl. rewrite Hd.
  eexists. split; [reflexivity|]. split; [reflexivity|].
  unfold Messages.getDecryptedContent. simpl. by rewrite Hd.
Qed.

(** C1, as the code has it.  The edit route encrypts the trimmed content
    itself, under the first random iv, and assigns the hexadecimal
    ciphertext to [content]; [save()] then runs the save hook, which finds
    [content] modified and encrypts it once more, under a second random iv.
    What is stored is the encryption of the hexadecimal text of the first
    ciphertext, with the second iv; its decrypted view, which the route
    also returns, is that hexadecimal text and never the trimmed content. *)
Theorem edit_encrypts_the_content_twice
    (env : Env) (mid uid : ObjectId) (content : string) (db : DB) (m : Message.t) :
  Messages.findById mid (messages db) = Some m ->
  Message.deleted m = false ->
  Message.senderId m = uid ->
  Message.encrypted m = true ->
  Js.blank content = false ->
  (now env - Message.timestamp m <= 900000)%Z ->
  String.length key = 16%nat ->
  String.length (randomBytes env 0) = 16%nat ->
  String.length (randomBytes env 1) = 16%nat ->
  saved env 0 = true ->
  ∃ c1,
    cipher key (randomBytes env 0) (Js.trim content) = Some c1
    ∧ (Message.content m ≠ Hex.encode c1 ->
       ∃ m1,
         fst (Messages.editMessage ENCRYPTION_KEY env mid uid content db)
         = Edited mid (Hex.encode c1) true (now env)
         ∧ Messages.findById mid
             (messages (snd (Messages.editMessage ENCRYPTION_KEY env mid uid content db)))
           = Some m1
         ∧ Message.iv m1 = Some (Hex.encode (randomBytes env 1))
         ∧ getDecryptedContent m1 = Hex.encode c1
         ∧ getDecryptedContent m1 ≠ Js.trim content).
Proof.
  intros Hm Hdel Hs Henc Hc Hw Hk Hr0 Hr1 Hsv.
  destruct (decrypt_encrypt (randomBytes env 0) (Js.trim content) Hk Hr0)
    as (c1 & Hc1 & He1 & _ & Hlen).
  exists c1. split; [done|]. intros Hmod.
  destruct (decrypt_encrypt (randomBytes env 1) (Hex.encode c1) Hk Hr1)
    as (c2 & _ & He2 & Hd2 & _).
  unfold Messages.editMessage.
  rewrite Hc, Hm, Hdel, Hs, N.eqb_refl. simpl.
  apply minutesSince_15 in Hw. rewrite Hw. simpl. rewrite He1.
  unfold Messages.preSave, Messages.isModified. simpl.
  assert ((Message.content m =? Hex.encode c1)%string = false) as ->
      by (by apply String.eqb_neq).
  rewrite Henc. simpl. rewrite He2, Hsv. simpl.
  pose proof (findById_id _ _ _ Hm) as Hid.
  eexists. split; [|split; [|split; [|split]]].
  - unfold Messages.getDecryptedContent. simpl. rewrite Henc. simpl.
    rewrite Hd2, Hid. reflexivity.
  - by eapply findById_replace_eq.
  - reflexivity.
  - unfold Messages.getDecryptedContent. simpl. rewrite Henc. simpl. by rewrite Hd2.
  - unfold Messages.getDecryptedContent. simpl. rewrite Henc. simpl. rewrite Hd2.
    intros E. apply (f_equal String.length) in E.
    rewrite hex_encode_length in E. lia.
Qed.

(** ** Listing and search *)

(** The [n] newest of [ms], newest first, and the others. *)
Lemma newest_split (n : nat) (ms : list Message.t) :
  let sorted := Messages.sortNewestFirst ms in
  take n sorted ++ drop n sorted ≡ₚ ms
  ∧ StronglySorted Messages.newerFirst (take n sorted)
  ∧ (∀ m m', m ∈ take n sorted -> m' ∈ drop n sorted ->
             (Message.timestamp m' <= Message.timestamp m)%Z)
  ∧ List.length (take n sorted) = (n `min` List.length ms)%nat.
Proof.
  simpl. unfold Messages.sortNewestFirst.
  pose proof (StronglySorted_merge_sort Messages.newerFirst ms) as Hs.
  pose proof (merge_sort_Permutation Messages.newerFirst ms) as Hp.
  rewrite <- (take_drop n (merge_sort Messages.newerFirst ms)) in Hs.
  split; [by rewrite take_drop|].
  split; [by apply StronglySorted_app_1_l in Hs|].
  split; [intros m m' Hm Hm'; exact (StronglySorted_app_1_elem_of _ _ _ _ _ Hs Hm Hm')|].
  rewrite length_take. by rewrite (Permutation_length Hp).
Qed.

Lemma listed_spec gid before after m :
  Messages.listed gid before after m = true
  <-> Message.groupId m = gid ∧ Message.deleted m = false
      ∧ match before, after with
        | Some b, _ => (Message.timestamp m < b)%Z
        | None, Some a => (a < Message.timestamp m)%Z
        | None, None => True
        end.
Proof.
  unfold Messages.listed.
  rewrite !andb_true_iff, negb_true_iff, N.eqb_eq.
  destruct before as [b|], after as [a|]; rewrite ?Z.ltb_lt; tauto.
Qed.

Lemma searchable_spec gid m :
  Messages.searchable gid m = true
  <-> Message.groupId m = gid ∧ Message.deleted m = false.
Proof.
  unfold Messages.searchable. by rewrite andb_true_iff, negb_true_iff, N.eqb_eq.
Qed.

(** C7, as the code has it: for a positive limit.  For a member of the
    group and a limit of at least 1, the listing route returns a page of
    messages, and the messages of the collection that match the query split
    into this page and a rest, such that:
    - a message matches when it belongs to the group, is not deleted, and
      is older than [before] when [before] is given ([after] is then
      ignored), else newer than [after] when [after] is given;
    - the page is in ascending order of timestamp;
    - no message of the rest is newer than a message of the page, and the
      page holds [limit] messages, or all the matching ones when there are
      fewer: the page is the newest [limit] matching messages;
    - every line is the decrypted view of its message;
    - hasMore is true exactly when the number of lines equals [limit]. *)
Theorem listing_returns_the_newest_page_ascending
    (gid uid : ObjectId) (limit : Z) (before after : option Z) (db : DB) (g : Group.t) :
  groups db !! gid = Some g ->
  Group.isMember g uid = true ->
  (0 < limit)%Z ->
  ∃ (page rest : list Message.t) (hasMore : bool),
    Messages.getMessages ENCRYPTION_KEY gid uid limit before after db
    = Listing (map (Messages.view ENCRYPTION_KEY) page) hasMore
    ∧ page ++ rest ≡ₚ List.filter (Messages.listed gid before after) (messages db)
    ∧ (∀ m, m ∈ page ++ rest ->
            m ∈ messages db ∧ Message.groupId m = gid ∧ Message.deleted m = false
            ∧ match before, after with
              | Some b, _ => (Message.timestamp m < b)%Z
              | None, Some a => (a < Message.timestamp m)%Z
              | None, None => True
              end)
    ∧ StronglySorted (fun a b => (Message.timestamp a <= Message.timestamp b)%Z) page
    ∧ (∀ m m', m ∈ page -> m' ∈ rest ->
               (Message.timestamp m' <= Message.timestamp m)%Z)
    ∧ List.length page
      = (Z.to_nat limit
         `min` List.length (List.filter (Messages.listed gid before after) (messages db)))%nat
    ∧ (hasMore = true
       <-> Z.of_nat (List.length (map (Messages.view ENCRYPTION_KEY) page)) = limit).
Proof.
  intros Hg Hmem Hlim.
  set (all := List.filter (Messages.listed gid before after) (messages db)).
  destruct (newest_split (Z.to_nat limit) all) as (Hp & Hs & Hcross & Hlen).
  set (sorted := Messages.sortNewestFirst all) in *.
  exists (rev (take (Z.to_nat limit) sorted)), (drop (Z.to_nat limit) sorted).
  exists (Z.of_nat (List.length (take (Z.to_nat limit) sorted)) =? limit)%Z.
  split; [|split; [|split; [|split; [|split; [|split]]]]].
  - unfold Messages.getMessages. rewrite Hg, Hmem. simpl.
    unfold Messages.limitTo.
    assert ((limit =? 0)%Z = false) as -> by (apply Z.eqb_neq; lia).
    rewrite Zabs2Nat.abs_nat_nonneg by lia.
    fold all. fold sorted. by rewrite map_rev.
  - by rewrite <- Permutation_rev.
  - intros m Hm. rewrite <- Permutation_rev, Hp in Hm.
    apply list_elem_of_In, filter_In in Hm as [Hin Hl].
    apply listed_spec in Hl. split; [by apply list_elem_of_In | done].
  - apply (StronglySorted_rev _ _ Hs).
  - intros m m' Hm Hm'. apply Hcross; [|done].
    apply list_elem_of_In, in_rev. by apply list_elem_of_In.
  - by rewrite length_rev.
  - rewrite length_map, length_rev. apply Z.eqb_eq.
Qed.

(** The search loop, for a positive limit: the matches are collected in
    the order of the scan until there are [limit] of them. *)
Definition matches (searchTerm : string) (m : Message.t) : bool :=
  Js.includes (toLowerCase (getDecryptedContent m)) searchTerm.

Definition hitOf (m : Message.t) : Hit :=
  Messages.hit m (getDecryptedContent m).

Lemma scan_spec (limit : Z) (searchTerm : string) (msgs : list Message.t)
    (acc : list Hit) :
  (List.length acc < Z.to_nat limit)%nat ->
  Messages.scan ENCRYPTION_KEY limit searchTerm msgs acc
  = acc ++ take (Z.to_nat limit - List.length acc)
                (map hitOf (List.filter (matches searchTerm) msgs)).
Proof.
  revert acc. induction msgs as [|msg msgs IH]; intros acc Hacc.
  - simpl. by rewrite take_nil, app_nil_r.
  - cbn [Messages.scan List.filter]. fold (matches searchTerm msg).
    destruct (matches searchTerm msg) eqn:Hmatch.
    + rewrite length_app. cbn [List.length map].
      destruct (limit <=? Z.of_nat (List.length acc + 1))%Z eqn:Hfull.
      * apply Z.leb_le in Hfull.
        replace (Z.to_nat limit - List.length acc)%nat with 1%nat by lia.
        done.
      * apply Z.leb_gt in Hfull.
        rewrite IH by (rewrite length_app; simpl; lia).
        rewrite length_app. simpl.
        replace (Z.to_nat limit - List.length acc)%nat
          with (S (Z.to_nat limit - (List.length acc + 1)))%nat by lia.
        simpl. by rewrite <- app_assoc.
    + assert ((limit <=? Z.of_nat (List.length acc))%Z = false) as ->
          by (apply Z.leb_gt; lia).
      by apply IH.
Qed.

(** C8, as the code has it: for a positive limit.  For a member of the
    group, a query that is not blank and a limit of at least 1, the search
    route looks at a window of messages, and the messages of the group that
    are not deleted split into this window and the older ones, such that:
    - the window is newest first, holds 500 messages, or all of them when
      there are fewer, and no older message is newer than a message of the
      window: the window is the 500 most recent messages that are not
      deleted;
    - the results are the first [limit] messages of the window, in its
      order, whose decrypted content contains the query, both in lower
      case: the scan stops once [limit] matches are collected;
    - there are at most [limit] results, and none of them is a deleted
      message. *)
Theorem search_scans_the_recent_window
    (gid uid : ObjectId) (q : string) (limit : Z) (db : DB) (g : Group.t) :
  groups db !! gid = Some g ->
  Group.isMember g uid = true ->
  Js.blank q = false ->
  (0 < limit)%Z ->
  ∃ window older found : list Message.t,
    Messages.searchMessages ENCRYPTION_KEY gid uid q limit db
    = Found (map hitOf found) q (List.length found)
    ∧ window ++ older ≡ₚ List.filter (Messages.searchable gid) (messages db)
    ∧ StronglySorted Messages.newerFirst window
    ∧ (∀ m m', m ∈ window -> m' ∈ older ->
               (Message.timestamp m' <= Message.timestamp m)%Z)
    ∧ List.length window
      = (500 `min` List.length (List.filter (Messages.searchable gid) (messages db)))%nat
    ∧ found = take (Z.to_nat limit) (List.filter (matches (toLowerCase q)) window)
    ∧ (Z.of_nat (List.length (map hitOf found)) <= limit)%Z
    ∧ (∀ m, m ∈ found ->
            m ∈ messages db ∧ Message.groupId m = gid ∧ Message.deleted m = false
            ∧ Js.includes (toLowerCase (getDecryptedContent m)) (toLowerCase q) = true).
Proof.
  intros Hg Hmem Hq Hlim.
  set (all := List.filter (Messages.searchable gid) (messages db)).
  destruct (newest_split 500 all) as (Hp & Hs & Hcross & Hlen).
  set (sorted := Messages.sortNewestFirst all) in *.
  set (window := take 500 sorted) in *.
  exists window, (drop 500 sorted),
    (take (Z.to_nat limit) (List.filter (matches (toLowerCase q)) window)).
  split; [|split; [|split; [|split; [|split; [|split; [|split]]]]]]; try done.
  - unfold Messages.searchMessages. rewrite Hq, Hg, Hmem. simpl.
    unfold Messages.limitTo. simpl. fold all. fold sorted.
    change (take (Pos.to_nat 500) sorted) with window.
    rewrite scan_spec by (simpl; lia). simpl. rewrite Nat.sub_0_r.
    rewrite <- !firstn_map. by rewrite !length_take, !length_map.
  - rewrite length_map, length_take. lia.
  - intros m Hm. apply subseteq_take in Hm.
    apply list_elem_of_In, filter_In in Hm as [Hin Hmatch].
    assert (Hall : m ∈ all).
    { rewrite <- Hp. apply elem_of_app. left. by apply list_elem_of_In. }
    apply list_elem_of_In, filter_In in Hall as [Hdb Hsearch].
    apply searchable_spec in Hsearch as [Hgid Hdel].
    split; [by apply list_elem_of_In | done].
Qed.

End WithNode.

Lemma edit_encrypts_the_content_twice_witness :
  Messages.findById 300 (messages Examples.helloStore) = Some Examples.hello
  ∧ (2000 - Message.timestamp Examples.hello <= 900000)%Z
  ∧ ∃ c1,
      Sample.cipher "defaultkey123456" "0123456789abcdef" "hi" = Some c1
      ∧ (Message.content Examples.hello ≠ Hex.encode c1 ->
         ∃ m1,
           fst (@Messages.editMessage Sample.node None (Examples.env 2000 0) 300 1 " hi "
                                      Examples.helloStore)
           = Edited 300 (Hex.encode c1) true 2000
           ∧ Messages.findById 300
               (messages (snd (@Messages.editMessage Sample.node None (Examples.env 2000 0)
                                                     300 1 " hi " Examples.helloStore)))
             = Some m1
           ∧ Message.iv m1 = Some (Hex.encode "fedcba9876543210")
           ∧ @Messages.getDecryptedContent Sample.node None m1 = Hex.encode c1
           ∧ @Messages.getDecryptedContent Sample.node None m1 ≠ "hi").
Proof.
  split; [vm_compute; reflexivity|]. split; [vm_compute; discriminate|].
  apply (@edit_encrypts_the_content_twice Sample.node None (Examples.env 2000 0) 300 1
           " hi " Examples.helloStore Examples.hello);
    first [reflexivity | (vm_compute; reflexivity) | (vm_compute; discriminate)].
Defined.

Lemma edit_window_counts_from_send_time_witness :
  Messages.findById 300 (messages Examples.helloStore) = Some Examples.hello
  ∧ (∃ c, fst (@Messages.editMessage Sample.node None (Examples.env 900000 0) 300 1 "hi"
                                     Examples.helloStore)
          = Edited 300 c true 900000)
  ∧ fst (@Messages.editMessage Sample.node None (Examples.env 902000 0) 300 1 "hi"
                               Examples.helloStore)
    = expired.
Proof.
  assert (Hm : Messages.findById 300 (messages Examples.helloStore) = Some Examples.hello)
    by (vm_compute; reflexivity).
  split; [exact Hm|]. split.
  - apply (@edit_window_counts_from_send_time Sample.node None (Examples.env 900000 0)
             300 1 "hi" Examples.helloStore Examples.hello Hm);
      reflexivity.
  - apply (@edit_window_counts_from_send_time Sample.node None (Examples.env 902000 0)
             300 1 "hi" Examples.helloStore Examples.hello Hm);
      reflexivity.
Defined.

Lemma delete_sets_only_the_deleted_flags_witness :
  Messages.findById 300 (messages Examples.helloStore) = Some Examples.hello
  ∧ fst (@Messages.deleteMessage Sample.node None (Examples.env 5000 0) 300 1
                                 Examples.helloStore)
    = Done 200 "Message deleted successfully"
  ∧ Messages.findById 300
      (messages (snd (@Messages.deleteMessage Sample.node None (Examples.env 5000 0) 300 1
                                              Examples.helloStore)))
    = Some (Message.set_deleted Examples.hello true (Some 5000%Z)).
Proof.
  assert (Hm : Messages.findById 300 (messages Examples.helloStore) = Some Examples.hello)
    by (vm_compute; reflexivity).
  destruct (@delete_sets_only_the_deleted_flags Sample.node None (Examples.env 5000 0)
              300 1 Examples.helloStore Examples.hello Hm eq_refl) as [_ Hok].
  destruct (Hok (or_introl eq_refl) eq_refl) as (Hr & _).
  split; [exact Hm|]. split; [exact Hr|]. vm_compute. reflexivity.
Defined.

(** C7, against the claim as stated.  The limit is passed to the query as
    parsed, and MongoDB reads a limit of 0 as no limit: with [limit = 0] the
    listing of the group 200, which holds two messages that are not deleted,
    returns both of them and not the newest 0, with hasMore false. *)
Lemma listing_with_limit_zero_returns_every_message :
  @Messages.getMessages Sample.node None 200 1 0 None None Examples.chatStore
  = Listing [ mkListed 300 200 1 "hello" 1000 false None;
              mkListed 301 200 1 "Hello World" 2000 false None ] false.
Proof. vm_compute. reflexivity. Qed.

Lemma listing_returns_the_newest_page_ascending_witness :
  groups Examples.chatStore !! 200%N = Some Examples.lobby
  ∧ @Messages.getMessages Sample.node None 200 1 1 None None Examples.chatStore
    = Listing [mkListed 301 200 1 "Hello World" 2000 false None] true
  ∧ ∃ (page rest : list Message.t) (hasMore : bool),
      @Messages.getMessages Sample.node None 200 1 1 None None Examples.chatStore
      = Listing (map (@Messages.view Sample.node None) page) hasMore
      ∧ page ++ rest
        ≡ₚ List.filter (Messages.listed 200 None None) (messages Examples.chatStore)
      ∧ (∀ m, m ∈ page ++ rest ->
              m ∈ messages Examples.chatStore ∧ Message.groupId m = 200%N
              ∧ Message.deleted m = false ∧ True)
      ∧ StronglySorted (fun a b => (Message.timestamp a <= Message.timestamp b)%Z) page
      ∧ (∀ m m', m ∈ page -> m' ∈ rest ->
                 (Message.timestamp m' <= Message.timestamp m)%Z)
      ∧ List.length page
        = (Z.to_nat 1
           `min` List.length
                   (List.filter (Messages.listed 200 None None)
                                (messages Examples.chatStore)))%nat
      ∧ (hasMore = true
         <-> Z.of_nat (List.length (map (@Messages.view Sample.node None) page)) = 1%Z).
Proof.
  split; [vm_compute; reflexivity|]. split; [vm_compute; reflexivity|].
  apply (@listing_returns_the_newest_page_ascending Sample.node None 200 1 1 None None
           Examples.chatStore Examples.lobby);
    first [reflexivity | (vm_compute; reflexivity)].
Defined.

(** C8, against the claim as stated.  The loop compares the number of
    results with the limit only after it has pushed a match: with
    [limit = 0] the search for "HELLO" in the group 200 returns one result,
    the newest match, and not at most 0. *)
Lemma search_with_limit_zero_returns_a_match :
  @Messages.searchMessages Sample.node None 200 1 "HELLO" 0 Examples.chatStore
  = Found [mkHit 301 200 1 "Hello World" 2000 false] "HELLO" 1.
Proof. vm_compute. reflexivity. Qed.

Lemma search_scans_the_recent_window_witness :
  groups Examples.chatStore !! 200%N = Some Examples.lobby
  ∧ @Messages.searchMessages Sample.node None 200 1 "HELLO" 1 Examples.chatStore
    = Found [mkHit 301 200 1 "Hello World" 2000 false] "HELLO" 1
  ∧ ∃ window older found : list Message.t,
      @Messages.searchMessages Sample.node None 200 1 "HELLO" 1 Examples.chatStore
      = Found (map (@hitOf Sample.node None) found) "HELLO" (List.length found)
      ∧ window ++ older
        ≡ₚ List.filter (Messages.searchable 200) (messages Examples.chatStore)
      ∧ StronglySorted Messages.newerFirst window
      ∧ (∀ m m', m ∈ window -> m' ∈ older ->
                 (Message.timestamp m' <= Message.timestamp m)%Z)
      ∧ List.length window
        = (500 `min` List.length
                       (List.filter (Messages.searchable 200)
                                    (messages Examples.chatStore)))%nat
      ∧ found
        = take (Z.to_nat 1)
               (List.filter (@matches Sample.node None (Sample.toLowerCase "HELLO")) window)
      ∧ (Z.of_nat (List.length (map (@hitOf Sample.node None) found)) <= 1)%Z
      ∧ (∀ m, m ∈ found ->
              m ∈ messages Examples.chatStore ∧ Message.groupId m = 200%N
              ∧ Message.deleted m = false
              ∧ Js.includes
                  (Sample.toLowerCase (@Messages.getDecryptedContent Sample.node None m))
                  (Sample.toLowerCase "HELLO") = true).
Proof.
  split; [vm_compute; reflexivity|]. split; [vm_compute; reflexivity|].
  apply (@search_scans_the_recent_window Sample.node None 200 1 "HELLO" 1
           Examples.chatStore Examples.lobby);
    first [reflexivity | (vm_compute; reflexivity)].
Defined.

End MessageStore.

(* ================================================================== *)
(** * What one request does to the groups *)
(* ================================================================== *)

Module Steps.
Import Groups Membership.

(** The document [createGroup] builds. *)
Definition created (env : Env) (u : ObjectId) (n : string) (ty : GroupType)
    (m : option Q) : Group.t :=
  Group.mk (Js.trim n) ty u [u] (orNull m) [] [] (now env) (now env).

(** [change env t g r g1]: the request [r], which spells the id of its
    group as the text [t], passes the guards of its route on the stored
    group [g], and the route hands [g1] to [group.save()]. *)
Inductive change (env : Env) (t : IdText.t) (g : Group.t)
  : Request -> Group.t -> Prop :=
| change_join (u : ObjectId) :
    Group.isMember g u = false -> Group.isBanned g u = false ->
    Group.full g = false -> Group.type g = Public ->
    change env t g (JoinGroup t u)
      (Group.set_members g (Group.members g ++ [u]))
| change_ask (u : ObjectId) :
    Group.isMember g u = false -> Group.isBanned g u = false ->
    Group.full g = false -> Group.type g = Private ->
    Group.hasPendingRequest g u = false ->
    change env t g (JoinGroup t u)
      (Group.set_joinRequests g
         (Group.joinRequests g ++ [JoinRequest.mk (newId env) u (now env) Pending]))
| change_leave (u : ObjectId) :
    Group.isMember g u = true -> Group.owner g ≠ u ->
    change env t g (LeaveGroup t u)
      (Group.set_members g (without u (Group.members g)))
| change_transfer (o : ObjectId) :
    Group.isMember g o = true ->
    change env t g (TransferOwnership t (Group.owner g) (Some (IdText.canonical o)))
      (Group.set_owner g o)
| change_banish (x : ObjectId) :
    x ≠ Group.owner g -> Group.isMember g x = true ->
    change env t g (BanishUser t (Group.owner g) (Some (IdText.canonical x)))
      (Group.set_bannedUsers
         (Group.set_members g (without x (Group.members g)))
         (Group.bannedUsers g ++ [Ban.mk x (now env) (Group.owner g)]))
| change_approve rid i jr :
    Group.request (Group.joinRequests g) rid = Some (i, jr) ->
    JoinRequest.status jr = Pending -> Group.full g = false ->
    change env t g (ApproveJoinRequest t (Group.owner g) (Some rid))
      (Group.set_members
         (Group.set_joinRequests g
            (<[i := JoinRequest.set_status jr Approved]> (Group.joinRequests g)))
         (Group.members g ++ [JoinRequest.userId jr]))
| change_decline rid i jr :
    Group.request (Group.joinRequests g) rid = Some (i, jr) ->
    JoinRequest.status jr = Pending ->
    change env t g (DeclineJoinRequest t (Group.owner g) (Some rid))
      (Group.set_joinRequests g
         (<[i := JoinRequest.set_status jr Declined]> (Group.joinRequests g))).

(** What a request makes of the collection of groups. *)
Inductive effect (env : Env) (r : Request) (gs : gmap ObjectId Group.t)
  : gmap ObjectId Group.t -> Prop :=
| effect_none : effect env r gs gs
| effect_change t g g1 :
    gs !! IdText.id t = Some g -> change env t g r g1 ->
    effect env r gs (<[IdText.id t := Group.set_updatedAt g1 (now env)]> gs)
| effect_create u n t ty m :
    r = CreateGroup u n t m -> gs !! newId env = None ->
    groupType t = Some ty -> belowTwo m = false ->
    validName (Js.trim n) = true ->
    effect env r gs
      (<[newId env := Group.set_updatedAt (created env u n ty m) (now env)]> gs)
| effect_delete t g :
    r = DeleteGroup t (Group.owner g) -> gs !! IdText.id t = Some g ->
    (List.length (Group.members g) <= 1)%nat ->
    effect env r gs (delete (IdText.id t) gs).

(** A text that passes [isMember] is the written form of its id. *)
Lemma isMember_canonical (g : Group.t) (t : IdText.t) :
  Group.isMember g t = true -> t = IdText.canonical (IdText.id t).
Proof.
  intros Hmem. apply isMember_text in Hmem as [Hw _].
  destruct t as [i w]. simpl in Hw. by subst w.
Qed.

Lemma handle_effect env r db :
  effect env r (groups db) (groups (snd (handle env r db))).
Proof.
  destruct r as [u n t m | k u | k u | k u | k u o | k u t | k u rid | k u rid]; simpl.
  - unfold createGroup.
    destruct (Js.falsy n || Js.falsy t); [constructor|].
    destruct (groupType t) as [ty|] eqn:Hty; [|constructor].
    destruct (belowTwo m) eqn:Hm; [constructor|].
    cbn [Group.name].
    destruct (validName (Js.trim n)) eqn:Hn; simpl; [|constructor].
    destruct (bool_decide (is_Some (groups db !! newId env))) eqn:Hnew;
      simpl; [constructor|].
    apply bool_decide_eq_false in Hnew.
    assert (groups db !! newId env = None) as Hnone.
    { destruct (groups db !! newId env) eqn:E; [|done]. destruct Hnew. eauto. }
    destruct (negb (saved env 0)); [constructor|].
    destruct (negb (saved env 1)); simpl; rewrite ?groups_pushUserGroup;
      by eapply effect_create.
  - unfold joinGroup.
    destruct (groups db !! IdText.id k) as [g|] eqn:Hg; [|constructor].
    destruct (Group.isMember g u) eqn:Hmem; [constructor|].
    destruct (Group.isBanned g u) eqn:Hban; [constructor|].
    destruct (Group.full g) eqn:Hfull; [constructor|].
    destruct (Group.type g) eqn:Hty.
    + destruct (negb (saved env 0)); [constructor|].
      assert (effect env (JoinGroup k u) (groups db)
                (<[IdText.id k := Group.set_updatedAt
                          (Group.set_members g (Group.members g ++ [u])) (now env)]>
                   (groups db))) as He.
      { eapply effect_change; [done|]. by constructor. }
      destruct (users db !! u); [|done].
      by destruct (negb (saved env 1)).
    + destruct (users db !! u) as [usr|]; [|constructor].
      destruct (negb (User.canRejoinPrivateGroup (now env) usr k)); [constructor|].
      destruct (Group.hasPendingRequest g u) eqn:Hpend; [constructor|].
      destruct (negb (saved env 0)); simpl; [constructor|].
      eapply effect_change; [done|]. by constructor.
  - unfold leaveGroup.
    destruct (groups db !! IdText.id k) as [g|] eqn:Hg; [|constructor].
    destruct (Group.isMember g u) eqn:Hmem; simpl; [|constructor].
    destruct (Group.owner g =? u)%N eqn:Hown; [constructor|].
    apply N.eqb_neq in Hown.
    destruct (negb (saved env 0)); [constructor|].
    assert (effect env (LeaveGroup k u) (groups db)
              (<[IdText.id k := Group.set_updatedAt
                        (Group.set_members g (without u (Group.members g))) (now env)]>
                 (groups db))) as He.
    { eapply effect_change; [done|]. by constructor. }
    destruct (users db !! u); [|done].
    by destruct (negb (saved env 1)).
  - unfold deleteGroup.
    destruct (groups db !! IdText.id k) as [g|] eqn:Hg; [|constructor].
    destruct (Group.owner g =? u)%N eqn:Hown; simpl; [|constructor].
    apply N.eqb_eq in Hown. subst u.
    destruct (1 <? List.length (Group.members g))%nat eqn:Hlen; [constructor|].
    apply Nat.ltb_ge in Hlen.
    destruct (negb (saved env 0)); [constructor|].
    destruct (negb (saved env 1)); [constructor|].
    destruct (negb (saved env 2)); [constructor|].
    simpl. by eapply effect_delete.
  - unfold transferOwnership.
    destruct o as [o|]; [|constructor].
    destruct (groups db !! IdText.id k) as [g|] eqn:Hg; [|constructor].
    destruct (Group.owner g =? u)%N eqn:Hown; simpl; [|constructor].
    apply N.eqb_eq in Hown. subst u.
    destruct (Group.isMember g o) eqn:Hmem; simpl; [|constructor].
    rewrite (isMember_canonical g o Hmem) in Hmem |- * at 1.
    destruct (negb (saved env 0)); simpl; [constructor|].
    eapply effect_change; [done|]. by constructor.
  - unfold banishUser.
    destruct t as [t|]; [|constructor].
    destruct (groups db !! IdText.id k) as [g|] eqn:Hg; [|constructor].
    destruct (users db !! IdText.id t) as [tu|]; [|constructor].
    destruct (Group.owner g =? u)%N eqn:Hown; simpl; [|constructor].
    apply N.eqb_eq in Hown. subst u.
    destruct (IdText.equals (Group.owner g) t) eqn:Hself; [constructor|].
    destruct (Group.isMember g t) eqn:Hmem; simpl; [|constructor].
    pose proof (isMember_canonical g t Hmem) as Ht.
    destruct t as [x w]. simpl in Ht. injection Ht as ->. simpl.
    change (IdText.mk x true) with (IdText.canonical x) in *.
    rewrite equals_canonical in Hself. apply N.eqb_neq in Hself.
    destruct (negb (saved env 0)); [constructor|].
    assert (effect env (BanishUser k (Group.owner g) (Some (IdText.canonical x)))
              (groups db)
              (<[IdText.id k := Group.set_updatedAt
                   (Group.set_bannedUsers
                      (Group.set_members g (without x (Group.members g)))
                      (Group.bannedUsers g ++ [Ban.mk x (now env) (Group.owner g)]))
                   (now env)]> (groups db))) as He.
    { eapply effect_change; [done|]. constructor; [congruence | done]. }
    by destruct (negb (saved env 1)).
  - unfold approveRequest.
    destruct rid as [rid|]; [|constructor].
    destruct (groups db !! IdText.id k) as [g|] eqn:Hg; [|constructor].
    destruct (Group.owner g =? u)%N eqn:Hown; simpl; [|constructor].
    apply N.eqb_eq in Hown. subst u.
    destruct (Group.request (Group.joinRequests g) rid) as [[i jr]|] eqn:Hreq;
      [|constructor].
    destruct (RequestStatus_eqb (JoinRequest.status jr) Pending) eqn:Hst;
      simpl; [|constructor].
    apply status_eqb_spec in Hst.
    destruct (Group.full g) eqn:Hfull; [constructor|].
    destruct (negb (saved env 0)); [constructor|].
    destruct (negb (saved env 1)); simpl; rewrite ?groups_pushUserGroup;
      (eapply effect_change; [done|]; by econstructor).
  - unfold declineRequest.
    destruct rid as [rid|]; [|constructor].
    destruct (groups db !! IdText.id k) as [g|] eqn:Hg; [|constructor].
    destruct (Group.owner g =? u)%N eqn:Hown; simpl; [|constructor].
    apply N.eqb_eq in Hown. subst u.
    destruct (Group.request (Group.joinRequests g) rid) as [[i jr]|] eqn:Hreq;
      [|constructor].
    destruct (RequestStatus_eqb (JoinRequest.status jr) Pending) eqn:Hst;
      simpl; [|constructor].
    apply status_eqb_spec in Hst.
    destruct (negb (saved env 0)); simpl; [constructor|].
    eapply effect_change; [done|]. by econstructor.
Qed.

(** A group other than the one deleted, or any group when the request is
    not a deletion, is found again after the request, as it was or as the
    route changed it. *)
Lemma handle_tracks (R : Group.t -> Group.t -> Prop) env r db gid g :
  R g g ->
  (∀ t g1, IdText.id t = gid -> change env t g r g1 ->
           R g (Group.set_updatedAt g1 (now env))) ->
  groups db !! gid = Some g ->
  (∀ t u, r = DeleteGroup t u -> IdText.id t ≠ gid) ->
  ∃ g1, groups (snd (handle env r db)) !! gid = Some g1 ∧ R g g1.
Proof.
  intros Hrefl Hch Hg Hdel.
  destruct (handle_effect env r db) as [|k g0 g1 Hk Hc|u n t ty m _ Hnew _ _ _|k g0 Hr _ _].
  - eauto.
  - destruct (decide (IdText.id k = gid)) as [E|Hne].
    + rewrite E, lookup_insert_eq. assert (g0 = g) as -> by congruence. eauto.
    + rewrite lookup_insert_ne by done. eauto.
  - rewrite lookup_insert_ne; [eauto|]. intros E. congruence.
  - rewrite lookup_delete_ne; [eauto|]. exact (Hdel _ _ Hr).
Qed.

(** A property that creation establishes and every accepted request keeps
    holds of every stored group after the request. *)
Lemma handle_keeps (P : Group.t -> Prop) env r db :
  (∀ u n ty m, belowTwo m = false ->
     P (Group.set_updatedAt (created env u n ty m) (now env))) ->
  (∀ t g g1, P g -> change env t g r g1 -> P (Group.set_updatedAt g1 (now env))) ->
  (∀ gid g, groups db !! gid = Some g -> P g) ->
  ∀ gid g, groups (snd (handle env r db)) !! gid = Some g -> P g.
Proof.
  intros Hnew Hch Hdb gid g.
  destruct (handle_effect env r db) as [|k g0 g1 Hk Hc|u n t ty m _ _ _ Hm _|k g0 _ _ _].
  - apply Hdb.
  - rewrite lookup_insert. case_decide; [|apply Hdb].
    intros [= <-]. eapply Hch; [|done]. by eapply Hdb.
  - rewrite lookup_insert. case_decide; [|apply Hdb].
    intros [= <-]. by apply Hnew.
  - rewrite lookup_delete. case_decide; [done|apply Hdb].
Qed.

Lemma isBanned_spec (g : Group.t) (u : ObjectId) :
  Group.isBanned g u = true <-> ∃ b, b ∈ Group.bannedUsers g ∧ Ban.userId b = u.
Proof.
  unfold Group.isBanned. rewrite existsb_exists. split.
  - intros (b & Hin & Heq). apply N.eqb_eq in Heq.
    exists b. split; [by apply list_elem_of_In | done].
  - intros (b & Hin & Heq). exists b. split; [by apply list_elem_of_In|].
    by apply N.eqb_eq.
Qed.

Lemma hasPendingRequest_spec (g : Group.t) (u : ObjectId) :
  Group.hasPendingRequest g u = true
  <-> ∃ r, r ∈ Group.joinRequests g ∧ JoinRequest.userId r = u
           ∧ JoinRequest.status r = Pending.
Proof.
  unfold Group.hasPendingRequest. rewrite existsb_exists. split.
  - intros (r & Hin & Heq). apply andb_true_iff in Heq as [Hu Hs].
    apply N.eqb_eq in Hu. apply status_eqb_spec in Hs.
    exists r. split; [by apply list_elem_of_In | done].
  - intros (r & Hin & Hu & Hs). exists r. split; [by apply list_elem_of_In|].
    apply andb_true_iff. split; [by apply N.eqb_eq | by apply status_eqb_spec].
Qed.

(** ** The roster *)

(** Nobody is listed twice as a member; no member is banned; whoever has a
    request pending is neither a member nor banned, and has one such request
    only; a public group has no join request. *)
Definition rosterOk (g : Group.t) : Prop :=
  NoDup (Group.members g)
  ∧ (∀ u : ObjectId, u ∈ Group.members g -> Group.isBanned g u = false)
  ∧ (∀ r, r ∈ Group.joinRequests g -> JoinRequest.status r = Pending ->
          (JoinRequest.userId r ∉ Group.members g)
          ∧ Group.isBanned g (JoinRequest.userId r) = false)
  ∧ (∀ i j r r',
        Group.joinRequests g !! i = Some r -> Group.joinRequests g !! j = Some r' ->
        JoinRequest.status r = Pending -> JoinRequest.status r' = Pending ->
        JoinRequest.userId r = JoinRequest.userId r' -> i = j)
  ∧ (Group.type g = Public -> Group.joinRequests g = []).

Lemma NoDup_without (id : IdText.t) (l : list ObjectId) : NoDup l -> NoDup (without id l).
Proof.
  induction l as [|x l IH]; [done|].
  rewrite NoDup_cons. intros [Hx Hl]. unfold without. simpl.
  destruct (negb (IdText.equals x id)); [|by apply IH].
  apply NoDup_cons. split; [|by apply IH].
  intros Hin. apply elem_of_without_text in Hin as [Hin _]. done.
Qed.

(** The requests that are pending once the request at [i], which was
    pending, is decided: those that were pending at another place. *)
Lemma decided_lookup (rs : list JoinRequest.t) rid i jr s j r :
  Group.request rs rid = Some (i, jr) ->
  s ≠ Pending ->
  <[i := JoinRequest.set_status jr s]> rs !! j = Some r ->
  JoinRequest.status r = Pending ->
  j ≠ i ∧ rs !! j = Some r.
Proof.
  intros Hreq Hs Hj Hr. apply request_spec in Hreq as [Hi _].
  destruct (decide (j = i)) as [->|Hne].
  - rewrite list_lookup_insert_eq in Hj by (by eapply lookup_lt_Some).
    injection Hj as <-. simpl in Hr. done.
  - rewrite list_lookup_insert_ne in Hj by done. done.
Qed.

Lemma change_rosterOk env t g r g1 :
  rosterOk g -> change env t g r g1 -> rosterOk g1.
Proof.
  intros (Hnd & Hmb & Hpm & Hone & Hpub) Hc.
  destruct Hc as [u Hmem Hban Hfull Hty | u Hmem Hban Hfull Hty Hpend
                 | u Hmem Hown | o Hmem | x Hself Hmem
                 | rid i jr Hreq Hst Hfull | rid i jr Hreq Hst].
  - (* a public join *)
    assert (u ∉ Group.members g) as Hnot.
    { intros Hin. apply isMember_spec in Hin. congruence. }
    split; [|split; [|split; [|split]]]; simpl.
    + apply NoDup_app. split; [done|]. split; [|apply NoDup_singleton].
      intros x Hx Hx'. apply list_elem_of_singleton in Hx'. by subst.
    + intros x Hx. apply elem_of_app in Hx as [Hx|Hx]; [by apply Hmb|].
      apply list_elem_of_singleton in Hx. by subst.
    + rewrite (Hpub Hty). intros r Hr. by apply elem_of_nil in Hr.
    + exact Hone.
    + exact Hpub.
  - (* a request to join a private group *)
    assert (u ∉ Group.members g) as Hnot.
    { intros Hin. apply isMember_spec in Hin. congruence. }
    assert (∀ r, r ∈ Group.joinRequests g -> JoinRequest.status r = Pending ->
                 JoinRequest.userId r ≠ u) as Hfresh.
    { intros r Hr Hs Hu.
      assert (Group.hasPendingRequest g u = true); [|congruence].
      apply hasPendingRequest_spec. eauto. }
    split; [|split; [|split; [|split]]]; simpl.
    + exact Hnd.
    + exact Hmb.
    + intros r Hr Hs. apply elem_of_app in Hr as [Hr|Hr]; [by apply Hpm|].
      apply list_elem_of_singleton in Hr. subst r. simpl. done.
    + intros i j r r' Hi Hj Hs Hs' Hu.
      apply lookup_app_Some in Hi as [Hi|[Hli Hi]];
        apply lookup_app_Some in Hj as [Hj|[Hlj Hj]].
      * eauto.
      * apply list_lookup_singleton_Some in Hj as [_ <-]. simpl in Hu.
        destruct (Hfresh r); eauto using list_elem_of_lookup_2.
      * apply list_lookup_singleton_Some in Hi as [_ <-]. simpl in Hu.
        destruct (Hfresh r'); eauto using list_elem_of_lookup_2.
      * apply list_lookup_singleton_Some in Hi as [Hi _].
        apply list_lookup_singleton_Some in Hj as [Hj _]. lia.
    + congruence.
  - (* leaving *)
    split; [|split; [|split; [|split]]]; simpl.
    + by apply NoDup_without.
    + intros x Hx. apply elem_of_without in Hx as [Hx _]. by apply Hmb.
    + intros r Hr Hs. destruct (Hpm r Hr Hs) as [Hn Hb]. split; [|done].
      intros Hin. apply elem_of_without in Hin as [Hin _]. done.
    + exact Hone.
    + exact Hpub.
  - (* a transfer *)
    done.
  - (* a ban *)
    assert (∀ y : ObjectId, y ≠ x ->
              Group.isBanned
                (Group.set_bannedUsers
                   (Group.set_members g (without x (Group.members g)))
                   (Group.bannedUsers g ++ [Ban.mk x (now env) (Group.owner g)])) y
              = Group.isBanned g y) as Hother.
    { intros y Hy. unfold Group.isBanned. simpl. rewrite existsb_app. simpl.
      rewrite equals_canonical.
      apply N.eqb_neq in Hy. rewrite (N.eqb_sym x y), Hy. by rewrite !orb_false_r. }
    split; [|split; [|split; [|split]]].
    + by apply NoDup_without.
    + intros y Hy. simpl in Hy. apply elem_of_without in Hy as [Hy Hne].
      rewrite Hother by done. by apply Hmb.
    + intros r Hr Hs. destruct (Hpm r Hr Hs) as [Hn Hb]. split.
      * simpl. intros Hin. apply elem_of_without in Hin as [Hin _]. done.
      * rewrite Hother; [done|]. intros E. apply isMember_spec in Hmem. congruence.
    + exact Hone.
    + exact Hpub.
  - (* an approval *)
    pose proof (request_spec _ _ _ _ Hreq) as [Hi _].
    destruct (Hpm jr (list_elem_of_lookup_2 _ _ _ Hi) Hst) as [Hnot Hnb].
    split; [|split; [|split; [|split]]]; simpl.
    + apply NoDup_app. split; [done|]. split; [|apply NoDup_singleton].
      intros x Hx Hx'. apply list_elem_of_singleton in Hx'. by subst.
    + intros x Hx. apply elem_of_app in Hx as [Hx|Hx]; [by apply Hmb|].
      apply list_elem_of_singleton in Hx. by subst.
    + intros r Hr Hs. apply list_elem_of_lookup in Hr as [j Hj].
      destruct (decided_lookup _ _ _ _ Approved _ _ Hreq ltac:(done) Hj Hs) as [Hne Hj'].
      destruct (Hpm r (list_elem_of_lookup_2 _ _ _ Hj') Hs) as [Hn Hb].
      split; [|done]. intros Hin. apply elem_of_app in Hin as [Hin|Hin]; [done|].
      apply list_elem_of_singleton in Hin.
      destruct Hne. by apply (Hone j i r jr).
    + intros j j' r r' Hj Hj' Hs Hs' Hu.
      destruct (decided_lookup _ _ _ _ Approved _ _ Hreq ltac:(done) Hj Hs) as [_ Hj0].
      destruct (decided_lookup _ _ _ _ Approved _ _ Hreq ltac:(done) Hj' Hs') as [_ Hj0'].
      eauto.
    + intros Hty. rewrite (Hpub Hty) in Hi. done.
  - (* a refusal *)
    pose proof (request_spec _ _ _ _ Hreq) as [Hi _].
    split; [|split; [|split; [|split]]]; simpl.
    + exact Hnd.
    + exact Hmb.
    + intros r Hr Hs. apply list_elem_of_lookup in Hr as [j Hj].
      destruct (decided_lookup _ _ _ _ Declined _ _ Hreq ltac:(done) Hj Hs) as [Hne Hj'].
      exact (Hpm r (list_elem_of_lookup_2 _ _ _ Hj') Hs).
    + intros j j' r r' Hj Hj' Hs Hs' Hu.
      destruct (decided_lookup _ _ _ _ Declined _ _ Hreq ltac:(done) Hj Hs) as [_ Hj0].
      destruct (decided_lookup _ _ _ _ Declined _ _ Hreq ltac:(done) Hj' Hs') as [_ Hj0'].
      eauto.
    + intros Hty. rewrite (Hpub Hty) in Hi. done.
Qed.

Lemma created_rosterOk env u n ty m : rosterOk (created env u n ty m).
Proof.
  split; [|split; [|split; [|split]]]; simpl.
  - apply NoDup_singleton.
  - done.
  - intros r Hr. by apply elem_of_nil in Hr.
  - intros i j r r' Hi. done.
  - done.
Qed.

Definition rosters (db : DB) : Prop :=
  ∀ gid g, groups db !! gid = Some g -> rosterOk g.

Lemma handle_rosters env r db : rosters db -> rosters (snd (handle env r db)).
Proof.
  intros Hdb. unfold rosters. apply (handle_keeps rosterOk); [| |done].
  - intros u n ty m _. exact (created_rosterOk env u n ty m).
  - intros t g g1 Hg Hc. exact (change_rosterOk env t g r g1 Hg Hc).
Qed.

End Steps.

(* ================================================================== *)
(** * Rosters, bans and settings through any run of requests *)
(* ================================================================== *)

Module Scenes.
Import Groups.

(** User 1 creates the public group Lobby, user 2 joins it and is banished
    by user 1. *)
Definition banRun : list (Env * Request) :=
  [ (Examples.env 1000 200, CreateGroup 1 "Lobby" "public" None);
    (Examples.env 2000 0, JoinGroup (IdText.canonical 200) 2);
    (Examples.env 3000 0, BanishUser (IdText.canonical 200) 1 (Some (IdText.canonical 2))) ].

Definition banStore : DB := run banRun Examples.threeUsers.

Definition lobbyAfterBan : Group.t :=
  Group.mk "Lobby" Public 1 [1%N] None [] [Ban.mk 2 3000 1] 1000 3000.

(** Then user 3 joins and becomes the owner. *)
Definition laterRun : list (Env * Request) :=
  [ (Examples.env 4000 0, JoinGroup (IdText.canonical 200) 3);
    (Examples.env 5000 0, TransferOwnership (IdText.canonical 200) 1 (Some (IdText.canonical 3))) ].

Definition lobbyLater : Group.t :=
  Group.mk "Lobby" Public 3 [1%N; 3%N] None [] [Ban.mk 2 3000 1] 1000 5000.


(** The message of [Examples.chatStore] that is deleted. *)
Definition bye : Message.t :=
  Message.mk 302 200 1 "362d315f4c544f51504d5d5d5d5d5d5d" true
             (Some "30313233343536373839616263646566") 3000 false None
             true (Some 4000%Z).

End Scenes.

Module GroupProperties.
Import Groups Membership Steps.

Lemma run_rosters rs db : rosters db -> rosters (run rs db).
Proof.
  revert db. induction rs as [|[env r] rs IH]; intros db Hdb; simpl; [done|].
  apply IH. by apply handle_rosters.
Qed.

Lemma no_group_rosters db : groups db = ∅ -> rosters db.
Proof. intros E gid g. by rewrite E, lookup_empty. Qed.



(** ** Bans *)

(** Every accepted request keeps the ban records and adds at most one. *)
Lemma change_bans env t g r g1 :
  change env t g r g1 ->
  ∃ bs, Group.bannedUsers g1 = Group.bannedUsers g ++ bs.
Proof.
  destruct 1; simpl; first [by exists []; rewrite app_nil_r | by eexists].
Qed.

Lemma isBanned_app g g1 bs (u : IdText.t) :
  Group.bannedUsers g1 = Group.bannedUsers g ++ bs ->
  Group.isBanned g u = true -> Group.isBanned g1 u = true.
Proof.
  unfold Group.isBanned. intros ->. rewrite existsb_app. by intros ->.
Qed.

(** A request that does not delete the group leaves a banned user banned. *)
Lemma handle_banned env r db gid g (uid : ObjectId) :
  groups db !! gid = Some g ->
  Group.isBanned g uid = true ->
  (∀ t u, r = DeleteGroup t u -> IdText.id t ≠ gid) ->
  ∃ g1, groups (snd (handle env r db)) !! gid = Some g1
        ∧ Group.isBanned g1 uid = true.
Proof.
  intros Hg Hban Hr.
  apply (handle_tracks (fun _ g1 => Group.isBanned g1 uid = true) env r db gid g);
    [done| |done|done].
  intros t g1 _ Hc. destruct (change_bans _ _ _ _ _ Hc) as [bs Hbs].
  by apply (isBanned_app g _ bs).
Qed.

(** A user banned from a group stays banned and out of the members. *)
Lemma banned_stays_out rs db gid g (uid : ObjectId) :
  rosters db ->
  groups db !! gid = Some g ->
  Group.isBanned g uid = true ->
  neverDeletes gid rs ->
  ∃ g1, groups (run rs db) !! gid = Some g1
        ∧ Group.isBanned g1 uid = true
        ∧ Group.isMember g1 uid = false.
Proof.
  intros Hros Hg Hban Hrs.
  assert (∃ g1, groups (run rs db) !! gid = Some g1 ∧ Group.isBanned g1 uid = true)
    as (g1 & Hg1 & Hban1).
  { clear Hros. revert db g Hg Hban.
    induction Hrs as [|[e r] rs Hr _ IH]; intros db g Hg Hban; simpl; [eauto|].
    destruct (handle_banned e r db gid g uid Hg Hban Hr) as (g1 & Hg1 & Hb1).
    by eapply IH. }
  exists g1. split; [done|]. split; [done|].
  apply not_true_iff_false. intros Hm. apply isMember_spec in Hm.
  destruct (run_rosters rs db Hros gid g1 Hg1) as (_ & Hmb & _).
  rewrite (Hmb uid Hm) in Hban1. done.
Qed.

(** X2.  No route lifts a ban.  Once a user is banned from a group, through
    any run of requests that does not delete the group the user stays
    banned and is never a member again, and each of the user's requests to
    join, however it spells the id of the group, is answered 403 "Access
    denied" and leaves the store as it is.
    The text of that answer points to the owner for reinstatement; the
    owner has no request to grant it with. *)
Theorem a_ban_is_never_lifted
    (rs : list (Env * Request)) (env : Env) (db : DB) (gid uid : ObjectId)
    (g : Group.t) :
  rosters db ->
  groups db !! gid = Some g ->
  Group.isBanned g uid = true ->
  neverDeletes gid rs ->
  (∃ g1, groups (run rs db) !! gid = Some g1
         ∧ Group.isBanned g1 uid = true
         ∧ Group.isMember g1 uid = false)
  ∧ ∀ t : IdText.t, IdText.id t = gid ->
      joinGroup env t uid (run rs db)
      = (Err 403 "Access denied"
           "You have been banned from this group. Contact the owner to request reinstatement.",
         run rs db).
Proof.
  intros Hros Hg Hban Hrs.
  destruct (banned_stays_out rs db gid g uid Hros Hg Hban Hrs)
    as (g1 & Hg1 & Hban1 & Hmem).
  split; [eauto|]. intros t Ht.
  unfold joinGroup. by rewrite Ht, Hg1, Hmem, Hban1.
Qed.

Lemma a_ban_is_never_lifted_witness :
  groups Scenes.banStore !! 200%N = Some Scenes.lobbyAfterBan
  ∧ Group.isBanned Scenes.lobbyAfterBan (IdText.canonical 2) = true
  ∧ groups (run Scenes.laterRun Scenes.banStore) !! 200%N = Some Scenes.lobbyLater
  ∧ fst (joinGroup (Examples.env 6000 0) (IdText.canonical 200) 2 (run Scenes.laterRun Scenes.banStore))
    = Err 403 "Access denied"
        "You have been banned from this group. Contact the owner to request reinstatement.".
Proof.
  assert (H0 : rosters Scenes.banStore).
  { apply run_rosters, no_group_rosters. reflexivity. }
  assert (H1 : groups Scenes.banStore !! 200%N = Some Scenes.lobbyAfterBan)
    by (vm_compute; reflexivity).
  assert (H2 : Group.isBanned Scenes.lobbyAfterBan (IdText.canonical 2) = true) by reflexivity.
  assert (H3 : neverDeletes 200 Scenes.laterRun).
  { repeat constructor; simpl; discriminate. }
  destruct (a_ban_is_never_lifted Scenes.laterRun (Examples.env 6000 0)
              Scenes.banStore 200 2 _ H0 H1 H2 H3) as [_ Hjoin].
  split; [exact H1|]. split; [exact H2|].
  split; [vm_compute; reflexivity|].
  by rewrite (Hjoin (IdText.canonical 200) eq_refl).
Defined.


(** ** Settings and records *)

(** What no request changes in a group: its name, type, capacity and date
    of creation; the ban records, to which records are only added; the join
    requests, to which requests are only added and of which only the status
    is ever written. *)
Record evolves (g g1 : Group.t) : Prop := mkEvolves
  { ev_name : Group.name g1 = Group.name g;
    ev_type : Group.type g1 = Group.type g;
    ev_maxMembers : Group.maxMembers g1 = Group.maxMembers g;
    ev_createdAt : Group.createdAt g1 = Group.createdAt g;
    ev_bans : Group.bannedUsers g `prefix_of` Group.bannedUsers g1;
    ev_requests :
      ∀ i r, Group.joinRequests g !! i = Some r ->
        ∃ r1, Group.joinRequests g1 !! i = Some r1
              ∧ JoinRequest._id r1 = JoinRequest._id r
              ∧ JoinRequest.userId r1 = JoinRequest.userId r
              ∧ JoinRequest.requestedAt r1 = JoinRequest.requestedAt r }.

Lemma evolves_refl g : evolves g g.
Proof. split; eauto. Qed.

Lemma evolves_trans g1 g2 g3 : evolves g1 g2 -> evolves g2 g3 -> evolves g1 g3.
Proof.
  intros [] []. split; try congruence.
  - by etrans.
  - intros i r Hr.
    destruct (ev_requests0 i r Hr) as (r1 & Hr1 & ? & ? & ?).
    destruct (ev_requests1 i r1 Hr1) as (r2 & Hr2 & ? & ? & ?).
    exists r2. repeat split; congruence.
Qed.

Lemma decided_evolves (rs : list JoinRequest.t) rid i jr s j r :
  Group.request rs rid = Some (i, jr) ->
  rs !! j = Some r ->
  ∃ r1, <[i := JoinRequest.set_status jr s]> rs !! j = Some r1
        ∧ JoinRequest._id r1 = JoinRequest._id r
        ∧ JoinRequest.userId r1 = JoinRequest.userId r
        ∧ JoinRequest.requestedAt r1 = JoinRequest.requestedAt r.
Proof.
  intros Hreq Hj. apply request_spec in Hreq as [Hi _].
  destruct (decide (j = i)) as [->|Hne].
  - rewrite list_lookup_insert_eq by (by eapply lookup_lt_Some).
    assert (r = jr) as -> by congruence. eauto.
  - rewrite list_lookup_insert_ne by done. eauto.
Qed.

Lemma change_evolves env t g r g1 :
  change env t g r g1 -> evolves g (Group.set_updatedAt g1 (now env)).
Proof.
  destruct 1; split; simpl; try done; eauto;
    try (by apply prefix_app_r).
  - intros i r Hr. exists r. split; [by apply lookup_app_l_Some | done].
  - intros j r Hr. by eapply decided_evolves.
  - intros j r Hr. by eapply decided_evolves.
Qed.

Lemma run_evolves rs db gid g :
  groups db !! gid = Some g -> neverDeletes gid rs ->
  ∃ g1, groups (run rs db) !! gid = Some g1 ∧ evolves g g1.
Proof.
  intros Hg Hrs. revert db g Hg.
  induction Hrs as [|[e r] rs Hr _ IH]; intros db g Hg; simpl.
  - eauto using evolves_refl.
  - destruct (handle_tracks evolves e r db gid g) as (g1 & Hg1 & He1);
      [apply evolves_refl | intros t gx _; apply change_evolves | done | done |].
    destruct (IH _ _ Hg1) as (g2 & Hg2 & He2).
    eauto using evolves_trans.
Qed.

Lemma handle_validName env r db :
  (∀ gid g, groups db !! gid = Some g -> validName (Group.name g) = true) ->
  ∀ gid g, groups (snd (handle env r db)) !! gid = Some g ->
           validName (Group.name g) = true.
Proof.
  intros Hdb gid g.
  destruct (handle_effect env r db) as [|k g0 g1 Hk Hc|u n t ty m _ _ _ _ Hn|k g0 _ _ _].
  - apply Hdb.
  - rewrite lookup_insert. case_decide; [|apply Hdb].
    intros [= <-]. destruct (change_evolves _ _ _ _ _ Hc) as [-> _ _ _ _ _]. eauto.
  - rewrite lookup_insert. case_decide; [|apply Hdb]. by intros [= <-].
  - rewrite lookup_delete. case_decide; [done|apply Hdb].
Qed.

(** X3.  The settings of a group are checked when it is created and no
    route writes them afterwards.  Start from a store with no group and run
    any sequence of requests: every group of the resulting store has a name
    that is not empty and at most 100 characters long, and a maxMembers that
    is unset or at least 2.
    Through any further run of requests that does not delete the group, its
    name, type, maxMembers and createdAt are the same. *)
Theorem group_settings_are_fixed_at_creation
    (rs : list (Env * Request)) (db : DB) (gid : ObjectId) (g : Group.t) :
  groups db = ∅ ->
  groups (run rs db) !! gid = Some g ->
  validName (Group.name g) = true
  ∧ (∀ m, Group.maxMembers g = Some m -> (2 <= m)%Q)
  ∧ ∀ rs2, neverDeletes gid rs2 ->
      ∃ g1, groups (run rs2 (run rs db)) !! gid = Some g1
            ∧ Group.name g1 = Group.name g
            ∧ Group.type g1 = Group.type g
            ∧ Group.maxMembers g1 = Group.maxMembers g
            ∧ Group.createdAt g1 = Group.createdAt g.
Proof.
  intros Hempty Hg. split; [|split].
  - revert gid g Hg.
    assert (∀ k x, groups db !! k = Some x -> validName (Group.name x) = true) as Hdb.
    { intros k x. by rewrite Hempty, lookup_empty. }
    clear Hempty. revert db Hdb.
    induction rs as [|[e r] rs IH]; intros db Hdb; simpl; [done|].
    apply IH. by apply handle_validName.
  - intros m Hm.
    assert (storeOk db) as Hok by (intros k x; by rewrite Hempty, lookup_empty).
    destruct (run_ok rs db Hok gid g Hg) as [_ Hmax]. by destruct (Hmax m Hm).
  - intros rs2 Hrs2.
    destruct (run_evolves rs2 (run rs db) gid g Hg Hrs2) as (g1 & Hg1 & []).
    eauto 10.
Qed.

Lemma group_settings_are_fixed_at_creation_witness :
  groups Examples.threeUsers = ∅
  ∧ groups (run Scenes.banRun Examples.threeUsers) !! 200%N = Some Scenes.lobbyAfterBan
  ∧ validName (Group.name Scenes.lobbyAfterBan) = true
  ∧ ∃ g1, groups (run Scenes.laterRun (run Scenes.banRun Examples.threeUsers)) !! 200%N
          = Some g1
          ∧ Group.name g1 = "Lobby"
          ∧ Group.type g1 = Public
          ∧ Group.maxMembers g1 = None
          ∧ Group.createdAt g1 = 1000%Z.
Proof.
  assert (H1 : groups Examples.threeUsers = ∅) by reflexivity.
  assert (H2 : groups (run Scenes.banRun Examples.threeUsers) !! 200%N
               = Some Scenes.lobbyAfterBan) by (vm_compute; reflexivity).
  assert (H3 : neverDeletes 200 Scenes.laterRun).
  { repeat constructor; simpl; discriminate. }
  destruct (group_settings_are_fixed_at_creation _ _ _ _ H1 H2) as (Hn & _ & Hfix).
  split; [exact H1|]. split; [exact H2|]. split; [exact Hn|].
  exact (Hfix Scenes.laterRun H3).
Defined.

(** X4.  The records of a group are a history: through any run of requests
    that does not delete the group, every ban record is still there, at its
    place and unchanged, and every join request is still there, at its
    place, with its id, its requestor and its date of request.  Approving
    and declining write the status of a request and nothing else of it; no
    route removes a request or a ban. *)
Theorem bans_and_join_requests_are_never_removed
    (rs : list (Env * Request)) (db : DB) (gid : ObjectId) (g : Group.t) :
  groups db !! gid = Some g ->
  neverDeletes gid rs ->
  ∃ g1, groups (run rs db) !! gid = Some g1
        ∧ (∀ i b, Group.bannedUsers g !! i = Some b -> Group.bannedUsers g1 !! i = Some b)
        ∧ (∀ i r, Group.joinRequests g !! i = Some r ->
             ∃ r1, Group.joinRequests g1 !! i = Some r1
                   ∧ JoinRequest._id r1 = JoinRequest._id r
                   ∧ JoinRequest.userId r1 = JoinRequest.userId r
                   ∧ JoinRequest.requestedAt r1 = JoinRequest.requestedAt r).
Proof.
  intros Hg Hrs.
  destruct (run_evolves rs db gid g Hg Hrs) as (g1 & Hg1 & He).
  exists g1. split; [done|]. split.
  - intros i b Hb. destruct (ev_bans _ _ He) as [bs ->]. by apply lookup_app_l_Some.
  - apply (ev_requests _ _ He).
Qed.

Lemma bans_and_join_requests_are_never_removed_witness :
  groups Examples.alphaPendingStore !! 100%N = Some Examples.alphaPending
  ∧ ∃ g1, groups (run [(Examples.env 3000 102, ApproveJoinRequest (IdText.canonical 100) 1 (Some 101%N));
                       (Examples.env 4000 0, BanishUser (IdText.canonical 100) 1 (Some (IdText.canonical 2)))]
                      Examples.alphaPendingStore) !! 100%N = Some g1
          ∧ ∃ r1, Group.joinRequests g1 !! 0%nat = Some r1
                  ∧ JoinRequest._id r1 = 101%N
                  ∧ JoinRequest.userId r1 = 2%N
                  ∧ JoinRequest.requestedAt r1 = 2000%Z.
Proof.
  assert (H1 : groups Examples.alphaPendingStore !! 100%N = Some Examples.alphaPending)
    by reflexivity.
  split; [exact H1|].
  destruct (bans_and_join_requests_are_never_removed
              [(Examples.env 3000 102, ApproveJoinRequest (IdText.canonical 100) 1 (Some 101%N));
               (Examples.env 4000 0, BanishUser (IdText.canonical 100) 1 (Some (IdText.canonical 2)))]
              Examples.alphaPendingStore 100 _ H1)
    as (g1 & Hg1 & _ & Hreq).
  { repeat constructor; simpl; discriminate. }
  exists g1. split; [exact Hg1|].
  exact (Hreq 0%nat (JoinRequest.mk 101 2 2000 Pending) eq_refl).
Defined.

(** ** Who can change what *)

Lemma handle_same_or_changed env r db gid g g1 :
  groups db !! gid = Some g ->
  groups (snd (handle env r db)) !! gid = Some g1 ->
  g1 = g
  ∨ ∃ t gx, IdText.id t = gid ∧ change env t g r gx
            ∧ g1 = Group.set_updatedAt gx (now env).
Proof.
  intros Hg.
  destruct (handle_effect env r db) as [|k g0 gx Hk Hc|u n t ty m _ Hnew _ _ _|k g0 _ _ _].
  - left. congruence.
  - rewrite lookup_insert. case_decide as Hk'.
    + rewrite Hk' in Hk. assert (g0 = g) as -> by congruence. intros [= <-].
      right. eauto.
    + left. congruence.
  - rewrite lookup_insert. case_decide as Hk'; [congruence|]. left. congruence.
  - rewrite lookup_delete. case_decide; [done|]. left. congruence.
Qed.

(** X5.  Ownership changes hands in one way only.  If the owner of a stored
    group is another user after a request, whatever the request, then the
    request was a transfer of this group made by the owner, to that user,
    who was a member; its URL spells the id of the group in some way, and
    its body names the new owner the way [toString()] writes the id. *)
Theorem ownership_moves_only_by_the_owners_transfer
    (env : Env) (r : Request) (db : DB) (gid : ObjectId) (g g1 : Group.t) :
  groups db !! gid = Some g ->
  groups (snd (handle env r db)) !! gid = Some g1 ->
  Group.owner g1 ≠ Group.owner g ->
  (∃ t : IdText.t,
      IdText.id t = gid
      ∧ r = TransferOwnership t (Group.owner g)
              (Some (IdText.canonical (Group.owner g1))))
  ∧ Group.isMember g (Group.owner g1) = true.
Proof.
  intros Hg Hg1 Hne.
  destruct (handle_same_or_changed env r db gid g g1 Hg Hg1)
    as [->|(t & gx & Ht & Hc & ->)]; [done|].
  destruct Hc; simpl in *; try done. eauto.
Qed.

Lemma ownership_moves_only_by_the_owners_transfer_witness :
  let r := TransferOwnership (IdText.canonical 100) 1 (Some (IdText.canonical 2)) in
  groups Examples.alphaFullStore !! 100%N = Some Examples.alphaFull
  ∧ Group.owner <$> groups (snd (handle (Examples.env 5000 0) r Examples.alphaFullStore))
                      !! 100%N = Some 2%N
  ∧ (∃ t : IdText.t,
        IdText.id t = 100%N
        ∧ r = TransferOwnership t (Group.owner Examples.alphaFull)
                (Some (IdText.canonical 2)))
  ∧ Group.isMember Examples.alphaFull (IdText.canonical 2) = true.
Proof.
  assert (H1 : groups Examples.alphaFullStore !! 100%N = Some Examples.alphaFull)
    by reflexivity.
  split; [exact H1|]. split; [vm_compute; reflexivity|].
  apply (ownership_moves_only_by_the_owners_transfer (Examples.env 5000 0)
           (TransferOwnership (IdText.canonical 100) 1 (Some (IdText.canonical 2))) Examples.alphaFullStore 100
           Examples.alphaFull
           (Group.set_updatedAt (Group.set_owner Examples.alphaFull 2) 5000) H1).
  - vm_compute. reflexivity.
  - simpl. discriminate.
Defined.

(** X6.  Membership changes through its own routes only.  If a member of a
    stored group is no longer one after a request, the request was this
    member's own leave or a banishment by the owner.  If a user who was not
    a member is one after a request, the request was this user's own join
    of a public group, or the owner's approval of a pending request of this
    user; so nobody enters a private group without the owner's approval.
    In each case the URL of the request spells the id of the group in some
    way. *)
Theorem members_come_and_go_only_through_their_routes
    (env : Env) (r : Request) (db : DB) (gid uid : ObjectId) (g g1 : Group.t) :
  groups db !! gid = Some g ->
  groups (snd (handle env r db)) !! gid = Some g1 ->
  (Group.isMember g uid = true -> Group.isMember g1 uid = false ->
   ∃ t : IdText.t,
     IdText.id t = gid
     ∧ (r = LeaveGroup t uid
        ∨ r = BanishUser t (Group.owner g) (Some (IdText.canonical uid))))
  ∧ (Group.isMember g uid = false -> Group.isMember g1 uid = true ->
     ∃ t : IdText.t,
       IdText.id t = gid
       ∧ ((r = JoinGroup t uid ∧ Group.type g = Public)
          ∨ ∃ rid i jr,
              r = ApproveJoinRequest t (Group.owner g) (Some rid)
              ∧ Group.request (Group.joinRequests g) rid = Some (i, jr)
              ∧ JoinRequest.userId jr = uid
              ∧ JoinRequest.status jr = Pending)).
Proof.
  intros Hg Hg1.
  destruct (handle_same_or_changed env r db gid g g1 Hg Hg1)
    as [->|(t & gx & Ht & Hc & ->)]; [split; congruence|].
  assert (∀ x, Group.isMember (Group.set_updatedAt gx (now env)) x = Group.isMember gx x)
    as Hsame by done.
  rewrite Hsame. clear Hsame Hg Hg1.
  split.
  - intros Hin Hout. exists t. split; [done|]. apply isMember_spec in Hin.
    apply not_true_iff_false in Hout. rewrite isMember_spec in Hout.
    destruct Hc; simpl in Hout; try done.
    + destruct Hout. apply elem_of_app. by left.
    + destruct (decide (uid = u)) as [->|Hne]; [by left|].
      destruct Hout. by apply elem_of_without.
    + destruct (decide (uid = x)) as [->|Hne]; [by right|].
      destruct Hout. by apply elem_of_without.
    + destruct Hout. apply elem_of_app. by left.
  - intros Hout Hin. exists t. split; [done|]. apply isMember_spec in Hin.
    apply not_true_iff_false in Hout. rewrite isMember_spec in Hout.
    destruct Hc; simpl in Hin; try done.
    + apply elem_of_app in Hin as [Hin|Hin]; [done|].
      apply list_elem_of_singleton in Hin as ->. by left.
    + apply elem_of_without in Hin as [Hin _]. done.
    + apply elem_of_without in Hin as [Hin _]. done.
    + apply elem_of_app in Hin as [Hin|Hin]; [done|].
      apply list_elem_of_singleton in Hin. right. eauto 10.
Qed.

Lemma members_come_and_go_only_through_their_routes_witness :
  let r := ApproveJoinRequest (IdText.canonical 100) 1 (Some 101%N) in
  groups Examples.alphaPendingStore !! 100%N = Some Examples.alphaPending
  ∧ groups (snd (handle (Examples.env 3000 102) r Examples.alphaPendingStore)) !! 100%N
    = Some Examples.alpha
  ∧ Group.isMember Examples.alphaPending (IdText.canonical 2) = false
  ∧ Group.isMember Examples.alpha (IdText.canonical 2) = true
  ∧ ∃ t : IdText.t,
      IdText.id t = 100%N
      ∧ ((r = JoinGroup t 2 ∧ Group.type Examples.alphaPending = Public)
         ∨ ∃ rid i jr,
             r = ApproveJoinRequest t (Group.owner Examples.alphaPending) (Some rid)
             ∧ Group.request (Group.joinRequests Examples.alphaPending) rid = Some (i, jr)
             ∧ JoinRequest.userId jr = 2%N
             ∧ JoinRequest.status jr = Pending).
Proof.
  assert (H1 : groups Examples.alphaPendingStore !! 100%N = Some Examples.alphaPending)
    by reflexivity.
  assert (H2 : groups (snd (handle (Examples.env 3000 102)
                              (ApproveJoinRequest (IdText.canonical 100) 1 (Some 101%N))
                              Examples.alphaPendingStore)) !! 100%N
               = Some Examples.alpha) by (vm_compute; reflexivity).
  split; [exact H1|]. split; [exact H2|].
  split; [reflexivity|]. split; [reflexivity|].
  exact (proj2 (members_come_and_go_only_through_their_routes _ _ _ 100 2 _ _ H1 H2)
               eq_refl eq_refl).
Defined.

End GroupProperties.

(* ================================================================== *)
(** * The two sides of a membership *)
(* ================================================================== *)

(** A membership is written twice: the user's id in the members of the
    group, the group's id in the groups of the user. *)
Module Agreement.
Import Groups Membership.



Lemma users_pushUserGroup t gid db uid :
  users (pushUserGroup t gid db) !! uid
  = if decide (uid = t)
    then (fun u => User.set_groups u (User.groups u ++ [gid])) <$> users db !! uid
    else users db !! uid.
Proof.
  unfold pushUserGroup. case_decide as E.
  - subst uid. destruct (users db !! t) as [u|] eqn:Hu; simpl.
    + by rewrite lookup_insert_eq.
    + by rewrite Hu.
  - destruct (users db !! t) as [u|]; simpl; [|done].
    by rewrite lookup_insert_ne.
Qed.








(** X20.  In another spelling than [toString()] writes, a leave that
    succeeds takes the user out of the members of the group and leaves the
    group on the user's list: the filter of [user.groups] compares each
    stored id with the text of the URL and drops nothing. *)
Theorem a_respelled_leave_keeps_the_group_on_the_users_list
    (env : Env) (t : IdText.t) (uid : ObjectId) (db : DB) (g : Group.t) (u : User.t) :
  IdText.written t = false ->
  groups db !! IdText.id t = Some g ->
  users db !! uid = Some u ->
  fst (leaveGroup env t uid db) = Done 200 "Successfully left the group" ->
  ∃ g1 u1,
    groups (snd (leaveGroup env t uid db)) !! IdText.id t = Some g1
    ∧ Group.isMember g1 uid = false
    ∧ users (snd (leaveGroup env t uid db)) !! uid = Some u1
    ∧ User.groups u1 = User.groups u.
Proof.
  intros Hw Hg Hu. unfold leaveGroup. rewrite Hg.
  destruct (negb (Group.isMember g uid)); [done|].
  destruct (Group.owner g =? uid)%N; [done|].
  destruct (negb (saved env 0)); [done|].
  rewrite Hu.
  destruct (negb (saved env 1)); [done|].
  intros _. simpl. rewrite !lookup_insert_eq. do 2 eexists.
  split; [done|]. split; [|split; [done|]].
  - apply not_true_iff_false. rewrite isMember_spec. simpl.
    rewrite elem_of_without. tauto.
  - destruct (Group.type g); simpl; by rewrite without_respelled.
Qed.

Lemma a_respelled_leave_keeps_the_group_on_the_users_list_witness :
  let db := run (take 3 Examples.leaveTwiceRun) Examples.threeUsers in
  let db1 := snd (leaveGroup (Examples.env 4000 103) Examples.upper100 2 db) in
  User.groups <$> users db !! 2%N = Some [100%N]
  ∧ fst (leaveGroup (Examples.env 4000 103) Examples.upper100 2 db)
    = Done 200 "Successfully left the group"
  ∧ Group.members <$> groups db1 !! 100%N = Some [1%N]
  ∧ ∃ g1 u1,
      groups db1 !! 100%N = Some g1
      ∧ Group.isMember g1 (IdText.canonical 2) = false
      ∧ users db1 !! 2%N = Some u1
      ∧ User.groups u1 = [100%N].
Proof.
  intros db db1.
  assert (H1 : ∃ g, groups db !! 100%N = Some g) by (eexists; vm_compute; reflexivity).
  destruct H1 as [g H1].
  assert (H2 : users db !! 2%N = Some (User.mk [100%N] [] []))
    by (vm_compute; reflexivity).
  assert (H3 : fst (leaveGroup (Examples.env 4000 103) Examples.upper100 2 db)
               = Done 200 "Successfully left the group") by (vm_compute; reflexivity).
  split; [vm_compute; reflexivity|]. split; [exact H3|].
  split; [vm_compute; reflexivity|].
  exact (a_respelled_leave_keeps_the_group_on_the_users_list
           (Examples.env 4000 103) Examples.upper100 2 db g _ eq_refl H1 H2 H3).
Defined.

End Agreement.

(* ================================================================== *)
(** * routes/groups.js: the list of pending join requests *)
(* ================================================================== *)

Module Requests.
Import Groups.

(** One line of [GET /groups/:groupId/requests].  [r_user] is the
    populated [userId]: the user's document, which the model knows by its
    id, or null ([None]) when no user has this id. *)
Record Line := mkLine
  { r_id : ObjectId; r_user : option ObjectId; r_requestedAt : Z;
    r_status : RequestStatus }.

(** [.populate("joinRequests.userId", "username email")]. *)
Definition populate (db : DB) (userId : ObjectId) : option ObjectId :=
  match users db !! userId with
  | Some _ => Some userId
  | None => None
  end.

Definition line (db : DB) (req : JoinRequest.t) : Line :=
  mkLine (JoinRequest._id req) (populate db (JoinRequest.userId req))
         (JoinRequest.requestedAt req) (JoinRequest.status req).

(** [(req) => req.status === "pending"]. *)
Definition pending (req : JoinRequest.t) : bool :=
  RequestStatus_eqb (JoinRequest.status req) Pending.

(** [router.get("/:groupId/requests")]: an error, or the [requests] of the
    body.  The route uses the text of the URL in [Group.findById] only:
    [groupId] is the id the text is cast to. *)
Definition getRequests (groupId userId : ObjectId) (db : DB)
  : Response + list Line :=
  match groups db !! groupId with
  | None => inl (Err 404 "Group not found" "")
  | Some group =>
      if negb (N.eqb (Group.owner group) userId) then
        inl (Err 403 "Access denied" "Only the group owner can view join requests")
      else
        inr (map (line db) (List.filter pending (Group.joinRequests group)))
  end.

(** The request [joinRequests.id] finds is the first one with this id. *)
Lemma request_first rs rid i r :
  Group.request rs rid = Some (i, r) ->
  ∀ x, x ∈ take i rs -> JoinRequest._id x ≠ rid.
Proof.
  revert i. induction rs as [|y rs IH]; intros i; simpl; [done|].
  destruct (JoinRequest._id y =? rid)%N eqn:E.
  - intros [= <- <-] x Hx. by apply elem_of_nil in Hx.
  - destruct (Group.request rs rid) as [[j r']|]; simpl; [|done].
    intros [= <- <-] x Hx. simpl in Hx.
    apply elem_of_cons in Hx as [->|Hx]; [by apply N.eqb_neq | by eapply IH].
Qed.

(** Deciding the pending request at [i] takes it out of the pending ones
    and leaves the others in place. *)
Lemma pending_decided (rs : list JoinRequest.t) i jr s :
  rs !! i = Some jr ->
  pending jr = true ->
  s ≠ Pending ->
  List.filter pending rs
  = List.filter pending (take i rs) ++ jr :: List.filter pending (drop (S i) rs)
  ∧ List.filter pending (<[i := JoinRequest.set_status jr s]> rs)
    = List.filter pending (take i rs) ++ List.filter pending (drop (S i) rs).
Proof.
  intros Hi Hp Hs. split.
  - rewrite <- (take_drop_middle rs i jr Hi) at 1.
    rewrite List.filter_app. simpl. by rewrite Hp.
  - rewrite insert_take_drop by (by eapply lookup_lt_Some).
    rewrite List.filter_app. simpl.
    assert (pending (JoinRequest.set_status jr s) = false) as ->; [|done].
    unfold pending. simpl. by destruct s.
Qed.

Lemma populate_pushUserGroup t gid db uid :
  populate (pushUserGroup t gid db) uid = populate db uid.
Proof.
  unfold populate. rewrite Agreement.users_pushUserGroup.
  case_decide; [|done]. by destruct (users db !! uid).
Qed.

(** X8.  The owner's list of pending requests follows the requests.  The
    list is the owner's alone: any other user is answered 403.  A request
    to join that is accepted ("Join request sent successfully") adds one
    line at the end of the list, with the new id, the requestor, the time
    of the request and the status pending.  An approval or a refusal that
    succeeds removes one line, the first one with the id of the request,
    and leaves the other lines as they were, in their order.  The URL of
    the join, the approval and the refusal may spell the id of the group in
    any way. *)
Theorem the_pending_list_follows_the_requests
    (env : Env) (t : IdText.t) (db : DB) (g : Group.t) :
  groups db !! (IdText.id t) = Some g ->
  let listed := map (line db) (List.filter pending (Group.joinRequests g)) in
  getRequests (IdText.id t) (Group.owner g) db = inr listed
  ∧ (∀ uid, uid ≠ Group.owner g ->
       getRequests (IdText.id t) uid db
       = inl (Err 403 "Access denied" "Only the group owner can view join requests"))
  ∧ (∀ uid,
       fst (joinGroup env t uid db) = Done 200 "Join request sent successfully" ->
       getRequests (IdText.id t) (Group.owner g) (snd (joinGroup env t uid db))
       = inr (listed ++ [mkLine (newId env) (Some uid) (now env) Pending]))
  ∧ (∀ rid,
       fst (approveRequest env t (Group.owner g) (Some rid) db)
       = Done 200 "Request approved successfully" ->
       ∃ before x after,
         listed = before ++ x :: after
         ∧ r_id x = rid
         ∧ (∀ y, y ∈ before -> r_id y ≠ rid)
         ∧ getRequests (IdText.id t) (Group.owner g)
             (snd (approveRequest env t (Group.owner g) (Some rid) db))
           = inr (before ++ after))
  ∧ (∀ rid,
       fst (declineRequest env t (Group.owner g) (Some rid) db)
       = Done 200 "Request declined successfully" ->
       ∃ before x after,
         listed = before ++ x :: after
         ∧ r_id x = rid
         ∧ (∀ y, y ∈ before -> r_id y ≠ rid)
         ∧ getRequests (IdText.id t) (Group.owner g)
             (snd (declineRequest env t (Group.owner g) (Some rid) db))
           = inr (before ++ after)).
Proof.
  intros Hg listed.
  assert (∀ rid i jr s db1,
            Group.request (Group.joinRequests g) rid = Some (i, jr) ->
            JoinRequest.status jr = Pending -> s ≠ Pending ->
            (∀ uid, populate db1 uid = populate db uid) ->
            ∃ before x after,
              listed = before ++ x :: after ∧ r_id x = rid
              ∧ (∀ y, y ∈ before -> r_id y ≠ rid)
              ∧ map (line db1)
                  (List.filter pending
                     (<[i := JoinRequest.set_status jr s]> (Group.joinRequests g)))
                = before ++ after) as Hdecided.
  { intros rid i jr s db1 Hreq Hst Hs Hpop.
    pose proof (request_first _ _ _ _ Hreq) as Hfirst.
    apply request_spec in Hreq as [Hi Hid].
    assert (pending jr = true) as Hp by (unfold pending; by rewrite Hst).
    destruct (pending_decided _ i jr s Hi Hp Hs) as [Hall Hrest].
    exists (map (line db) (List.filter pending (take i (Group.joinRequests g)))),
      (line db jr),
      (map (line db) (List.filter pending (drop (S i) (Group.joinRequests g)))).
    split; [|split; [|split]].
    - unfold listed. by rewrite Hall, map_app.
    - done.
    - intros y Hy. apply list_elem_of_In, in_map_iff in Hy as (x & <- & Hx).
      apply filter_In in Hx as [Hx _]. simpl. apply Hfirst. by apply list_elem_of_In.
    - rewrite Hrest, map_app.
      assert (∀ l, map (line db1) l = map (line db) l) as Hline.
      { intros l. apply map_ext. intros a. unfold line. by rewrite Hpop. }
      by rewrite !Hline. }
  split; [|split; [|split; [|split]]].
  - unfold getRequests. by rewrite Hg, N.eqb_refl.
  - intros uid Hne. unfold getRequests. rewrite Hg.
    assert ((Group.owner g =? uid)%N = false) as -> by (apply N.eqb_neq; congruence).
    done.
  - intros uid. unfold joinGroup. rewrite Hg.
    destruct (Group.isMember g uid); [done|].
    destruct (Group.isBanned g uid); [done|].
    destruct (Group.full g); [done|].
    destruct (Group.type g).
    + destruct (negb (saved env 0)); [done|].
      destruct (users db !! uid); [|done].
      by destruct (negb (saved env 1)).
    + destruct (users db !! uid) as [usr|] eqn:Hu; [|done].
      destruct (negb (User.canRejoinPrivateGroup (now env) usr t)); [done|].
      destruct (Group.hasPendingRequest g uid); [done|].
      destruct (negb (saved env 0)); [done|].
      intros _. unfold getRequests. simpl.
      rewrite lookup_insert_eq. simpl. rewrite N.eqb_refl. simpl.
      rewrite List.filter_app, map_app. simpl.
      unfold line at 2. unfold populate. simpl. by rewrite Hu.
  - intros rid Hdone.
    unfold approveRequest in *. rewrite Hg, N.eqb_refl in *. simpl in *.
      destruct (Group.request (Group.joinRequests g) rid) as [[i jr]|] eqn:Hreq; [|done].
      destruct (RequestStatus_eqb (JoinRequest.status jr) Pending) eqn:Hst;
        simpl in *; [|done].
      apply status_eqb_spec in Hst.
      destruct (Group.full g); [done|].
      destruct (negb (saved env 0)); [done|].
      destruct (negb (saved env 1)); [done|].
      simpl. unfold getRequests.
      rewrite groups_pushUserGroup, groups_saveGroup, lookup_insert_eq.
      simpl. rewrite N.eqb_refl. simpl.
      destruct (Hdecided rid i jr Approved
                  (pushUserGroup (JoinRequest.userId jr) (IdText.id t)
                     (saveGroup env (IdText.id t)
                        (Group.set_members
                           (Group.set_joinRequests g
                              (<[i := JoinRequest.set_status jr Approved]>
                                 (Group.joinRequests g)))
                           (Group.members g ++ [JoinRequest.userId jr])) db))
                  Hreq Hst ltac:(done))
        as (before & x & after & H1 & H2 & H3 & H4).
      { intros uid. by rewrite populate_pushUserGroup. }
      exists before, x, after. by rewrite H4.
  - intros rid Hdone.
    unfold declineRequest in *. rewrite Hg, N.eqb_refl in *. simpl in *.
      destruct (Group.request (Group.joinRequests g) rid) as [[i jr]|] eqn:Hreq; [|done].
      destruct (RequestStatus_eqb (JoinRequest.status jr) Pending) eqn:Hst;
        simpl in *; [|done].
      apply status_eqb_spec in Hst.
      destruct (negb (saved env 0)); [done|].
      simpl. unfold getRequests. simpl.
      rewrite lookup_insert_eq. simpl. rewrite N.eqb_refl. simpl.
      destruct (Hdecided rid i jr Declined
                  (saveGroup env (IdText.id t)
                     (Group.set_joinRequests g
                        (<[i := JoinRequest.set_status jr Declined]>
                           (Group.joinRequests g))) db)
                  Hreq Hst ltac:(done))
        as (before & x & after & H1 & H2 & H3 & H4); [done|].
      exists before, x, after. by rewrite H4.
Qed.

Lemma the_pending_list_follows_the_requests_witness :
  let db := Examples.alphaPendingStore in
  groups db !! 100%N = Some Examples.alphaPending
  ∧ getRequests 100 1 db = inr [mkLine 101 (Some 2%N) 2000 Pending]
  ∧ getRequests 100 2 db
    = inl (Err 403 "Access denied" "Only the group owner can view join requests")
  ∧ getRequests 100 1 (snd (joinGroup (Examples.env 2500 104) (IdText.canonical 100) 3 db))
    = inr [mkLine 101 (Some 2%N) 2000 Pending; mkLine 104 (Some 3%N) 2500 Pending]
  ∧ ∃ before x after,
      [mkLine 101 (Some 2%N) 2000 Pending] = before ++ x :: after
      ∧ r_id x = 101%N
      ∧ getRequests 100 1
          (snd (declineRequest (Examples.env 3000 0) (IdText.canonical 100) 1 (Some 101%N) db))
        = inr (before ++ after).
Proof.
  intros db.
  assert (H1 : groups db !! 100%N = Some Examples.alphaPending) by reflexivity.
  destruct (the_pending_list_follows_the_requests (Examples.env 2500 104)
              (IdText.canonical 100) db _ H1)
    as (Hown & Hother & Hjoin & _ & _).
  destruct (the_pending_list_follows_the_requests (Examples.env 3000 0)
              (IdText.canonical 100) db _ H1)
    as (_ & _ & _ & _ & Hdecline).
  split; [exact H1|]. split; [exact Hown|].
  split; [apply Hother; discriminate|].
  split; [exact (Hjoin 3%N eq_refl)|].
  destruct (Hdecline 101%N eq_refl) as (before & x & after & Ha & Hb & _ & Hc).
  exists before, x, after. split; [exact Ha|]. split; [exact Hb | exact Hc].
Defined.

End Requests.

(* ================================================================== *)
(** * Groups and messages together *)
(* ================================================================== *)

Module Api.
Import Groups Membership.

(** A request to one of the routes that write. *)
Inductive Request :=
| ToGroups (r : Groups.Request)
| SendMessage (groupId userId : ObjectId) (content : string)
| EditMessage (messageId userId : ObjectId) (content : string)
| DeleteMessage (messageId userId : ObjectId).

Section WithNode.

Context `{Node}.
Variable ENCRYPTION_KEY : option string.

Local Abbreviation key := (Messages.key ENCRYPTION_KEY).
Local Abbreviation getDecryptedContent := (Messages.getDecryptedContent ENCRYPTION_KEY).
Local Abbreviation sendMessage := (Messages.sendMessage ENCRYPTION_KEY).
Local Abbreviation editMessage := (Messages.editMessage ENCRYPTION_KEY).
Local Abbreviation deleteMessage := (Messages.deleteMessage ENCRYPTION_KEY).
Local Abbreviation getMessages := (Messages.getMessages ENCRYPTION_KEY).
Local Abbreviation searchMessages := (Messages.searchMessages ENCRYPTION_KEY).

Definition handle (env : Env) (r : Request) (db : DB) : Response * DB :=
  match r with
  | ToGroups r => Groups.handle env r db
  | SendMessage g u c => sendMessage env g u c db
  | EditMessage m u c => editMessage env m u c db
  | DeleteMessage m u => deleteMessage env m u db
  end.

Fixpoint run (rs : list (Env * Request)) (db : DB) : DB :=
  match rs with
  | [] => db
  | (env, r) :: rs' => run rs' (snd (handle env r db))
  end.

(** No request of the run deletes the group [gid], however the request
    spells the id. *)
Definition keepsGroup (gid : ObjectId) (rs : list (Env * Request)) : Prop :=
  Forall
    (fun er => ∀ t u, snd er = ToGroups (DeleteGroup t u) -> IdText.id t ≠ gid) rs.

(** ** What each side writes of the other *)

(** The group routes leave the messages alone, but for the deletion of a
    group by its owner, which removes the messages of the group. *)
Lemma messages_groups_handle env r db :
  messages (snd (Groups.handle env r db)) = messages db
  ∨ ∃ (t : IdText.t) g,
      r = DeleteGroup t (Group.owner g)
      ∧ groups db !! IdText.id t = Some g
      ∧ (List.length (Group.members g) <= 1)%nat
      ∧ messages (snd (Groups.handle env r db))
        = List.filter (fun m => negb (N.eqb (Message.groupId m) (IdText.id t)))
                      (messages db).
Proof.
  destruct r as [u n t m | k u | k u | k u | k u o | k u t | k u rid | k u rid]; simpl.
  - left. unfold createGroup. repeat case_match; simpl;
      rewrite ?messages_pushUserGroup; done.
  - left. unfold joinGroup. repeat case_match; done.
  - left. unfold leaveGroup. repeat case_match; done.
  - unfold deleteGroup.
    destruct (groups db !! IdText.id k) as [g|] eqn:Hg; [|by left].
    destruct (Group.owner g =? u)%N eqn:Hown; simpl; [|by left].
    apply N.eqb_eq in Hown. subst u.
    destruct (1 <? List.length (Group.members g))%nat eqn:Hlen; [by left|].
    apply Nat.ltb_ge in Hlen.
    destruct (negb (saved env 0)); [by left|].
    right. exists k, g. repeat split; [done..|].
    by repeat case_match.
  - left. unfold transferOwnership. repeat case_match; done.
  - left. unfold banishUser. repeat case_match; done.
  - left. unfold approveRequest. repeat case_match; simpl;
      rewrite ?messages_pushUserGroup; done.
  - left. unfold declineRequest. repeat case_match; done.
Qed.




(** ** Finding a message by its id *)

Lemma findById_app_l id ms ms' m :
  Messages.findById id ms = Some m -> Messages.findById id (ms ++ ms') = Some m.
Proof.
  unfold Messages.findById. induction ms as [|x ms IH]; simpl; [done|].
  destruct (Message._id x =? id)%N; [done | exact IH].
Qed.

Lemma findById_filter id (p : Message.t -> bool) ms m :
  Messages.findById id ms = Some m -> p m = true ->
  Messages.findById id (List.filter p ms) = Some m.
Proof.
  unfold Messages.findById. intros Hf Hp.
  induction ms as [|x ms IH]; simpl in *; [done|].
  destruct (Message._id x =? id)%N eqn:E.
  - injection Hf as ->. rewrite Hp. simpl. by rewrite E.
  - destruct (p x); simpl; [rewrite E|]; by apply IH.
Qed.

(** The message [replace] overwrites is the one [findById] finds. *)
Lemma replace_overwrites x m2 ms :
  x ∈ ms -> x ∉ Messages.replace m2 ms ->
  Messages.findById (Message._id m2) ms = Some x.
Proof.
  unfold Messages.findById. induction ms as [|y ms IH]; simpl.
  - by intros ?%elem_of_nil.
  - intros Hin Hout. destruct (Message._id y =? Message._id m2)%N.
    + apply elem_of_cons in Hin as [->|Hin]; [done|].
      destruct Hout. by apply list_elem_of_further.
    + apply elem_of_cons in Hin as [->|Hin].
      * destruct Hout. apply list_elem_of_here.
      * apply IH; [done|]. intros Hin'. destruct Hout.
        by apply list_elem_of_further.
Qed.

Lemma elem_of_replace x m2 ms :
  x ∈ Messages.replace m2 ms -> x ∈ ms ∨ (x = m2 ∧ ∃ m, Messages.findById (Message._id m2) ms = Some m).
Proof.
  unfold Messages.findById. induction ms as [|y ms IH]; simpl.
  - by intros ?%elem_of_nil.
  - destruct (Message._id y =? Message._id m2)%N.
    + intros [->|Hin]%elem_of_cons; [right; eauto|].
      left. by apply list_elem_of_further.
    + intros [->|Hin]%elem_of_cons; [left; apply list_elem_of_here|].
      destruct (IH Hin) as [Hin'|Hnew]; [|by right].
      left. by apply list_elem_of_further.
Qed.


(** ** A deleted message *)

Lemma handle_frozen env r db mid m :
  Messages.findById mid (messages db) = Some m ->
  Message.deleted m = true ->
  (∀ t u, r = ToGroups (DeleteGroup t u) -> IdText.id t ≠ Message.groupId m) ->
  Messages.findById mid (messages (snd (handle env r db))) = Some m.
Proof.
  intros Hm Hdel Hkeep. destruct r as [r|g u c|k u c|k u]; simpl.
  - destruct (messages_groups_handle env r db) as [->|(gid & g & -> & _ & _ & ->)];
      [done|].
    apply findById_filter; [done|]. apply negb_true_iff, N.eqb_neq.
    intros E. by destruct (Hkeep gid (Group.owner g) eq_refl).
  - unfold Messages.sendMessage. repeat case_match; simpl; try done.
    by apply findById_app_l.
  - unfold Messages.editMessage.
    destruct (Js.blank c); [done|].
    destruct (Messages.findById k (messages db)) as [m0|] eqn:Hm0; [|done].
    destruct (Message.deleted m0) eqn:Hd0; [done|].
    destruct (negb (Message.senderId m0 =? u)%N); [done|].
    destruct (negb (Qle_bool _ 15)); [done|].
    destruct (Messages.encryptContent _ _ _) as [[e v]|]; [|done].
    destruct (Messages.preSave _ _ _ _) as [m2|] eqn:Hsave; [|done].
    destruct (negb (saved env 0)); [done|]. simpl.
    apply MessageStore.preSave_frame in Hsave as (Hid & _). simpl in Hid.
    rewrite MessageStore.findById_replace_ne; [done|].
    rewrite Hid, (MessageStore.findById_id _ _ _ Hm0). intros ->. congruence.
  - unfold Messages.deleteMessage.
    destruct (Messages.findById k (messages db)) as [m0|] eqn:Hm0; [|done].
    destruct (Message.deleted m0) eqn:Hd0; [done|].
    destruct (_ && _); [done|].
    destruct (Messages.preSave _ _ _ _) as [m2|] eqn:Hsave; [|done].
    destruct (negb (saved env 0)); [done|]. simpl.
    apply MessageStore.preSave_frame in Hsave as (Hid & _). simpl in Hid.
    rewrite MessageStore.findById_replace_ne; [done|].
    rewrite Hid, (MessageStore.findById_id _ _ _ Hm0). intros ->. congruence.
Qed.

(** X9.  A deleted message is frozen.  No route clears the deleted flag:
    through any run of requests to the group and message routes that does
    not delete its group, a message that is deleted is still found under
    its id exactly as it was, every edit of it with a content is answered
    400 "Message deleted" and every deletion 400 "Already deleted", by
    whomever they are asked, and the store is left as it is. *)
Theorem a_deleted_message_is_frozen
    (rs : list (Env * Request)) (db : DB) (mid : ObjectId) (m : Message.t) :
  Messages.findById mid (messages db) = Some m ->
  Message.deleted m = true ->
  keepsGroup (Message.groupId m) rs ->
  Messages.findById mid (messages (run rs db)) = Some m
  ∧ (∀ env uid content, Js.blank content = false ->
       editMessage env mid uid content (run rs db)
       = (Err 400 "Message deleted" "Cannot edit a deleted message", run rs db))
  ∧ (∀ env uid,
       deleteMessage env mid uid (run rs db)
       = (Err 400 "Already deleted" "This message has already been deleted", run rs db)).
Proof.
  intros Hm Hdel Hrs.
  assert (Messages.findById mid (messages (run rs db)) = Some m) as Hafter.
  { revert db Hm. induction Hrs as [|[env r] rs Hr _ IH]; intros db Hm; simpl; [done|].
    apply IH. by apply handle_frozen. }
  split; [done|]. split.
  - intros env uid content Hc. unfold Messages.editMessage. by rewrite Hc, Hafter, Hdel.
  - intros env uid. unfold Messages.deleteMessage. by rewrite Hafter, Hdel.
Qed.

(** ** Who writes a message *)

(** X10.  A stored message is changed or removed in three ways only.  If a
    message of the store is no longer in it after a request, whatever the
    request, then the message was not deleted and the request was an edit
    of it by its sender, within 15 minutes of its timestamp, or a deletion
    of it by its sender or by the owner of its group; or the request was
    the deletion of its group by the owner of the group, its URL spelling
    the id of the group in some way. *)
Theorem a_message_changes_only_by_its_sender_or_the_owner
    (env : Env) (r : Request) (db : DB) (m : Message.t) :
  m ∈ messages db ->
  m ∉ messages (snd (handle env r db)) ->
  (∃ c, r = EditMessage (Message._id m) (Message.senderId m) c
        ∧ Message.deleted m = false
        ∧ (now env - Message.timestamp m <= 15 * 60 * 1000)%Z)
  ∨ (∃ u, r = DeleteMessage (Message._id m) u
          ∧ Message.deleted m = false
          ∧ (u = Message.senderId m
             ∨ ∃ g, groups db !! Message.groupId m = Some g ∧ Group.owner g = u))
  ∨ (∃ (t : IdText.t) g,
        IdText.id t = Message.groupId m
        ∧ r = ToGroups (DeleteGroup t (Group.owner g))
        ∧ groups db !! Message.groupId m = Some g).
Proof.
  intros Hin Hout. destruct r as [r|g u c|k u c|k u]; simpl in Hout.
  - right. right.
    destruct (messages_groups_handle env r db) as [E|(gid & g & -> & Hg & _ & E)];
      rewrite E in Hout; [done|].
    destruct (decide (Message.groupId m = IdText.id gid)) as [E'|Hne].
    { exists gid, g. rewrite E'. eauto. }
    destruct Hout. apply list_elem_of_In, filter_In.
    split; [by apply list_elem_of_In|]. by apply negb_true_iff, N.eqb_neq.
  - destruct Hout. unfold Messages.sendMessage. repeat case_match; simpl; try done.
    apply elem_of_app. by left.
  - left. unfold Messages.editMessage in Hout.
    destruct (Js.blank c); [done|].
    destruct (Messages.findById k (messages db)) as [m0|] eqn:Hm0; [|done].
    destruct (Message.deleted m0) eqn:Hd0; [done|].
    destruct (Message.senderId m0 =? u)%N eqn:Hs; simpl in Hout; [|done].
    destruct (Qle_bool _ 15) eqn:Hw; simpl in Hout; [|done].
    destruct (Messages.encryptContent _ _ _) as [[e v]|]; [|done].
    destruct (Messages.preSave _ _ _ _) as [m2|] eqn:Hsave; [|done].
    destruct (negb (saved env 0)); [done|]. simpl in Hout.
    apply MessageStore.preSave_frame in Hsave as (Hid & _). simpl in Hid.
    pose proof (replace_overwrites m m2 (messages db) Hin Hout) as Hfound.
    pose proof (MessageStore.findById_id _ _ _ Hm0) as Hk.
    rewrite Hid, Hk, Hm0 in Hfound. injection Hfound as ->.
    apply N.eqb_eq in Hs. apply MessageStore.minutesSince_15 in Hw.
    exists c. rewrite Hk, Hs. split; [done|]. split; [done|]. lia.
  - right. left. unfold Messages.deleteMessage in Hout.
    destruct (Messages.findById k (messages db)) as [m0|] eqn:Hm0; [|done].
    destruct (Message.deleted m0) eqn:Hd0; [done|].
    destruct (negb (Message.senderId m0 =? u)%N && _) eqn:Hallowed; [done|].
    destruct (Messages.preSave _ _ _ _) as [m2|] eqn:Hsave; [|done].
    destruct (negb (saved env 0)); [done|]. simpl in Hout.
    apply MessageStore.preSave_frame in Hsave as (Hid & _). simpl in Hid.
    pose proof (replace_overwrites m m2 (messages db) Hin Hout) as Hfound.
    pose proof (MessageStore.findById_id _ _ _ Hm0) as Hk.
    rewrite Hid, Hk, Hm0 in Hfound. injection Hfound as ->.
    exists u. rewrite Hk. split; [done|]. split; [done|].
    apply andb_false_iff in Hallowed as [Hs|Ho].
    + left. apply negb_false_iff, N.eqb_eq in Hs. done.
    + right. destruct (groups db !! Message.groupId m) as [g|]; [|done].
      apply negb_false_iff, N.eqb_eq in Ho. eauto.
Qed.

(** X11.  Only members post, and what identifies a message is never
    rewritten.  If a message is in the store after a request and was not
    before, then either the request was a send to its group by its sender,
    who was a member of the group, and the message carries the new id and
    the time of the request, is encrypted, and is neither edited nor
    deleted; or it is the new version of a stored message, written by an
    edit or a deletion of that message, with the same id, group, sender and
    timestamp. *)
Theorem only_members_post_and_identity_is_kept
    (env : Env) (r : Request) (db : DB) (m : Message.t) :
  m ∉ messages db ->
  m ∈ messages (snd (handle env r db)) ->
  (∃ c g, r = SendMessage (Message.groupId m) (Message.senderId m) c
          ∧ groups db !! Message.groupId m = Some g
          ∧ Group.isMember g (Message.senderId m) = true
          ∧ Message._id m = newId env
          ∧ Message.timestamp m = now env
          ∧ Message.encrypted m = true
          ∧ Message.edited m = false
          ∧ Message.deleted m = false)
  ∨ (∃ m0, Messages.findById (Message._id m) (messages db) = Some m0
           ∧ Message.groupId m = Message.groupId m0
           ∧ Message.senderId m = Message.senderId m0
           ∧ Message.timestamp m = Message.timestamp m0
           ∧ ((∃ c, r = EditMessage (Message._id m) (Message.senderId m) c)
              ∨ (∃ u, r = DeleteMessage (Message._id m) u))).
Proof.
  intros Hout Hin. destruct r as [r|g u c|k u c|k u]; simpl in Hin.
  - destruct Hout.
    destruct (messages_groups_handle env r db) as [E|(gid & g & -> & Hg & _ & E)];
      rewrite E in Hin; [done|].
    apply list_elem_of_In, filter_In in Hin as [Hin _]. by apply list_elem_of_In.
  - left. unfold Messages.sendMessage in Hin.
    destruct (Js.blank c); [done|].
    destruct (groups db !! g) as [grp|] eqn:Hg; [|done].
    destruct (Group.isMember grp u) eqn:Hmem; simpl in Hin; [|done].
    destruct (Messages.preSave _ _ _ _) as [m1|] eqn:Hsave; [|done].
    destruct (_ || _); [done|]. simpl in Hin.
    apply elem_of_app in Hin as [Hin|Hin]; [done|].
    apply list_elem_of_singleton in Hin as ->.
    unfold Messages.preSave in Hsave. simpl in Hsave.
    destruct (Messages.encryptContent _ _ _) as [[e v]|]; [|done].
    injection Hsave as <-. simpl. exists c, grp. by rewrite Hg.
  - right. unfold Messages.editMessage in Hin.
    destruct (Js.blank c); [done|].
    destruct (Messages.findById k (messages db)) as [m0|] eqn:Hm0; [|done].
    destruct (Message.deleted m0) eqn:Hd0; [done|].
    destruct (Message.senderId m0 =? u)%N eqn:Hs; simpl in Hin; [|done].
    destruct (negb (Qle_bool _ 15)); [done|].
    destruct (Messages.encryptContent _ _ _) as [[e v]|]; [|done].
    destruct (Messages.preSave _ _ _ _) as [m2|] eqn:Hsave; [|done].
    destruct (negb (saved env 0)); [done|]. simpl in Hin.
    apply MessageStore.preSave_frame in Hsave as (Hid & Hgid & Hsid & Hts & _).
    simpl in *.
    destruct (elem_of_replace _ _ _ Hin) as [Hold|[-> _]]; [done|].
    pose proof (MessageStore.findById_id _ _ _ Hm0) as Hk.
    apply N.eqb_eq in Hs.
    exists m0. rewrite Hid, Hk, Hm0, Hgid, Hsid, Hts, Hs. eauto 10.
  - right. unfold Messages.deleteMessage in Hin.
    destruct (Messages.findById k (messages db)) as [m0|] eqn:Hm0; [|done].
    destruct (Message.deleted m0) eqn:Hd0; [done|].
    destruct (_ && _); [done|].
    destruct (Messages.preSave _ _ _ _) as [m2|] eqn:Hsave; [|done].
    destruct (negb (saved env 0)); [done|]. simpl in Hin.
    apply MessageStore.preSave_frame in Hsave as (Hid & Hgid & Hsid & Hts & _).
    simpl in *.
    destruct (elem_of_replace _ _ _ Hin) as [Hold|[-> _]]; [done|].
    pose proof (MessageStore.findById_id _ _ _ Hm0) as Hk.
    exists m0. rewrite Hid, Hk, Hm0, Hgid, Hsid, Hts. eauto 10.
Qed.


(** ** Reading *)

Lemma limitTo_sub {A} (n : Z) (l : list A) (x : A) :
  x ∈ Messages.limitTo n l -> x ∈ l.
Proof.
  unfold Messages.limitTo. destruct (n =? 0)%Z; [done|]. apply subseteq_take.
Qed.

Lemma sortNewestFirst_sub (ms : list Message.t) (x : Message.t) :
  x ∈ Messages.sortNewestFirst ms -> x ∈ ms.
Proof.
  unfold Messages.sortNewestFirst.
  by rewrite (merge_sort_Permutation Messages.newerFirst ms).
Qed.

(** Whatever the limit, a result of the scan is a match of a scanned
    message, or was a result before. *)
Lemma scan_sub (limit : Z) (searchTerm : string) (msgs : list Message.t)
    (acc : list Hit) (x : Hit) :
  x ∈ Messages.scan ENCRYPTION_KEY limit searchTerm msgs acc ->
  x ∈ acc
  ∨ ∃ m, m ∈ msgs ∧ x = Messages.hit m (getDecryptedContent m)
         ∧ Js.includes (toLowerCase (getDecryptedContent m)) searchTerm = true.
Proof.
  revert acc. induction msgs as [|msg msgs IH]; intros acc; simpl; [by left|].
  destruct (Js.includes (toLowerCase (getDecryptedContent msg)) searchTerm) eqn:Hm.
  - assert (x ∈ acc ++ [Messages.hit msg (getDecryptedContent msg)] ->
            x ∈ acc ∨ ∃ m, m ∈ msg :: msgs ∧ x = Messages.hit m (getDecryptedContent m)
              ∧ Js.includes (toLowerCase (getDecryptedContent m)) searchTerm = true)
      as Hpush.
    { intros [Hx|Hx]%elem_of_app; [by left|].
      apply list_elem_of_singleton in Hx as ->. right. exists msg.
      split; [apply list_elem_of_here | done]. }
    destruct (limit <=? _)%Z; [exact Hpush|].
    intros Hx. destruct (IH _ Hx) as [Hacc|(m & Hin & Hrest)]; [by apply Hpush|].
    right. exists m. split; [by apply list_elem_of_further | done].
  - destruct (limit <=? _)%Z; [by left|].
    intros Hx. destruct (IH _ Hx) as [Hacc|(m & Hin & Hrest)]; [by left|].
    right. exists m. split; [by apply list_elem_of_further | done].
Qed.

(** X12.  The two reading routes show a user nothing but the live messages
    of a group the user is a member of, whatever the limit and the bounds
    asked for, a limit of 0 or below included.  When the listing route
    answers with a page, or the search route with results, the requester is
    a member of the group, and every line is the decrypted view of a stored
    message of this group that is not deleted; a search result moreover
    contains the query, both in lower case. *)
Theorem reading_shows_members_live_messages_of_the_group_only
    (gid uid : ObjectId) (db : DB) :
  (∀ limit before after page more,
      getMessages gid uid limit before after db = Listing page more ->
      (∃ g, groups db !! gid = Some g ∧ Group.isMember g uid = true)
      ∧ ∀ x, x ∈ page ->
          ∃ m, m ∈ messages db ∧ x = Messages.view ENCRYPTION_KEY m
               ∧ Message.groupId m = gid ∧ Message.deleted m = false)
  ∧ (∀ q limit results query count,
      searchMessages gid uid q limit db = Found results query count ->
      (∃ g, groups db !! gid = Some g ∧ Group.isMember g uid = true)
      ∧ ∀ x, x ∈ results ->
          ∃ m, m ∈ messages db ∧ x = Messages.hit m (getDecryptedContent m)
               ∧ Message.groupId m = gid ∧ Message.deleted m = false
               ∧ Js.includes (toLowerCase (getDecryptedContent m)) (toLowerCase q)
                 = true).
Proof.
  split.
  - intros limit before after page more. unfold Messages.getMessages.
    destruct (groups db !! gid) as [g|]; [|done].
    destruct (Group.isMember g uid) eqn:Hmem; simpl; [|done].
    intros [= <- _]. split; [eauto|]. intros x Hx.
    apply list_elem_of_In, in_rev, in_map_iff in Hx as (m & <- & Hm).
    apply list_elem_of_In, limitTo_sub, sortNewestFirst_sub in Hm.
    apply list_elem_of_In, filter_In in Hm as [Hin Hl].
    apply MessageStore.listed_spec in Hl as (Hg & Hd & _).
    exists m. split; [by apply list_elem_of_In | done].
  - intros q limit results query count. unfold Messages.searchMessages.
    destruct (Js.blank q); [done|].
    destruct (groups db !! gid) as [g|]; [|done].
    destruct (Group.isMember g uid) eqn:Hmem; simpl; [|done].
    intros [= <- _ _]. split; [eauto|]. intros x Hx.
    apply scan_sub in Hx as [Hx|(m & Hm & -> & Hmatch)]; [by apply elem_of_nil in Hx|].
    apply limitTo_sub, sortNewestFirst_sub in Hm.
    apply list_elem_of_In, filter_In in Hm as [Hin Hs].
    apply MessageStore.searchable_spec in Hs as (Hg & Hd).
    exists m. split; [by apply list_elem_of_In | done].
Qed.

(** ** A banished user and the messages *)





(** ** Deleting a group *)

Lemma findById_filtered_out (p : Message.t -> bool) (ms : list Message.t) (m : Message.t) :
  NoDup (Message._id <$> ms) -> m ∈ ms -> p m = false ->
  Messages.findById (Message._id m) (List.filter p ms) = None.
Proof.
  intros Hnd Hin Hp.
  destruct (Messages.findById (Message._id m) (List.filter p ms)) as [x|] eqn:Hf; [|done].
  unfold Messages.findById in Hf. apply find_some in Hf as [Hx Hid].
  apply filter_In in Hx as [Hx Hpx]. apply N.eqb_eq in Hid.
  apply list_elem_of_In, list_elem_of_lookup in Hx as [i Hi].
  apply list_elem_of_lookup in Hin as [j Hj].
  assert (i = j) as ->.
  { apply (NoDup_lookup _ _ _ (Message._id m) Hnd); rewrite list_lookup_fmap.
    - by rewrite Hi; simpl; rewrite Hid.
    - by rewrite Hj. }
  assert (x = m) as -> by congruence. congruence.
Qed.

(** X14.  Deleting a group leaves no trace of it.  In a store whose groups
    have their owner among their members, a deletion that succeeds was asked
    by the owner, who was the only member, so nobody is stranded.  After it
    the group is gone and the other groups are as they were; the messages
    of the store are those of the other groups, in their order; no user
    lists the group.  Sending to the group and listing it answer 404
    "Group not found", and, message ids being unique, an edit or a deletion
    of a message that was in the group answers 404 "Message not found".
    The URL of the deletion may spell the id of the group in any way. *)
Theorem deleting_a_group_leaves_no_trace
    (env : Env) (t : IdText.t) (uid : ObjectId) (db : DB) :
  let gid := IdText.id t in
  storeOk db ->
  NoDup (Message._id <$> messages db) ->
  fst (deleteGroup env t uid db) = Done 200 "Group deleted successfully" ->
  let db1 := snd (deleteGroup env t uid db) in
  (∃ g, groups db !! gid = Some g ∧ Group.owner g = uid ∧ Group.members g = [uid])
  ∧ groups db1 = delete gid (groups db)
  ∧ messages db1
    = List.filter (fun m => negb (N.eqb (Message.groupId m) gid)) (messages db)
  ∧ (∀ m, m ∈ messages db1 <-> m ∈ messages db ∧ Message.groupId m ≠ gid)
  ∧ (∀ k u, users db1 !! k = Some u -> gid ∉ User.groups u)
  ∧ (∀ e u c, Js.blank c = false ->
       fst (sendMessage e gid u c db1) = Err 404 "Group not found" "")
  ∧ (∀ u limit before after,
       getMessages gid u limit before after db1 = Err 404 "Group not found" "")
  ∧ (∀ m, m ∈ messages db -> Message.groupId m = gid ->
       (∀ e u c, Js.blank c = false ->
          fst (editMessage e (Message._id m) u c db1) = Err 404 "Message not found" "")
       ∧ (∀ e u,
          fst (deleteMessage e (Message._id m) u db1) = Err 404 "Message not found" "")).
Proof.
  intros gid Hok Hnd Hdone db1. subst db1. unfold deleteGroup in *.
  fold gid in Hdone |- *.
  destruct (groups db !! gid) as [g|] eqn:Hg; [|done].
  destruct (Group.owner g =? uid)%N eqn:Hown; simpl in *; [|done].
  apply N.eqb_eq in Hown.
  destruct (1 <? List.length (Group.members g))%nat eqn:Hlen; [done|].
  apply Nat.ltb_ge in Hlen.
  destruct (negb (saved env 0)); [done|].
  destruct (negb (saved env 1)); [done|].
  destruct (negb (saved env 2)); [done|].
  simpl.
  assert (∀ m, m ∈ List.filter (fun m => negb (N.eqb (Message.groupId m) gid)) (messages db)
               <-> m ∈ messages db ∧ Message.groupId m ≠ gid) as Hmsgs.
  { intros m. by rewrite !list_elem_of_In, filter_In, negb_true_iff, N.eqb_neq. }
  split; [|split; [done|split; [done|split; [done|split; [|split; [|split]]]]]].
  - exists g. split; [done|]. split; [done|].
    destruct (Hok gid g Hg) as [Hin _]. rewrite Hown in Hin.
    destruct (Group.members g) as [|x [|y l]]; simpl in Hlen; [|..|lia].
    + by apply elem_of_nil in Hin.
    + by apply list_elem_of_singleton in Hin as ->.
  - intros k u. rewrite lookup_fmap.
    destruct (users db !! k) as [u0|]; [|done]. simpl. intros [= <-]. simpl.
    intros Hin. apply elem_of_without in Hin as [_ Hne]. done.
  - intros e u c Hc. unfold Messages.sendMessage. simpl.
    by rewrite Hc, lookup_delete_eq.
  - intros u limit before after. unfold Messages.getMessages. simpl.
    by rewrite lookup_delete_eq.
  - intros m Hin Hgid.
    assert (Messages.findById (Message._id m)
              (List.filter (fun m => negb (N.eqb (Message.groupId m) gid)) (messages db))
            = None) as Hnone.
    { apply findById_filtered_out; [done..|].
      apply negb_false_iff, N.eqb_eq. done. }
    split.
    + intros e u c Hc. unfold Messages.editMessage. simpl. by rewrite Hc, Hnone.
    + intros e u. unfold Messages.deleteMessage. simpl. by rewrite Hnone.
Qed.

(** ** Sending *)

(** X15.  A message is stored as ciphertext and read back as sent.  When a
    member sends a content that is not blank, under a key and random bytes
    of 16 bytes, a new id and a write that succeeds, the route answers with
    the trimmed content and appends one message to the store, touching
    nothing else.  The stored message is flagged encrypted, keeps the
    random bytes as its iv, in hexadecimal, and holds in [content] a
    hexadecimal text more than twice as long as the trimmed content, so not
    the content itself; its decrypted view is the trimmed content. *)
Theorem a_sent_message_is_stored_as_ciphertext
    (env : Env) (gid uid : ObjectId) (content : string) (db : DB) (g : Group.t) :
  groups db !! gid = Some g ->
  Group.isMember g uid = true ->
  Js.blank content = false ->
  Messages.findById (newId env) (messages db) = None ->
  String.length key = 16%nat ->
  String.length (randomBytes env 0) = 16%nat ->
  saved env 0 = true ->
  ∃ m1,
    sendMessage env gid uid content db
    = (Sent (newId env) gid uid (Js.trim content) (now env),
       set_messages db (messages db ++ [m1]))
    ∧ Message.encrypted m1 = true
    ∧ Message.iv m1 = Some (Hex.encode (randomBytes env 0))
    ∧ (2 * String.length (Js.trim content) < String.length (Message.content m1))%nat
    ∧ Message.content m1 ≠ Js.trim content
    ∧ getDecryptedContent m1 = Js.trim content.
Proof.
  intros Hg Hmem Hc Hnew Hk Hr Hsv. unfold Messages.sendMessage.
  rewrite Hc, Hg, Hmem. simpl. unfold Messages.preSave. simpl.
  destruct (MessageStore.decrypt_encrypt ENCRYPTION_KEY (randomBytes env 0)
              (Js.trim content) Hk Hr) as (c & _ & -> & Hd & Hlen).
  simpl. rewrite Hnew, Hsv. simpl.
  unfold Messages.getDecryptedContent at 1. simpl. rewrite Hd.
  eexists. split; [reflexivity|]. simpl.
  split; [done|]. split; [done|].
  assert (2 * String.length (Js.trim content) < String.length (Hex.encode c))%nat
    as Hlong by (rewrite hex_encode_length; lia).
  split; [done|]. split.
  - intros E. rewrite E in Hlong. lia.
  - unfold Messages.getDecryptedContent. simpl. by rewrite Hd.
Qed.

End WithNode.

(** ** The theorems at work, on the cipher of [Sample] and the default key *)

Lemma a_deleted_message_is_frozen_witness :
  let rs := [ (Examples.env 5000 303, SendMessage 200 1 "again");
              (Examples.env 6000 0, EditMessage 302 1 "bye bye");
              (Examples.env 7000 0, DeleteMessage 302 1);
              (Examples.env 8000 0, ToGroups (JoinGroup (IdText.canonical 200) 2)) ] in
  Messages.findById 302 (messages Examples.chatStore) = Some Scenes.bye
  ∧ Message.deleted Scenes.bye = true
  ∧ Messages.findById 302 (messages (@run Sample.node None rs Examples.chatStore))
    = Some Scenes.bye.
Proof.
  intros rs.
  assert (H1 : Messages.findById 302 (messages Examples.chatStore) = Some Scenes.bye)
    by (vm_compute; reflexivity).
  assert (H2 : Message.deleted Scenes.bye = true) by reflexivity.
  assert (H3 : keepsGroup (Message.groupId Scenes.bye) rs).
  { repeat constructor; simpl; discriminate. }
  split; [exact H1|]. split; [exact H2|].
  exact (proj1 (@a_deleted_message_is_frozen Sample.node None rs Examples.chatStore
                  302 Scenes.bye H1 H2 H3)).
Defined.

Lemma a_message_changes_only_by_its_sender_or_the_owner_witness :
  let r := DeleteMessage 300 1 in
  Examples.hello ∈ messages Examples.helloStore
  ∧ (Examples.hello
     ∉ messages (snd (@handle Sample.node None (Examples.env 5000 0) r Examples.helloStore)))
  ∧ ((∃ c, r = EditMessage 300 1 c
           ∧ Message.deleted Examples.hello = false
           ∧ (5000 - 1000 <= 15 * 60 * 1000)%Z)
     ∨ (∃ u, r = DeleteMessage 300 u
             ∧ Message.deleted Examples.hello = false
             ∧ (u = 1%N
                ∨ ∃ g, groups Examples.helloStore !! 200%N = Some g ∧ Group.owner g = u))
     ∨ (∃ (t : IdText.t) g,
           IdText.id t = 200%N
           ∧ r = ToGroups (DeleteGroup t (Group.owner g))
           ∧ groups Examples.helloStore !! 200%N = Some g)).
Proof.
  intros r.
  assert (H1 : Examples.hello ∈ messages Examples.helloStore).
  { apply list_elem_of_singleton. vm_compute. reflexivity. }
  assert (H2 : Examples.hello
               ∉ messages (snd (@handle Sample.node None (Examples.env 5000 0) r
                                        Examples.helloStore))).
  { intros Hin. apply list_elem_of_singleton in Hin. vm_compute in Hin. discriminate. }
  split; [exact H1|]. split; [exact H2|].
  exact (@a_message_changes_only_by_its_sender_or_the_owner Sample.node None
           (Examples.env 5000 0) r Examples.helloStore Examples.hello H1 H2).
Defined.

Lemma only_members_post_and_identity_is_kept_witness :
  let r := SendMessage 200 1 "  hello " in
  (Examples.hello ∉ messages Examples.lobbyStore)
  ∧ (Examples.hello
     ∈ messages (snd (@handle Sample.node None (Examples.env 1000 300) r
                              Examples.lobbyStore)))
  ∧ ∃ c g, r = SendMessage 200 1 c
           ∧ groups Examples.lobbyStore !! 200%N = Some g
           ∧ Group.isMember g (IdText.canonical 1) = true.
Proof.
  intros r.
  assert (H1 : Examples.hello ∉ messages Examples.lobbyStore).
  { intros Hin. by apply elem_of_nil in Hin. }
  assert (H2 : Examples.hello
               ∈ messages (snd (@handle Sample.node None (Examples.env 1000 300) r
                                        Examples.lobbyStore))).
  { apply list_elem_of_singleton. vm_compute. reflexivity. }
  split; [exact H1|]. split; [exact H2|].
  destruct (@only_members_post_and_identity_is_kept Sample.node None
              (Examples.env 1000 300) r Examples.lobbyStore Examples.hello H1 H2)
    as [(c & g & Hr & Hg & Hm & _)|(m0 & Hf & _)].
  - exists c, g. split; [exact Hr|]. split; [exact Hg | exact Hm].
  - vm_compute in Hf. discriminate.
Defined.

Lemma reading_shows_members_live_messages_of_the_group_only_witness :
  ∃ page more,
    @Messages.getMessages Sample.node None 200 1 0 None None Examples.chatStore
    = Listing page more
    ∧ List.length page = 2%nat
    ∧ ∀ x, x ∈ page ->
        ∃ m, m ∈ messages Examples.chatStore ∧ x = @Messages.view Sample.node None m
             ∧ Message.groupId m = 200%N ∧ Message.deleted m = false.
Proof.
  eexists _, _. split; [vm_compute; reflexivity|]. split; [reflexivity|].
  refine (proj2 (proj1 (@reading_shows_members_live_messages_of_the_group_only
                          Sample.node None 200 1 Examples.chatStore)
                   0%Z None None _ _ _)).
  vm_compute. reflexivity.
Defined.


Lemma deleting_a_group_leaves_no_trace_witness :
  let db1 := snd (deleteGroup (Examples.env 5000 0) (IdText.canonical 200) 1 Examples.chatStore) in
  fst (deleteGroup (Examples.env 5000 0) (IdText.canonical 200) 1 Examples.chatStore)
  = Done 200 "Group deleted successfully"
  ∧ List.length (messages Examples.chatStore) = 3%nat
  ∧ (∀ m, m ∈ messages db1 <-> m ∈ messages Examples.chatStore ∧ Message.groupId m ≠ 200%N)
  ∧ Examples.hello ∈ messages Examples.chatStore
  ∧ (∀ e u c, Js.blank c = false ->
       fst (@Messages.editMessage Sample.node None e 300 u c db1)
       = Err 404 "Message not found" "").
Proof.
  intros db1.
  assert (H0 : Membership.storeOk Examples.chatStore).
  { intros k g. change (groups Examples.chatStore) with (groups Examples.lobbyStore).
    unfold Examples.lobbyStore. simpl. rewrite lookup_insert.
    case_decide; [|by rewrite lookup_empty].
    intros [= <-]. split; simpl; [by apply list_elem_of_singleton | done]. }
  assert (H1 : NoDup (Message._id <$> messages Examples.chatStore)).
  { change (NoDup [300%N; 301%N; 302%N]).
    repeat (apply NoDup_cons; split; [rewrite ?elem_of_cons, elem_of_nil; lia|]).
    apply NoDup_nil_2. }
  assert (H2 : fst (deleteGroup (Examples.env 5000 0) (IdText.canonical 200) 1 Examples.chatStore)
               = Done 200 "Group deleted successfully") by (vm_compute; reflexivity).
  assert (H3 : Examples.hello ∈ messages Examples.chatStore).
  { change (messages Examples.chatStore)
      with (Examples.hello :: drop 1 (messages Examples.chatStore)).
    apply list_elem_of_here. }
  destruct (@deleting_a_group_leaves_no_trace Sample.node None (Examples.env 5000 0)
              (IdText.canonical 200) 1 Examples.chatStore H0 H1 H2)
    as (_ & _ & _ & Hmsgs & _ & _ & _ & Hgone).
  split; [exact H2|]. split; [reflexivity|]. split; [exact Hmsgs|].
  split; [exact H3|].
  exact (proj1 (Hgone Examples.hello H3 eq_refl)).
Defined.

Lemma a_sent_message_is_stored_as_ciphertext_witness :
  ∃ m1,
    @Messages.sendMessage Sample.node None (Examples.env 1000 300) 200 1 "  hello "
                          Examples.lobbyStore
    = (Sent 300 200 1 (Js.trim "  hello ") 1000,
       set_messages Examples.lobbyStore (messages Examples.lobbyStore ++ [m1]))
    ∧ Message.encrypted m1 = true
    ∧ Message.iv m1 = Some (Hex.encode "0123456789abcdef")
    ∧ (2 * String.length (Js.trim "  hello ") < String.length (Message.content m1))%nat
    ∧ Message.content m1 ≠ Js.trim "  hello "
    ∧ @Messages.getDecryptedContent Sample.node None m1 = Js.trim "  hello ".
Proof.
  apply (@a_sent_message_is_stored_as_ciphertext Sample.node None
           (Examples.env 1000 300) 200 1 "  hello " Examples.lobbyStore Examples.lobby);
    reflexivity.
Defined.

End Api.

(* ================================================================== *)
(** * middleware/auth.js and the verify route of routes/auth.js *)
(* ================================================================== *)

Module Auth.

(** What [jwt.verify(token, secret)] makes of a token: the payload that the
    register and login routes sign, [{ userId, email }], or the exception
    it throws. *)
Inductive Verdict :=
| Payload (userId : ObjectId) (email : string)
| JsonWebTokenError
| TokenExpiredError
| OtherError.

(** The middleware calls [next()] with [req.userId] and [req.userEmail]
    set, or answers itself. *)
Inductive Outcome :=
| Next (userId : ObjectId) (userEmail : string)
| Refused (status : Z) (error message : string).

(** The answer of [GET /auth/verify]: [{ valid: true, user }], the user
    known by its id, or an error. *)
Inductive Verified :=
| ValidUser (id : ObjectId)
| Invalid (status : Z) (error : string).

(** [s.slice(n)]. *)
Fixpoint slice (n : nat) (s : string) : string :=
  match n, s with
  | O, _ => s
  | S n', String _ r => slice n' r
  | S _, EmptyString => EmptyString
  end.

Definition space : ascii := " "%char.

(** The text of [s] before its first space. *)
Fixpoint untilSpace (s : string) : string :=
  match s with
  | EmptyString => EmptyString
  | String a r => if Ascii.eqb a space then EmptyString else String a (untilSpace r)
  end.

(** [s.split(" ")[1]]: the text between the first space of [s] and the
    next; [None] is undefined, [s] has no space. *)
Fixpoint secondField (s : string) : option string :=
  match s with
  | EmptyString => None
  | String a r => if Ascii.eqb a space then Some (untilSpace r) else secondField r
  end.

Fixpoint hasSpace (s : string) : bool :=
  match s with
  | EmptyString => false
  | String a r => Ascii.eqb a space || hasSpace r
  end.

Section WithJwt.

Variable verify : string -> Verdict.

(** [module.exports] of middleware/auth.js; [authorization] is
    [req.headers.authorization]. *)
Definition authenticate (authorization : option string) : Outcome :=
  match authorization with
  | None => Refused 401 "No authorization header" "Please provide a valid token"
  | Some authHeader =>
      if Js.falsy authHeader then
        Refused 401 "No authorization header" "Please provide a valid token"
      else
        let token :=
          if String.prefix "Bearer " authHeader then slice 7 authHeader
          else authHeader in
        if Js.falsy token then
          Refused 401 "No token provided" "Please provide a valid token"
        else
          match verify token with
          | Payload userId email => Next userId email
          | JsonWebTokenError => Refused 401 "Invalid token" "The provided token is invalid"
          | TokenExpiredError => Refused 401 "Token expired" "Please login again"
          | OtherError => Refused 500 "Authentication failed" ""
          end
  end.

(** [router.get("/verify")]. *)
Definition verifyToken (authorization : option string) (db : DB) : Verified :=
  match authorization ≫= secondField with
  | None => Invalid 401 "No token provided"
  | Some token =>
      if Js.falsy token then Invalid 401 "No token provided"
      else
        match verify token with
        | Payload userId _ =>
            match users db !! userId with
            | Some _ => ValidUser userId
            | None => Invalid 404 "User not found"
            end
        | JsonWebTokenError | TokenExpiredError => Invalid 401 "Invalid or expired token"
        | OtherError => Invalid 500 "Verification failed"
        end
  end.

Lemma prefix_app (s t : string) :
  String.prefix s t = true -> ∃ r, t = (s ++ r)%string.
Proof.
  revert t. induction s as [|a s IH]; intros t; [by exists t|].
  destruct t as [|b t]; simpl; [done|].
  destruct (ascii_dec a b) as [->|]; [|done].
  intros Hp. destruct (IH t Hp) as [r ->]. by exists r.
Qed.

Lemma prefix_bearer (t : string) :
  String.prefix "Bearer " ("Bearer " ++ t)%string = true.
Proof. by destruct t. Qed.

Lemma hasSpace_bearer (t : string) :
  hasSpace t = false -> String.prefix "Bearer " t = false.
Proof.
  intros Hno. apply not_true_iff_false. intros Hp.
  apply prefix_app in Hp as [r ->]. simpl in Hno. done.
Qed.

Lemma untilSpace_whole (t : string) : hasSpace t = false -> untilSpace t = t.
Proof.
  induction t as [|a t IH]; simpl; [done|].
  destruct (Ascii.eqb a space); simpl; [done|]. intros Ht. by rewrite IH.
Qed.

Lemma secondField_none (t : string) : hasSpace t = false -> secondField t = None.
Proof.
  induction t as [|a t IH]; simpl; [done|].
  destruct (Ascii.eqb a space); simpl; [done | exact IH].
Qed.

(** X16.  The middleware lets a request through only with a token that
    verifies, and takes the token with or without the "Bearer " prefix; the
    verify route reads the header differently.  If the middleware calls
    [next()], the header is a token that is not empty and that
    [jwt.verify] accepts, possibly behind "Bearer ", and [req.userId] is
    the user id of its payload.  For a token that is not empty and holds no
    space, as the tokens the routes sign, the header "Bearer <token>" and
    the bare header "<token>" are answered alike by the middleware; the
    verify route reads the token of the first and checks that its user
    exists, and answers the second with 401 "No token provided". *)
Theorem a_bare_token_passes_the_middleware_but_not_the_verify_route :
  (∀ authorization userId email,
      authenticate authorization = Next userId email ->
      ∃ token, token ≠ "" ∧ verify token = Payload userId email
               ∧ (authorization = Some token
                  ∨ authorization = Some ("Bearer " ++ token)%string))
  ∧ (∀ token db,
      token ≠ "" -> hasSpace token = false ->
      authenticate (Some ("Bearer " ++ token)%string) = authenticate (Some token)
      ∧ (authenticate (Some token)
         = match verify token with
           | Payload userId email => Next userId email
           | JsonWebTokenError => Refused 401 "Invalid token" "The provided token is invalid"
           | TokenExpiredError => Refused 401 "Token expired" "Please login again"
           | OtherError => Refused 500 "Authentication failed" ""
           end)
      ∧ (verifyToken (Some ("Bearer " ++ token)%string) db
         = match verify token with
           | Payload userId _ =>
               if bool_decide (is_Some (users db !! userId)) then ValidUser userId
               else Invalid 404 "User not found"
           | JsonWebTokenError | TokenExpiredError =>
               Invalid 401 "Invalid or expired token"
           | OtherError => Invalid 500 "Verification failed"
           end)
      ∧ verifyToken (Some token) db = Invalid 401 "No token provided").
Proof.
  split.
  - intros [h|] u e; [|done]. unfold authenticate.
    destruct (Js.falsy h) eqn:Hh; [done|].
    destruct (String.prefix "Bearer " h) eqn:Hp.
    + apply prefix_app in Hp as [t ->].
      change (slice 7 ("Bearer " ++ t)%string) with t.
      destruct (Js.falsy t) eqn:Ht; [done|].
      destruct (verify t) eqn:Hv; try done. intros [= <- <-].
      exists t. split; [|split; [done | by right]].
      intros ->. done.
    + rewrite Hh.
      destruct (verify h) eqn:Hv; try done. intros [= <- <-].
      exists h. split; [|split; [done | by left]].
      intros ->. done.
  - intros token db Hne Hno.
    assert (Js.falsy token = false) as Hfalsy.
    { unfold Js.falsy. by apply String.eqb_neq. }
    assert (authenticate (Some token)
            = match verify token with
              | Payload userId email => Next userId email
              | JsonWebTokenError =>
                  Refused 401 "Invalid token" "The provided token is invalid"
              | TokenExpiredError => Refused 401 "Token expired" "Please login again"
              | OtherError => Refused 500 "Authentication failed" ""
              end) as Hbare.
    { unfold authenticate. by rewrite Hfalsy, (hasSpace_bearer token Hno), Hfalsy. }
    split; [|split; [done|split]].
    + rewrite Hbare. unfold authenticate.
      rewrite prefix_bearer.
      change (slice 7 ("Bearer " ++ token)%string) with token.
      by rewrite Hfalsy.
    + unfold verifyToken.
      change (Some ("Bearer " ++ token)%string ≫= secondField)
        with (Some (untilSpace token)).
      rewrite (untilSpace_whole token Hno), Hfalsy.
      destruct (verify token); try done.
      by destruct (users db !! userId).
    + unfold verifyToken. simpl. by rewrite (secondField_none token Hno).
Qed.

End WithJwt.

(** A [jwt.verify] that accepts one token, of user 1. *)
Definition sampleVerify (token : string) : Verdict :=
  if String.eqb token "header.payload.signature" then Payload 1 "one@example.org"
  else JsonWebTokenError.

Lemma a_bare_token_passes_the_middleware_but_not_the_verify_route_witness :
  authenticate sampleVerify (Some "Bearer header.payload.signature")
  = Next 1 "one@example.org"
  ∧ authenticate sampleVerify (Some "header.payload.signature")
    = Next 1 "one@example.org"
  ∧ verifyToken sampleVerify (Some "Bearer header.payload.signature") Examples.threeUsers
    = ValidUser 1
  ∧ verifyToken sampleVerify (Some "header.payload.signature") Examples.threeUsers
    = Invalid 401 "No token provided".
Proof.
  destruct (proj2 (a_bare_token_passes_the_middleware_but_not_the_verify_route sampleVerify)
              "header.payload.signature" Examples.threeUsers ltac:(discriminate) eq_refl)
    as (Hsame & Hbare & Hroute & Hraw).
  split; [exact (eq_trans Hsame Hbare)|]. split; [exact Hbare|].
  split; [exact Hroute | exact Hraw].
Defined.

End Auth.

(* ================================================================== *)
(** * One route after another *)
(* ================================================================== *)

Module Journeys.
Import Groups Membership Steps.

Lemma length_without_member (id : ObjectId) (l : list ObjectId) :
  id ∈ l -> (List.length (without id l) < List.length l)%nat.
Proof.
  unfold without. induction l as [|x l IH]; [by intros ?%elem_of_nil|].
  cbn [List.filter]. rewrite equals_canonical.
  intros [->|Hin]%elem_of_cons.
  - rewrite N.eqb_refl. simpl. pose proof (length_without x l). unfold without in *. lia.
  - destruct (negb (x =? id)%N); simpl; [apply IH in Hin; lia|].
    pose proof (length_without id l). unfold without in *. lia.
Qed.

(** A group of a sound store, once a member has been removed, has room. *)
Lemma room_after_removal (g : Group.t) (u : ObjectId) (d : Z) :
  groupOk g -> u ∈ Group.members g ->
  Group.full (Group.set_updatedAt
                (Group.set_members g (without u (Group.members g))) d) = false.
Proof.
  intros [_ Hmax] Hin. unfold Group.full. simpl.
  destruct (Group.maxMembers g) as [m|] eqn:Hm; [|done].
  destruct (Hmax m eq_refl) as [H2 Hlen].
  pose proof (length_without_member u _ Hin) as Hless.
  apply andb_false_iff. right. apply not_true_iff_false. intros Hle.
  apply Qle_bool_iff in Hle.
  assert (count (without u (Group.members g)) + 1 <= count (Group.members g))%Q as Hone.
  { unfold count. change 1%Q with (inject_Z 1).
    rewrite <- inject_Z_plus, <- Zle_Qle. lia. }
  unfold count in *. lra.
Qed.

(** X17.  Leaving and coming back.  In a store whose groups are sound, a
    member who has just left a group and asks to join it again, each write
    succeeding, is taken back at once by a public group, however the two
    requests spell the id of the group.  When both spell it the way
    [toString()] writes it, a private group answers 429 "Cooldown period"
    and keeps the store as it is while less than 48 hours have passed since
    the leave, and from 48 hours on files the request to join: the user is
    not banned, the group has room, and the user has no request pending.
    When the request to join spells the id in another way, no record of
    the leave is found and the private group files the request at any
    time. *)
Theorem a_leaver_rejoins_at_once_or_after_48_hours
    (env env2 : Env) (t t2 : IdText.t) (uid : ObjectId) (db : DB) (g : Group.t) :
  IdText.id t2 = IdText.id t ->
  storeOk db ->
  rosters db ->
  groups db !! IdText.id t = Some g ->
  fst (leaveGroup env t uid db) = Done 200 "Successfully left the group" ->
  saved env2 0 = true ->
  saved env2 1 = true ->
  let db1 := snd (leaveGroup env t uid db) in
  (Group.type g = Public ->
   fst (joinGroup env2 t2 uid db1) = Done 200 "Successfully joined the group")
  ∧ (Group.type g = Private ->
     IdText.written t = true -> IdText.written t2 = true ->
     (now env2 - now env < 48 * 60 * 60 * 1000)%Z ->
     joinGroup env2 t2 uid db1
     = (Err 429 "Cooldown period"
          "You must wait 48 hours after leaving before you can request to rejoin this private group",
        db1))
  ∧ (Group.type g = Private ->
     IdText.written t = true -> IdText.written t2 = true ->
     (48 * 60 * 60 * 1000 <= now env2 - now env)%Z ->
     fst (joinGroup env2 t2 uid db1) = Done 200 "Join request sent successfully")
  ∧ (Group.type g = Private ->
     IdText.written t2 = false ->
     fst (joinGroup env2 t2 uid db1) = Done 200 "Join request sent successfully").
Proof.
  intros Hid Hok Hros Hg Hleft Hs0 Hs1 db1. subst db1.
  unfold leaveGroup in *. rewrite Hg in *.
  destruct (Group.isMember g uid) eqn:Hmem; simpl in *; [|done].
  destruct (Group.owner g =? uid)%N; [done|].
  destruct (negb (saved env 0)); [done|].
  destruct (users db !! uid) as [u|] eqn:Hu; [|done].
  destruct (negb (saved env 1)); [done|].
  clear Hleft. simpl.
  pose proof (proj1 (isMember_spec g uid) Hmem) as Hin.
  destruct (Hros _ g Hg) as (_ & Hmb & Hpm & _).
  assert (Group.isBanned g uid = false) as Hban by (by apply Hmb).
  assert (Group.hasPendingRequest g uid = false) as Hpend.
  { apply not_true_iff_false. intros Hp.
    apply hasPendingRequest_spec in Hp as (r & Hr & Hru & Hrs).
    destruct (Hpm r Hr Hrs) as [Hnot _]. by rewrite Hru in Hnot. }
  pose proof (room_after_removal g uid (now env) (Hok _ g Hg) Hin) as Hroom.
  assert (Group.isMember
            (Group.set_updatedAt (Group.set_members g (without uid (Group.members g)))
               (now env)) uid = false) as Hgone.
  { apply not_true_iff_false. intros Hm. apply isMember_spec in Hm. simpl in Hm.
    apply elem_of_without in Hm as [_ Hne]. done. }
  unfold joinGroup. simpl. rewrite Hid, !lookup_insert_eq.
  rewrite Hgone. change (Group.isBanned (Group.set_updatedAt _ _) uid)
    with (Group.isBanned g uid). rewrite Hban, Hroom. simpl.
  assert (∀ w, IdText.written t = w -> IdText.written t2 = w -> t2 = t) as Hsame.
  { intros w. destruct t, t2. simpl in *. congruence. }
  split; [|split; [|split]].
  - intros ->. by rewrite Hs0, Hs1.
  - intros -> Hw Hw2 Hsoon. simpl. rewrite (Hsame true Hw Hw2).
    unfold User.canRejoinPrivateGroup. simpl.
    fold (leftRecord t (recordLeft (User.leftGroups u) t (now env))).
    rewrite recordLeft_find by done. simpl.
    assert (Qle_bool 48 (User.hoursSince (now env2) (now env)) = false) as ->; [|done].
    apply not_true_iff_false. rewrite hoursSince_48. lia.
  - intros -> Hw Hw2 Hlate. simpl. rewrite (Hsame true Hw Hw2).
    unfold User.canRejoinPrivateGroup. simpl.
    fold (leftRecord t (recordLeft (User.leftGroups u) t (now env))).
    rewrite recordLeft_find by done. simpl.
    assert (Qle_bool 48 (User.hoursSince (now env2) (now env)) = true) as ->
        by (apply hoursSince_48; lia).
    simpl.
    change (Group.hasPendingRequest (Group.set_updatedAt _ _) uid)
      with (Group.hasPendingRequest g uid).
    by rewrite Hpend, Hs0.
  - intros -> Hw2. simpl.
    unfold User.canRejoinPrivateGroup. simpl.
    fold (leftRecord t2 (recordLeft (User.leftGroups u) t (now env))).
    rewrite (leftRecord_respelled _ t2 Hw2). simpl.
    change (Group.hasPendingRequest (Group.set_updatedAt _ _) uid)
      with (Group.hasPendingRequest g uid).
    by rewrite Hpend, Hs0.
Qed.

Lemma a_leaver_rejoins_at_once_or_after_48_hours_witness :
  let db := run (take 3 Examples.leaveTwiceRun) Examples.threeUsers in
  let db1 := snd (leaveGroup (Examples.env 4000 103) (IdText.canonical 100) 2 db) in
  fst (leaveGroup (Examples.env 4000 103) (IdText.canonical 100) 2 db)
  = Done 200 "Successfully left the group"
  ∧ joinGroup (Examples.env 5000 104) (IdText.canonical 100) 2 db1
    = (Err 429 "Cooldown period"
         "You must wait 48 hours after leaving before you can request to rejoin this private group",
       db1)
  ∧ fst (joinGroup (Examples.env 172804000 104) (IdText.canonical 100) 2 db1)
    = Done 200 "Join request sent successfully"
  ∧ fst (joinGroup (Examples.env 5000 104) Examples.upper100 2 db1)
    = Done 200 "Join request sent successfully".
Proof.
  intros db db1.
  assert (H0 : storeOk db).
  { apply run_ok. intros k g. unfold Examples.threeUsers. simpl. by rewrite lookup_empty. }
  assert (H1 : rosters db).
  { apply GroupProperties.run_rosters, GroupProperties.no_group_rosters. reflexivity. }
  assert (H2 : groups db !! 100%N
               = Some (Group.mk "Alpha" Private 1 [1%N; 2%N] (Some 3%Q)
                         [JoinRequest.mk 101 2 2000 Approved] [] 1000 3000))
    by (vm_compute; reflexivity).
  assert (H3 : fst (leaveGroup (Examples.env 4000 103) (IdText.canonical 100) 2 db)
               = Done 200 "Successfully left the group") by (vm_compute; reflexivity).
  split; [exact H3|].
  destruct (a_leaver_rejoins_at_once_or_after_48_hours (Examples.env 4000 103)
              (Examples.env 5000 104) (IdText.canonical 100) (IdText.canonical 100)
              2 db _ eq_refl H0 H1 H2 H3 eq_refl eq_refl)
    as (_ & Hsoon & _ & _).
  destruct (a_leaver_rejoins_at_once_or_after_48_hours (Examples.env 4000 103)
              (Examples.env 172804000 104) (IdText.canonical 100) (IdText.canonical 100)
              2 db _ eq_refl H0 H1 H2 H3 eq_refl eq_refl)
    as (_ & _ & Hlate & _).
  destruct (a_leaver_rejoins_at_once_or_after_48_hours (Examples.env 4000 103)
              (Examples.env 5000 104) (IdText.canonical 100) Examples.upper100
              2 db _ eq_refl H0 H1 H2 H3 eq_refl eq_refl)
    as (_ & _ & _ & Hupper).
  split; [apply Hsoon; [reflexivity.. | simpl; lia]|].
  split; [apply Hlate; [reflexivity.. | simpl; lia]|].
  apply Hupper; reflexivity.
Defined.

(** X18.  Transferring ownership is what lets an owner leave.  In a store
    whose groups have their owner among their members, the owner's request
    to leave is refused with 400 "Owner cannot leave", which tells the
    owner to transfer ownership first.  After a transfer to another member
    that succeeded, it is the new owner whose leave is refused so, the
    former owner is refused the deletion of the group with 403, and the
    former owner's leave succeeds when both of its writes do.  The requests
    may spell the id of the group in any way, and the transfer names the
    new owner as the route accepts it. *)
Theorem an_owner_leaves_by_transferring_first
    (env env2 : Env) (t t2 : IdText.t) (uid : ObjectId) (o : IdText.t)
    (db : DB) (g : Group.t) (u : User.t) :
  let gid := IdText.id t in
  let newOwner := IdText.id o in
  IdText.id t2 = gid ->
  storeOk db ->
  groups db !! gid = Some g ->
  users db !! uid = Some u ->
  newOwner ≠ uid ->
  fst (transferOwnership env t uid (Some o) db)
  = Done 200 "Ownership transferred successfully" ->
  let refused :=
    Err 400 "Owner cannot leave" "You must transfer ownership before leaving the group" in
  let db1 := snd (transferOwnership env t uid (Some o) db) in
  leaveGroup env2 t2 uid db = (refused, db)
  ∧ leaveGroup env2 t2 newOwner db1 = (refused, db1)
  ∧ deleteGroup env2 t2 uid db1
    = (Err 403 "Access denied" "Only the group owner can delete the group", db1)
  ∧ (saved env2 0 = true -> saved env2 1 = true ->
     fst (leaveGroup env2 t2 uid db1) = Done 200 "Successfully left the group"
     ∧ ∃ g1, groups (snd (leaveGroup env2 t2 uid db1)) !! gid = Some g1
             ∧ Group.owner g1 = newOwner
             ∧ Group.isMember g1 uid = false
             ∧ Group.isMember g1 newOwner = true).
Proof.
  intros gid newOwner Hid Hok Hg Hu Hne Hdone refused db1. subst refused db1.
  unfold transferOwnership in *. fold gid in Hdone |- *. rewrite Hg in *.
  destruct (Group.owner g =? uid)%N eqn:Hown; simpl in *; [|done].
  destruct (Group.isMember g o) eqn:Hnew; simpl in *; [|done].
  rewrite (isMember_canonical g o Hnew) in Hnew. fold newOwner in Hnew.
  destruct (negb (saved env 0)); [done|]. clear Hdone. simpl.
  apply N.eqb_eq in Hown.
  destruct (Hok gid g Hg) as [Hin _]. rewrite Hown in Hin.
  pose proof (proj2 (isMember_spec g uid) Hin) as Hmem.
  assert ((newOwner =? uid)%N = false) as Hne' by (by apply N.eqb_neq).
  assert (∀ d x, Group.isMember (Group.set_updatedAt (Group.set_owner g newOwner) d) x
                 = Group.isMember g x) as Hsame by done.
  fold newOwner.
  split; [|split; [|split]].
  - unfold leaveGroup. rewrite Hid, Hg, Hmem. simpl. by rewrite Hown, N.eqb_refl.
  - unfold leaveGroup. simpl. rewrite Hid, lookup_insert_eq. simpl.
    rewrite Hsame, Hnew. simpl. by rewrite N.eqb_refl.
  - unfold deleteGroup. simpl. rewrite Hid, lookup_insert_eq. simpl. by rewrite Hne'.
  - intros Hs0 Hs1. unfold leaveGroup. simpl. rewrite Hid, !lookup_insert_eq. simpl.
    rewrite Hsame, Hmem, Hne', Hs0, Hu, Hs1. simpl.
    split; [done|]. rewrite insert_insert_eq, lookup_insert_eq.
    eexists. split; [done|]. simpl. split; [done|]. split.
    + apply not_true_iff_false. intros Hm. apply isMember_spec in Hm. simpl in Hm.
      apply elem_of_without in Hm as [_ Hx]. done.
    + apply isMember_spec. simpl. apply elem_of_without.
      split; [by apply isMember_spec | done].
Qed.

Lemma an_owner_leaves_by_transferring_first_witness :
  let db := Examples.alphaFullStore in
  let db0 := set_users db (<[1%N := User.mk [100%N] [] []]> (users db)) in
  let refused :=
    Err 400 "Owner cannot leave" "You must transfer ownership before leaving the group" in
  let db1 :=
    snd (transferOwnership (Examples.env 5000 0) (IdText.canonical 100) 1
           (Some (IdText.canonical 2)) db0) in
  leaveGroup (Examples.env 6000 0) (IdText.canonical 100) 1 db0 = (refused, db0)
  ∧ leaveGroup (Examples.env 6000 0) (IdText.canonical 100) 2 db1 = (refused, db1)
  ∧ fst (leaveGroup (Examples.env 6000 0) (IdText.canonical 100) 1 db1)
    = Done 200 "Successfully left the group".
Proof.
  intros db db0 refused db1.
  assert (H0 : storeOk db0).
  { intros k g. unfold db0, db, Examples.alphaFullStore. simpl. rewrite lookup_insert.
    case_decide; [|by rewrite lookup_empty].
    intros [= <-]. split; simpl.
    - apply list_elem_of_here.
    - intros m [= <-]. split; [done|]. by vm_compute. }
  destruct (an_owner_leaves_by_transferring_first (Examples.env 5000 0)
              (Examples.env 6000 0) (IdText.canonical 100) (IdText.canonical 100) 1
              (IdText.canonical 2) db0 Examples.alphaFull
              (User.mk [100%N] [] []) eq_refl H0 eq_refl eq_refl
              ltac:(discriminate) eq_refl)
    as (Hbefore & Hnew & _ & Hold).
  split; [exact Hbefore|]. split; [exact Hnew|].
  exact (proj1 (Hold eq_refl eq_refl)).
Defined.

(** ** The cooldown ledger under the spelling of [toString()] *)

(** X19.  Start from users who never left a group and run any sequence of
    requests to the membership engine in which every leave and banishment
    spells the id of its group the way [toString()] writes it.  For a user
    [u] of the resulting store and a group [gid], spelled that way too:
    - [u] holds at most one leftGroups record of [gid];
    - canRejoinPrivateGroup is true exactly when [u] holds no record of
      [gid], or holds one whose leftAt lies at least 48 hours back;
    - a join of the private group [gid] that passes the membership, ban and
      capacity checks is answered with "Cooldown period" exactly when
      canRejoinPrivateGroup is false;
    - a successful leave of the private group [gid] leaves [u] with the
      record of [gid] stamped with the time of this leave, still one per
      group, and when [u] already held a record of [gid] the number of
      records is unchanged: the record is overwritten. *)
Theorem written_spellings_keep_one_record_per_group
    (rs : list (Env * Request)) (db : DB) (uid gid : ObjectId) (u : User.t) :
  (∀ k v, users db !! k = Some v -> User.leftGroups v = []) ->
  allSpelled rs ->
  users (run rs db) !! uid = Some u ->
  let t := IdText.canonical gid in
  (∀ i j a b,
      User.leftGroups u !! i = Some a -> User.leftGroups u !! j = Some b ->
      LeftGroup.groupId a = gid -> LeftGroup.groupId b = gid -> i = j)
  ∧ (∀ now,
        User.canRejoinPrivateGroup now u t = true
        <-> (¬ ∃ lg, lg ∈ User.leftGroups u ∧ LeftGroup.groupId lg = gid)
            ∨ (∃ lg, lg ∈ User.leftGroups u ∧ LeftGroup.groupId lg = gid
                     ∧ (48 * 60 * 60 * 1000 <= now - LeftGroup.leftAt lg)%Z))
  ∧ (∀ env g,
        groups (run rs db) !! gid = Some g -> Group.type g = Private ->
        Group.isMember g uid = false -> Group.isBanned g uid = false ->
        Group.full g = false ->
        fst (joinGroup env t uid (run rs db))
        = Err 429 "Cooldown period"
              "You must wait 48 hours after leaving before you can request to rejoin this private group"
        <-> User.canRejoinPrivateGroup (now env) u t = false)
  ∧ (∀ env g,
        groups (run rs db) !! gid = Some g -> Group.type g = Private ->
        fst (leaveGroup env t uid (run rs db)) = Done 200 "Successfully left the group" ->
        ∃ u1,
          users (snd (leaveGroup env t uid (run rs db))) !! uid = Some u1
          ∧ leftRecord t (User.leftGroups u1) = Some (LeftGroup.mk gid (now env))
          ∧ NoDup (leftIds u1)
          ∧ ((∃ lg, lg ∈ User.leftGroups u ∧ LeftGroup.groupId lg = gid) ->
             List.length (User.leftGroups u1) = List.length (User.leftGroups u))).
Proof.
  intros Hfresh Hsp Hu t.
  assert (Hnd : NoDup (leftIds u)).
  { apply (run_ledgerOk rs db Hsp) with uid; [|done].
    intros k v Hv. unfold leftIds. rewrite (Hfresh _ _ Hv). constructor. }
  split; [|split; [|split]].
  - intros i j a b Hi Hj Ha Hb.
    eapply (NoDup_lookup _ _ _ gid Hnd); unfold leftIds; rewrite list_lookup_fmap.
    + by rewrite Hi; simpl; rewrite Ha.
    + by rewrite Hj; simpl; rewrite Hb.
  - intros now. unfold User.canRejoinPrivateGroup.
    fold (leftRecord t (User.leftGroups u)).
    destruct (leftRecord t (User.leftGroups u)) as [lg|] eqn:Hf.
    + rewrite hoursSince_48. apply leftRecord_Some in Hf as [Hin Hid]; [|done].
      split.
      * intros Ht. right. exists lg. repeat split; [done..|lia].
      * intros [Hno | (lg' & Hin' & Hid' & Ht)]; [destruct Hno; eauto|].
        assert (leftRecord t (User.leftGroups u) = Some lg') as Hf'
            by (by apply leftRecord_Some).
        assert (leftRecord t (User.leftGroups u) = Some lg) as Hf''
            by (by apply leftRecord_Some).
        assert (lg' = lg) as -> by congruence. lia.
    + apply leftRecord_None in Hf. split; [by left | done].
  - intros env g Hg Hty Hmem Hban Hfull.
    unfold joinGroup. simpl. rewrite Hg, Hmem, Hban, Hfull, Hty, Hu.
    destruct (User.canRejoinPrivateGroup (now env) u t); simpl.
    + split; [|done].
      destruct (Group.hasPendingRequest g uid); [done|].
      by destruct (negb (saved env 0)).
    + done.
  - intros env g Hg Hty. unfold leaveGroup. simpl. rewrite Hg, Hty.
    destruct (negb (Group.isMember g uid)); [done|].
    destruct (Group.owner g =? uid)%N; [done|].
    destruct (negb (saved env 0)); [done|].
    rewrite Hu.
    destruct (negb (saved env 1)); [done|].
    intros _. simpl. rewrite lookup_insert_eq. eexists. split; [done|]. simpl.
    split; [by apply (recordLeft_find _ t)|].
    split; [by apply (recordLeft_NoDup _ t)|].
    intros (lg & Hin & Hid). apply (recordLeft_length _ t); [done|].
    apply list_elem_of_fmap. eauto.
Qed.

Lemma written_spellings_keep_one_record_per_group_witness :
  (∀ k v, users Examples.threeUsers !! k = Some v -> User.leftGroups v = [])
  ∧ allSpelled Examples.leaveTwiceRun
  ∧ users (run Examples.leaveTwiceRun Examples.threeUsers) !! 2%N = Some Examples.leftTwice
  ∧ (User.canRejoinPrivateGroup 172807000 Examples.leftTwice (IdText.canonical 100) = true
     <-> (¬ ∃ lg, lg ∈ User.leftGroups Examples.leftTwice ∧ LeftGroup.groupId lg = 100%N)
         ∨ (∃ lg, lg ∈ User.leftGroups Examples.leftTwice ∧ LeftGroup.groupId lg = 100%N
                  ∧ (48 * 60 * 60 * 1000 <= 172807000 - LeftGroup.leftAt lg)%Z)).
Proof.
  assert (H1 : ∀ k v, users Examples.threeUsers !! k = Some v -> User.leftGroups v = []).
  { intros k v. unfold Examples.threeUsers. simpl.
    rewrite !lookup_insert.
    repeat case_decide; first [by intros [= <-] | by rewrite lookup_empty]. }
  assert (H2 : allSpelled Examples.leaveTwiceRun) by (repeat constructor).
  assert (H3 : users (run Examples.leaveTwiceRun Examples.threeUsers) !! 2%N
               = Some Examples.leftTwice) by (vm_compute; reflexivity).
  split; [exact H1|]. split; [exact H2|]. split; [exact H3|].
  exact (proj1 (proj2 (written_spellings_keep_one_record_per_group _ _ 2 100 _ H1 H2 H3))
           172807000%Z).
Defined.

End Journeys.
